(** * pa2.c: a two-level page table with copy-on-write fork

    A shallow embedding of [alloc_page], [free_page], [handle_page_fault]
    and [switch_process] of [src/pa2.c], and the properties of the
    specification that are settled on it.

    C data is modelled as the code has it: [unsigned int] values are
    integers in [Z] with their wrap-around written out, arrays are lists
    read and written by index, structs are records, and the four functions
    thread the global variables ([processes], [current], [ptbr],
    [mapcounts]) through an error monad whose failures are the undefined
    behaviours of the C code (a null dereference, an access outside an
    array, a traversal that never ends). *)

From Stdlib Require Import ZArith Lia.
From stdpp Require Import base numbers option list.

Local Open Scope Z_scope.

(** ** Outcomes of a C function *)

Inductive fault : Type :=
  | NullDeref      (* a null (or dangling) pointer is dereferenced *)
  | OutOfBounds    (* an array is indexed outside its bounds *)
  | Hang.          (* a loop that never terminates *)

Inductive result (A : Type) : Type :=
  | Ok (a : A)
  | Stuck (f : fault).
Arguments Ok {A} a.
Arguments Stuck {A} f.

#[global] Instance result_ret : MRet result := fun A a => Ok a.
#[global] Instance result_bind : MBind result := fun A B k m =>
  match m with
  | Ok a => k a
  | Stuck f => Stuck f
  end.

#[global] Instance result_fmap : FMap result := fun A B g m =>
  match m with
  | Ok a => Ok (g a)
  | Stuck f => Stuck f
  end.

(** [*p] for a pointer that may be null. *)
Definition deref {A : Type} (p : option A) : result A :=
  match p with
  | Some a => Ok a
  | None => Stuck NullDeref
  end.

(** [a[i]]: reading element [i] of an array. *)
Definition arr_get {A : Type} (a : list A) (i : Z) : result A :=
  if decide (0 <= i) then
    match a !! Z.to_nat i with
    | Some x => Ok x
    | None => Stuck OutOfBounds
    end
  else Stuck OutOfBounds.

(** [a[i] = x]: writing element [i] of an array. *)
Definition arr_set {A : Type} (a : list A) (i : Z) (x : A) : result (list A) :=
  _ ← arr_get a i; Ok (<[Z.to_nat i := x]> a).

(** ** Machine integers *)

Definition UINT_MOD : Z := 2 ^ 32.
Definition INT_MAX : Z := 2 ^ 31 - 1.

(** Conversion of a mathematical integer to [unsigned int]. *)
Definition to_uint (x : Z) : Z := x mod UINT_MOD.

(** Conversion of an [unsigned int] to [int] (two's complement). *)
Definition to_int (x : Z) : Z :=
  if decide (to_uint x <= INT_MAX) then to_uint x else to_uint x - UINT_MOD.

(** ** The declarations of vm.h and list_head.h *)

(** The constants of [vm.h], which is not among the sources: they are
    parameters of the development. *)
Class vm_h : Type := {
  NR_PAGEFRAMES : Z;
  NR_PTES_PER_PAGE : Z;
  RW_READ : Z;
  RW_WRITE : Z;
}.

(** [struct pte]. *)
Record pte : Type := PTE {
  valid : bool;
  writable : bool;
  pfn : Z;
  private : Z;
}.

(** [struct pte_directory]: the inner table, [ptes[NR_PTES_PER_PAGE]]. *)
Record pte_directory : Type := PD {
  ptes : list pte;
}.

(** [struct pagetable]: [outer_ptes[NR_PTES_PER_PAGE]], each slot a pointer
    to an inner table or [NULL].  An inner table is owned by one slot of one
    process (every one is obtained from its own [malloc] and no pointer to it
    is ever copied), so a slot holds the table itself. *)
Record pagetable : Type := PT {
  outer_ptes : list (option pte_directory);
}.

(** A pointer to a [struct list_head]: the head [processes], or the [list]
    field of the process at an address. *)
Inductive list_ref : Type :=
  | Head
  | Node (a : nat).

(** [struct list_head]. *)
Record list_head : Type := LH {
  next : list_ref;
  prev : list_ref;
}.

(** [struct process]. *)
Record process : Type := Process {
  pid : Z;
  p_pagetable : pagetable;
  p_list : list_head;
}.

(** The global variables.  [heap] holds the process objects, a pointer to a
    process being its index; [ptbr] points to the page table of the process
    at the address it holds. *)
Record state : Type := State {
  heap : list process;
  processes : list_head;
  current : nat;
  ptbr : option nat;
  mapcounts : list Z;
}.

#[global] Instance list_ref_eq_dec : EqDecision list_ref.
Proof. solve_decision. Defined.

(** Field updates. *)
Definition set_writable (b : bool) (e : pte) : pte :=
  {| valid := valid e; writable := b; pfn := pfn e; private := private e |}.
Definition set_pfn (f : Z) (e : pte) : pte :=
  {| valid := valid e; writable := writable e; pfn := f; private := private e |}.
Definition set_pagetable (pt : pagetable) (p : process) : process :=
  {| pid := pid p; p_pagetable := pt; p_list := p_list p |}.
Definition set_list (l : list_head) (p : process) : process :=
  {| pid := pid p; p_pagetable := p_pagetable p; p_list := l |}.

(** The page table of the process at address [a]. *)
Definition pagetable_at (s : state) (a : nat) : result pagetable :=
  p ← deref (heap s !! a); Ok (p_pagetable p).

(** Storing a page table and the reference counts back. *)
Definition store_pagetable (s : state) (a : nat) (pt : pagetable)
    (mc : list Z) : state :=
  {| heap := alter (set_pagetable pt) a (heap s);
     processes := processes s;
     current := current s;
     ptbr := ptbr s;
     mapcounts := mc |}.

(** [pt->outer_ptes[i]->ptes[j]]. *)
Definition pte_at (pt : pagetable) (i j : Z) : result pte :=
  slot ← arr_get (outer_ptes pt) i;
  pd ← deref slot;
  arr_get (ptes pd) j.

(** [pt->outer_ptes[i]->ptes[j] = e]. *)
Definition pte_store (pt : pagetable) (i j : Z) (e : pte) : result pagetable :=
  slot ← arr_get (outer_ptes pt) i;
  pd ← deref slot;
  es ← arr_set (ptes pd) j e;
  o ← arr_set (outer_ptes pt) i (Some (PD es));
  Ok (PT o).

Section Pa2.
Context `{vm_h}.

(** The loop [for(i=0; i<NR_PAGEFRAMES; i++) if(mapcounts[i]==0) ...] of
    [alloc_page] and [handle_page_fault]: the first frame from [i] on, among
    the next [n], whose count is 0. *)
Fixpoint find_free_frame (n : nat) (i : Z) (mc : list Z) : result (option Z) :=
  match n with
  | O => Ok None
  | S n' =>
      m ← arr_get mc i;
      if decide (m = 0) then Ok (Some i) else find_free_frame n' (i + 1) mc
  end.

(** [alloc_page] on the page table of [current] and on [mapcounts].
    [new_pd] is the block that [malloc] returns for a new inner table; the
    code does not initialise it. *)
Definition alloc_page_in (new_pd : pte_directory) (pt : pagetable)
    (mc : list Z) (vpn rw : Z) : result (pagetable * list Z * Z) :=
  let pd_index := vpn / NR_PTES_PER_PAGE in
  let pte_index := vpn mod NR_PTES_PER_PAGE in
  slot ← arr_get (outer_ptes pt) pd_index;
  pt1 ← match slot with
        | None => o ← arr_set (outer_ptes pt) pd_index (Some new_pd); Ok (PT o)
        | Some _ => Ok pt
        end;
  found ← find_free_frame (Z.to_nat NR_PAGEFRAMES) 0 mc;
  match found with
  | Some i =>
      m ← arr_get mc i;
      mc' ← arr_set mc i (to_uint (m + 1));
      pt2 ← pte_store pt1 pd_index pte_index
              {| valid := true;
                 writable := bool_decide (rw = Z.lor RW_READ RW_WRITE);
                 pfn := to_uint i;
                 private := rw |};
      Ok (pt2, mc', to_uint i)
  | None => Ok (pt1, mc, to_uint (-1))
  end.

Definition alloc_page (new_pd : pte_directory) (s : state) (vpn rw : Z)
    : result (state * Z) :=
  pt ← pagetable_at s (current s);
  '(pt', mc', r) ← alloc_page_in new_pd pt (mapcounts s) vpn rw;
  Ok (store_pagetable s (current s) pt' mc', r).

(** A driver that allocates one page after another: each request carries
    the block [malloc] would return, the page number and the permission. *)
Fixpoint alloc_pages (s : state) (reqs : list (pte_directory * Z * Z))
    : result (state * list Z) :=
  match reqs with
  | [] => Ok (s, [])
  | (new_pd, vpn, rw) :: reqs' =>
      '(s1, r) ← alloc_page new_pd s vpn rw;
      '(s2, rs) ← alloc_pages s1 reqs';
      Ok (s2, r :: rs)
  end.

(** The loop [for(i=0; i<NR_PTES_PER_PAGE && !ptes[i].valid; i++);] of
    [free_page]: the value of [i] when it ends. *)
Fixpoint first_valid (n : nat) (i : Z) (pd : pte_directory) : result Z :=
  match n with
  | O => Ok i
  | S n' =>
      e ← arr_get (ptes pd) i;
      if valid e then Ok i else first_valid n' (i + 1) pd
  end.

(** [free_page] on the page table of [current] and on [mapcounts]. *)
Definition free_page_in (pt : pagetable) (mc : list Z) (vpn : Z)
    : result (pagetable * list Z) :=
  let pd_index := vpn / NR_PTES_PER_PAGE in
  let pte_index := vpn mod NR_PTES_PER_PAGE in
  e ← pte_at pt pd_index pte_index;
  let pfn := pfn e in
  m ← arr_get mc pfn;
  let process_cnt := to_int m in
  if decide (process_cnt = 0) then Ok (pt, mc)
  else
    mc' ← arr_set mc pfn (to_uint (m - 1));
    pt1 ← pte_store pt pd_index pte_index
            {| valid := false; writable := false; pfn := 0; private := 0 |};
    slot ← arr_get (outer_ptes pt1) pd_index;
    pd ← deref slot;
    i ← first_valid (Z.to_nat NR_PTES_PER_PAGE) 0 pd;
    if decide (i = NR_PTES_PER_PAGE) then
      o ← arr_set (outer_ptes pt1) pd_index None; Ok (PT o, mc')
    else Ok (pt1, mc').

Definition free_page (s : state) (vpn : Z) : result state :=
  pt ← pagetable_at s (current s);
  '(pt', mc') ← free_page_in pt (mapcounts s) vpn;
  Ok (store_pagetable s (current s) pt' mc').

(** [handle_page_fault] on the page table [ptbr] points to and on
    [mapcounts].  The argument [rw] is not read by the code. *)
Definition handle_page_fault_in (pt : pagetable) (mc : list Z) (vpn rw : Z)
    : result (pagetable * list Z * bool) :=
  let pd_index := to_int (vpn / NR_PTES_PER_PAGE) in
  let pte_index := to_int (vpn mod NR_PTES_PER_PAGE) in
  pd ← arr_get (outer_ptes pt) pd_index;
  match pd with
  | None => Ok (pt, mc, false)
  | Some d =>
      e ← arr_get (ptes d) pte_index;
      if negb (valid e) then Ok (pt, mc, false)
      else if decide (private e = RW_READ) then Ok (pt, mc, false)
      else
        let pfn := to_int (pfn e) in
        m ← arr_get mc pfn;
        let number_of_process := to_int m in
        if decide (number_of_process = 1) then
          pt' ← pte_store pt pd_index pte_index (set_writable true e);
          Ok (pt', mc, true)
        else if decide (number_of_process > 1) then
          found ← find_free_frame (Z.to_nat NR_PAGEFRAMES) 0 mc;
          match found with
          | Some i =>
              m0 ← arr_get mc i;
              mc' ← arr_set mc i (to_uint (m0 + 1));
              pt' ← pte_store pt pd_index pte_index
                      (set_pfn (to_uint i) (set_writable true e));
              Ok (pt', mc', true)
          | None => Ok (pt, mc, false)
          end
        else Ok (pt, mc, false)
  end.

Definition handle_page_fault (s : state) (vpn rw : Z) : result (state * bool) :=
  match ptbr s with
  | None => Ok (s, false)
  | Some a =>
      pt ← pagetable_at s a;
      '(pt', mc', r) ← handle_page_fault_in pt (mapcounts s) vpn rw;
      Ok (store_pagetable s a pt' mc', r)
  end.

(** *** The ready queue *)

(** The ready queue is a circular doubly linked list, threaded through the
    [list] field of the processes from the head [processes].  list_head.h,
    which declares its operations, is not among the sources: the spec keeps
    of them the insertion at the tail and the traversal in order, and they
    are modelled below as the pointer operations of the Linux list. *)

(** [*r] and [*r = l] for a pointer to a [struct list_head]. *)
Definition get_list (s : state) (r : list_ref) : result list_head :=
  match r with
  | Head => Ok (processes s)
  | Node a => p ← deref (heap s !! a); Ok (p_list p)
  end.

Definition put_list (s : state) (r : list_ref) (l : list_head) : state :=
  match r with
  | Head =>
      {| heap := heap s; processes := l; current := current s;
         ptbr := ptbr s; mapcounts := mapcounts s |}
  | Node a =>
      {| heap := alter (set_list l) a (heap s); processes := processes s;
         current := current s; ptbr := ptbr s; mapcounts := mapcounts s |}
  end.

(** [r->next = v] and [r->prev = v]. *)
Definition set_next (s : state) (r v : list_ref) : result state :=
  l ← get_list s r; Ok (put_list s r {| next := v; prev := prev l |}).
Definition set_prev (s : state) (r v : list_ref) : result state :=
  l ← get_list s r; Ok (put_list s r {| next := next l; prev := v |}).

(** Modelled from the spec: [INIT_LIST_HEAD] of list_head.h, which is not
    among the sources: a node linked to itself. *)
Definition INIT_LIST_HEAD (s : state) (r : list_ref) : result state :=
  s1 ← set_next s r r; set_prev s1 r r.

(** Modelled from the spec: [__list_add] of list_head.h, which is not among
    the sources: [new] is linked between the neighbours [prv] and [nxt]. *)
Definition __list_add (s : state) (new prv nxt : list_ref) : result state :=
  s1 ← set_prev s nxt new;
  s2 ← set_next s1 new nxt;
  s3 ← set_prev s2 new prv;
  set_next s3 prv new.

(** Modelled from the spec: [list_add_tail] of list_head.h, which is not
    among the sources: the insertion at the tail, that is between the last
    node [head->prev] and the head. *)
Definition list_add_tail (s : state) (new head : list_ref) : result state :=
  h ← get_list s head; __list_add s new (prev h) head.

(** Modelled from the spec: the traversal [list_for_each_entry] of
    list_head.h, which is not among the sources, with the test of the loop
    body of [switch_process],
    [list_for_each_entry(p, &processes, list) if (p->pid == pid) ...]: the
    address of the first process with [pid] on the way from [pos] to the
    head along [next].  A way that passes more nodes than there are
    processes passes one of them twice and never reaches the head: with
    [fuel] the number of processes, running out of it is a traversal that
    does not end. *)
Fixpoint find_process (fuel : nat) (s : state) (pos : list_ref) (id : Z)
    : result (option nat) :=
  match pos with
  | Head => Ok None
  | Node a =>
      match fuel with
      | O => Stuck Hang
      | S fuel' =>
          p ← deref (heap s !! a);
          if decide (pid p = id) then Ok (Some a)
          else find_process fuel' s (next (p_list p)) id
      end
  end.

(** *** Fork *)

(** A counted loop [for(i=0; i<n; i++) body]. *)
Fixpoint for_loop {St : Type} (n : nat) (i : Z) (body : Z → St → result St)
    (st : St) : result St :=
  match n with
  | O => Ok st
  | S n' => st' ← body i st; for_loop n' (i + 1) body st'
  end.

(** The body of the inner loop of the fork, on the parent's inner table,
    the child's and [mapcounts]. *)
Definition fork_pte (j : Z) (st : pte_directory * pte_directory * list Z)
    : result (pte_directory * pte_directory * list Z) :=
  let '(old_pd, newpd, mc) := st in
  old_pte ← arr_get (ptes old_pd) j;
  if valid old_pte then
    _ ← arr_get (ptes newpd) j;
    old_es ← arr_set (ptes old_pd) j (set_writable false old_pte);
    m ← arr_get mc (pfn old_pte);
    mc' ← arr_set mc (pfn old_pte) (to_uint (m + 1));
    new_es ← arr_set (ptes newpd) j
               {| valid := true; writable := false;
                  pfn := pfn old_pte; private := private old_pte |};
    Ok (PD old_es, PD new_es, mc')
  else Ok st.

(** The body of the outer loop, on the parent's page table, the child's and
    [mapcounts].  [new_pds i] is the block that [malloc] returns for the
    child's inner table [i]; the code does not initialise it. *)
Definition fork_pd (new_pds : Z → pte_directory) (i : Z)
    (st : pagetable * pagetable * list Z)
    : result (pagetable * pagetable * list Z) :=
  let '(old_pt, newpt, mc) := st in
  old_pd ← arr_get (outer_ptes old_pt) i;
  match old_pd with
  | Some d =>
      _ ← arr_get (outer_ptes newpt) i;
      '(d', newpd, mc') ←
        for_loop (Z.to_nat NR_PTES_PER_PAGE) 0 fork_pte (d, new_pds i, mc);
      old_o ← arr_set (outer_ptes old_pt) i (Some d');
      new_o ← arr_set (outer_ptes newpt) i (Some newpd);
      Ok (PT old_o, PT new_o, mc')
  | None => Ok st
  end.

(** [switch_process].  [new_p] is the block that [malloc] returns for the
    new process and [new_pds] the blocks for its inner tables. *)
Definition switch_process (new_p : process) (new_pds : Z → pte_directory)
    (s : state) (id : Z) : result state :=
  found ← find_process (length (heap s)) s (next (processes s)) id;
  match found with
  | Some a =>
      p ← deref (heap s !! a);
      Ok {| heap := heap s;
            processes := {| next := next (p_list p); prev := prev (p_list p) |};
            current := a;
            ptbr := Some a;
            mapcounts := mapcounts s |}
  | None =>
      let p := length (heap s) in
      old_pt ← pagetable_at s (current s);
      '(old_pt', newpt, mc') ←
        for_loop (Z.to_nat NR_PTES_PER_PAGE) 0 (fork_pd new_pds)
          (old_pt, p_pagetable new_p, mapcounts s);
      let s1 :=
        {| heap := alter (set_pagetable old_pt') (current s) (heap s)
                   ++ [ {| pid := id; p_pagetable := newpt;
                           p_list := p_list new_p |} ];
           processes := processes s;
           current := p;
           ptbr := Some p;
           mapcounts := mc' |} in
      s2 ← INIT_LIST_HEAD s1 (Node p);
      list_add_tail s2 (Node p) Head
  end.

(** *** What the fork leaves behind *)

(** [mapcounts[f]++] on the value of a count. *)
Definition incr (m : Z) : Z := to_uint (m + 1).

(** The parent's entry after the fork: a valid entry is write-protected. *)
Definition cow_pte (e : pte) : pte :=
  if valid e then set_writable false e else e.

(** The child's entry after the fork: the copy of a valid entry of the
    parent, write-protected; otherwise what [malloc] left there. *)
Definition child_pte (e fresh : pte) : pte :=
  if valid e then
    {| valid := true; writable := false; pfn := pfn e; private := private e |}
  else fresh.

(** The reference counts after the entry [e] was shared. *)
Definition bump (mc : list Z) (e : pte) : list Z :=
  if valid e then alter incr (Z.to_nat (pfn e)) mc else mc.

Definition bump_slot (mc : list Z) (slot : option pte_directory) : list Z :=
  match slot with
  | Some d => foldl bump mc (ptes d)
  | None => mc
  end.

Definition cow_slot (slot : option pte_directory) : option pte_directory :=
  (λ d, PD (cow_pte <$> ptes d)) <$> slot.

(** The child's slot [k] after the fork: an inner table of its own when
    the parent has one, whose block is [new_pds k]; otherwise what [malloc]
    left in the slot. *)
Definition child_slot (new_pds : Z → pte_directory) (k : nat)
    (slot fresh : option pte_directory) : option pte_directory :=
  match slot with
  | Some d =>
      Some (PD (zip_with child_pte (ptes d) (ptes (new_pds (Z.of_nat k)))))
  | None => fresh
  end.

(** The number of valid entries that map frame [f]: in an inner table, in a
    page table, and in all the processes. *)
Definition refs_pd (f : Z) (pd : pte_directory) : nat :=
  length (filter (λ e, valid e = true ∧ pfn e = f) (ptes pd)).

Definition refs_slot (f : Z) (slot : option pte_directory) : nat :=
  match slot with
  | Some pd => refs_pd f pd
  | None => 0
  end.

Definition refs_pt (f : Z) (pt : pagetable) : nat :=
  sum_list_with (refs_slot f) (outer_ptes pt).

Definition refs (s : state) (f : Z) : nat :=
  sum_list_with (λ p, refs_pt f (p_pagetable p)) (heap s).

(** Reference-count consistency: the count of every frame is the number of
    valid entries, over all processes, whose frame field is that frame. *)
Definition refcount_consistent (s : state) : Prop :=
  ∀ f, 0 <= f < NR_PAGEFRAMES →
    mapcounts s !! Z.to_nat f = Some (Z.of_nat (refs s f)).

(** Every valid entry of the page table holds a frame of the pool. *)
Definition pfns_ok (pt : pagetable) (mc : list Z) : Prop :=
  ∀ i d j e, outer_ptes pt !! i = Some (Some d) → ptes d !! j = Some e →
    valid e = true → 0 <= pfn e < Z.of_nat (length mc).

(** The nodes [l], in this order, are linked between [from] and the head
    of the ready queue. *)
Fixpoint is_queue (s : state) (from : list_ref) (l : list nat) : Prop :=
  match l with
  | [] =>
      (next <$> get_list s from) = Ok Head ∧ prev (processes s) = from
  | a :: l' =>
      (next <$> get_list s from) = Ok (Node a) ∧
      (prev <$> get_list s (Node a)) = Ok from ∧
      is_queue s (Node a) l'
  end.

(** ** The driver *)

(** Blocks as [malloc] returns them when the memory it hands out is
    zero-filled. *)
Definition zero_pte : pte :=
  {| valid := false; writable := false; pfn := 0; private := 0 |}.
Definition zero_pd : pte_directory :=
  PD (replicate (Z.to_nat NR_PTES_PER_PAGE) zero_pte).
Definition zero_pt : pagetable :=
  PT (replicate (Z.to_nat NR_PTES_PER_PAGE) None).
Definition zero_process : process :=
  {| pid := 0; p_pagetable := zero_pt;
     p_list := {| next := Head; prev := Head |} |}.

(** Modelled from the spec: the state in which the driver starts is set up
    outside pa2.c.  It holds one process, of pid 0, with an empty page table;
    [current] is that process and [ptbr] points to its page table; the ready
    queue is empty and every frame of the pool is free. *)
Definition boot : state :=
  {| heap := [ {| pid := 0; p_pagetable := zero_pt;
                  p_list := {| next := Node 0; prev := Node 0 |} |} ];
     processes := {| next := Head; prev := Head |};
     current := 0%nat;
     ptbr := Some 0%nat;
     mapcounts := replicate (Z.to_nat NR_PAGEFRAMES) 0 |}.

(** The calls of the driver, and a run of them from a state, in the case
    that every block [malloc] returns is zero-filled.  The code does not
    initialise the blocks (lines 72, 268 and 283): [run] is the instance of
    [execs] below, which takes the blocks as they come, at zero-filled
    blocks.  The scenarios are runs of this kind. *)
Inductive call : Type :=
  | Alloc (vpn rw : Z)
  | Free (vpn : Z)
  | Fault (vpn rw : Z)
  | Switch (id : Z).

Definition run_call (s : state) (c : call) : result state :=
  match c with
  | Alloc vpn rw => fst <$> alloc_page zero_pd s vpn rw
  | Free vpn => free_page s vpn
  | Fault vpn rw => fst <$> handle_page_fault s vpn rw
  | Switch id => switch_process zero_process (λ _, zero_pd) s id
  end.

Fixpoint run (s : state) (cs : list call) : result state :=
  match cs with
  | [] => Ok s
  | c :: cs' => s' ← run_call s c; run s' cs'
  end.

(** The state a run ends in ([boot] if it does not end). *)
Definition state_after (cs : list call) : state :=
  match run boot cs with
  | Ok s => s
  | Stuck _ => boot
  end.

(** The calls together with the blocks that [malloc] returns during them,
    whatever they hold: [alloc_page] takes one for an inner table when the
    page has none, the fork takes one for the process and one for each
    inner table of the child. *)
Inductive op : Type :=
  | OpAlloc (new_pd : pte_directory) (vpn rw : Z)
  | OpFree (vpn : Z)
  | OpFault (vpn rw : Z)
  | OpSwitch (new_p : process) (new_pds : Z → pte_directory) (id : Z).

Definition exec (s : state) (o : op) : result state :=
  match o with
  | OpAlloc new_pd vpn rw => fst <$> alloc_page new_pd s vpn rw
  | OpFree vpn => free_page s vpn
  | OpFault vpn rw => fst <$> handle_page_fault s vpn rw
  | OpSwitch new_p new_pds id => switch_process new_p new_pds s id
  end.

Fixpoint execs (s : state) (os : list op) : result state :=
  match os with
  | [] => Ok s
  | o :: os' => s' ← exec s o; execs s' os'
  end.

(** A call of the driver as a call with its blocks. *)
Definition zero_blocks (c : call) : op :=
  match c with
  | Alloc vpn rw => OpAlloc zero_pd vpn rw
  | Free vpn => OpFree vpn
  | Fault vpn rw => OpFault vpn rw
  | Switch id => OpSwitch zero_process (λ _, zero_pd) id
  end.

(** The entry of [vpn] in the page table of the process at address [a]. *)
Definition pte_of (s : state) (a : nat) (vpn : Z) : result pte :=
  pt ← pagetable_at s a;
  pte_at pt (vpn / NR_PTES_PER_PAGE) (vpn mod NR_PTES_PER_PAGE).

(** ** Well-formedness *)

(** What the declarations of vm.h must satisfy for the loops and the index
    arithmetic of the code to be meaningful: the sizes are positive [int]
    constants, and [RW_READ] and [RW_WRITE] are distinct bits. *)
Record vm_h_ok `{vm_h} : Prop := {
  nr_ptes_range : 0 < NR_PTES_PER_PAGE <= INT_MAX;
  nr_pageframes_range : 0 < NR_PAGEFRAMES <= INT_MAX;
  rw_read_nonzero : RW_READ ≠ 0;
  rw_disjoint : Z.land RW_READ RW_WRITE = 0;
}.

(** A virtual page number that the two-level table covers. *)
Definition vpn_ok (vpn : Z) : Prop :=
  0 <= vpn < NR_PTES_PER_PAGE * NR_PTES_PER_PAGE.

(** The arrays of a page table have their declared sizes. *)
Definition wf_pte_directory (pd : pte_directory) : Prop :=
  length (ptes pd) = Z.to_nat NR_PTES_PER_PAGE.
Definition wf_pagetable (pt : pagetable) : Prop :=
  length (outer_ptes pt) = Z.to_nat NR_PTES_PER_PAGE ∧
  ∀ i pd, outer_ptes pt !! i = Some (Some pd) → wf_pte_directory pd.

(** *** Well-formed states *)

(** A page table whose arrays have their declared sizes and whose valid
    entries hold frames of the pool. *)
Definition pt_ok (pt : pagetable) (mc : list Z) : Prop :=
  wf_pagetable pt ∧ pfns_ok pt mc.

(** A block for an inner table that has the declared size and no valid
    entry outside the pool (a zero-filled block, for one). *)
Definition block_ok (pd : pte_directory) (mc : list Z) : Prop :=
  wf_pte_directory pd ∧
  ∀ j e, ptes pd !! j = Some e → valid e = true →
    0 <= pfn e < Z.of_nat (length mc).

(** Every link of the ready queue points to the head or to a process. *)
Definition links_ok (s : state) : Prop :=
  ∀ r l, get_list s r = Ok l →
    (∃ x, get_list s (next l) = Ok x) ∧ (∃ x, get_list s (prev l) = Ok x).

(** A well-formed state: the pool has its declared size, [current] and
    [ptbr] point to processes, every page table is well formed and the links
    of the queue are not dangling. *)
Definition wf_state (s : state) : Prop :=
  length (mapcounts s) = Z.to_nat NR_PAGEFRAMES ∧
  is_Some (heap s !! current s) ∧
  (∀ a, ptbr s = Some a → is_Some (heap s !! a)) ∧
  (∀ a p, heap s !! a = Some p → pt_ok (p_pagetable p) (mapcounts s)) ∧
  links_ok s.

(** *** The traversal of the ready queue ends *)

(** A link that stays among the nodes [Q] or leads to the head. *)
Definition in_queue (Q : nat → Prop) (r : list_ref) : Prop :=
  match r with
  | Head => True
  | Node a => Q a
  end.

(** The nodes [Q] that the head links to are ranked: [next] leads from a
    node to the head or to a node of lower rank, and there are more
    processes than the rank of any node.  A traversal along [next] then
    reaches the head before it has passed as many nodes as there are
    processes. *)
Definition queue_ranked (s : state) : Prop :=
  ∃ (Q : nat → Prop) (rank : nat → nat),
    in_queue Q (next (processes s)) ∧ in_queue Q (prev (processes s)) ∧
    ∀ a, Q a → ∃ l, get_list s (Node a) = Ok l ∧
      (rank a < length (heap s))%nat ∧
      match next l with
      | Head => True
      | Node b => Q b ∧ (rank b < rank a)%nat
      end ∧
      in_queue Q (prev l).

(** The same without the [prev] links: the nodes [Q], ranked by [rank],
    hold every node on the way from the head along [next]. *)
Definition ranked_by (Q : nat → Prop) (rank : nat → nat) (s : state) : Prop :=
  in_queue Q (next (processes s)) ∧
  ∀ a, Q a → ∃ l, get_list s (Node a) = Ok l ∧
    (rank a < length (heap s))%nat ∧
    match next l with
    | Head => True
    | Node b => Q b ∧ (rank b < rank a)%nat
    end.

(** *** What is assumed of the blocks of a call *)

(** The blocks that [malloc] returns during a call have the declared sizes
    and hold no valid entry with a frame outside the pool (the size of the
    pool is that of [mapcounts] in the start state).  Zero-filled blocks are
    of this kind, and so is any block that holds no valid entry. *)
Definition blocks_ok (o : op) : Prop :=
  match o with
  | OpAlloc new_pd _ _ => block_ok new_pd (mapcounts boot)
  | OpSwitch new_p new_pds _ =>
      pt_ok (p_pagetable new_p) (mapcounts boot) ∧
      ∀ i, block_ok (new_pds i) (mapcounts boot)
  | OpFree _ | OpFault _ _ => True
  end.

(** *** Executable checks *)

Definition wf_pagetableb (pt : pagetable) : bool :=
  bool_decide (length (outer_ptes pt) = Z.to_nat NR_PTES_PER_PAGE)
  && forallb (λ slot : option pte_directory,
                match slot with
                | Some pd =>
                    bool_decide (length (ptes pd) = Z.to_nat NR_PTES_PER_PAGE)
                | None => true
                end) (outer_ptes pt).

Definition pfns_okb (pt : pagetable) (mc : list Z) : bool :=
  forallb (λ slot : option pte_directory,
             match slot with
             | Some d =>
                 forallb (λ e, negb (valid e)
                               || bool_decide (0 <= pfn e < Z.of_nat (length mc)))
                   (ptes d)
             | None => true
             end) (outer_ptes pt).

Definition refcount_consistentb (s : state) : bool :=
  forallb (λ k, bool_decide
                  (mapcounts s !! k = Some (Z.of_nat (refs s (Z.of_nat k)))))
    (seq 0 (Z.to_nat NR_PAGEFRAMES)).

End Pa2.

(** ** An instance *)

(** An instance of the constants of vm.h, with which the scenarios are run:
    128 frames, 16 entries in a table, [RW_READ] = 1 and [RW_WRITE] = 2. *)
Definition pa2_vm_h : vm_h :=
  {| NR_PAGEFRAMES := 128; NR_PTES_PER_PAGE := 16;
     RW_READ := 1; RW_WRITE := 2 |}.

Section Scenarios.
#[local] Existing Instance pa2_vm_h.

(** A page allocated read-only by the first process. *)
Definition s_read_only : state :=
  Eval vm_compute in state_after [Alloc 0 1].

(** A page allocated read-write by the first process. *)
Definition s_read_write : state :=
  Eval vm_compute in state_after [Alloc 0 3].

(** A page allocated write-only by the first process, and the state after
    its write fault on the page. *)
Definition s_write_only : state :=
  Eval vm_compute in state_after [Alloc 0 2].
Definition s_write_only_faulted : state :=
  Eval vm_compute in state_after [Alloc 0 2; Fault 0 2].

(** Process 1 allocates page 0 read-write and forks process 2; then
    process 1 runs again.  Process 1 is at address 1 and process 2 at
    address 2. *)
Definition s_forked : state :=
  Eval vm_compute in state_after [Switch 1; Alloc 0 3; Switch 2; Switch 1].

(** Then process 1 takes a write fault on page 0, process 2 runs, and
    process 2 takes a write fault on page 0. *)
Definition s_forked_a : state :=
  Eval vm_compute in
    state_after [Switch 1; Alloc 0 3; Switch 2; Switch 1; Fault 0 2].
Definition s_forked_b : state :=
  Eval vm_compute in
    state_after [Switch 1; Alloc 0 3; Switch 2; Switch 1; Fault 0 2; Switch 2].
Definition s_forked_ab : state :=
  Eval vm_compute in
    state_after [Switch 1; Alloc 0 3; Switch 2; Switch 1; Fault 0 2; Switch 2;
                 Fault 0 2].

(** Every frame in use, and page 0 shared by process 1 and process 2. *)
Definition s_full : state :=
  Eval vm_compute in
    {| heap := heap s_forked; processes := processes s_forked;
       current := current s_forked; ptbr := ptbr s_forked;
       mapcounts := 2 :: replicate 127 1 |}.

(** Pages 0 and 1 allocated, and page 1 freed. *)
Definition s_freed : state :=
  Eval vm_compute in state_after [Alloc 0 3; Alloc 1 3; Free 1].

(** Pages 0 and 1 allocated, and page 0 freed. *)
Definition s_freed0 : state :=
  Eval vm_compute in state_after [Alloc 0 3; Alloc 1 3; Free 0].

(** Processes 1 and 2 are forked, process 2 is switched to while it is on
    the queue, and process 3 is forked. *)
Definition s_rewired : state :=
  Eval vm_compute in state_after [Switch 1; Switch 2; Switch 2; Switch 3].

(** The first process allocated page 0 read-write and forked process 1. *)
Definition s_child : state :=
  Eval vm_compute in state_after [Alloc 0 3; Switch 1].

(** Process 1 allocates page 0 read-write and forks process 2, process 2
    frees the page, and process 1 runs again: its entry is write-protected
    and it is the only one on the frame. *)
Definition s_sole : state :=
  Eval vm_compute in state_after [Switch 1; Alloc 0 3; Switch 2; Free 0; Switch 1].

(** Pages 0 and 1 allocated read-write by the first process. *)
Definition s_two_pages : state :=
  Eval vm_compute in state_after [Alloc 0 3; Alloc 1 3].

(** Page 0 allocated twice by the first process. *)
Definition s_remapped : state :=
  Eval vm_compute in state_after [Alloc 0 3; Alloc 0 3].

(** Processes 1 and 2 are forked; then process 2 is switched to while it
    is on the queue. *)
Definition s_two_procs : state :=
  Eval vm_compute in state_after [Switch 1; Switch 2].
Definition s_switched : state :=
  Eval vm_compute in state_after [Switch 1; Switch 2; Switch 2].

(** Processes 1 and 2 are forked and process 1 is switched back to; then
    process 3 is forked. *)
Definition s_back : state :=
  Eval vm_compute in state_after [Switch 1; Switch 2; Switch 1].
Definition s_replaced : state :=
  Eval vm_compute in state_after [Switch 1; Switch 2; Switch 1; Switch 3].


End Scenarios.

Arguments vm_h_ok _ : clear implicits.

(** * Properties *)

Section Facts.
Context `{Hvm : vm_h}.

(** *** The error monad and the arrays *)

Lemma bind_Ok {A B : Type} (a : A) (k : A → result B) : (Ok a ≫= k) = k a.
Proof. reflexivity. Qed.

Lemma bind_Ok_inv {A B : Type} (m : result A) (k : A → result B) (b : B) :
  m ≫= k = Ok b → ∃ a, m = Ok a ∧ k a = Ok b.
Proof. destruct m as [a|f]; [eauto | discriminate]. Qed.

Lemma arr_get_Ok {A : Type} (a : list A) (i : Z) (x : A) :
  arr_get a i = Ok x ↔ 0 <= i ∧ a !! Z.to_nat i = Some x.
Proof.
  unfold arr_get. destruct (decide (0 <= i)) as [Hi|Hi].
  - destruct (a !! Z.to_nat i) eqn:E.
    + split; [intros [= ->]; auto | intros [_ [= ->]]; auto].
    + split; [discriminate | intros [_ ?]; discriminate].
  - split; [discriminate | intros [? _]; contradiction].
Qed.

Lemma arr_get_nat {A : Type} (a : list A) (k : nat) (x : A) :
  a !! k = Some x → arr_get a (Z.of_nat k) = Ok x.
Proof. intros E. apply arr_get_Ok. rewrite Nat2Z.id. split; [lia | done]. Qed.

Lemma arr_get_lt {A : Type} (a : list A) (i : Z) (x : A) :
  arr_get a i = Ok x → 0 <= i < Z.of_nat (length a).
Proof.
  intros [Hi E]%arr_get_Ok. apply lookup_lt_Some in E. lia.
Qed.

Lemma arr_set_Ok {A : Type} (a : list A) (i : Z) (y x : A) :
  arr_get a i = Ok y → arr_set a i x = Ok (<[Z.to_nat i := x]> a).
Proof. intros E. unfold arr_set. rewrite E. reflexivity. Qed.

Lemma arr_set_inv {A : Type} (a a' : list A) (i : Z) (x : A) :
  arr_set a i x = Ok a' →
  a' = <[Z.to_nat i := x]> a ∧ 0 <= i < Z.of_nat (length a).
Proof.
  unfold arr_set. intros (y & Ey & [= <-])%bind_Ok_inv.
  split; [done | by eapply arr_get_lt].
Qed.

Lemma to_uint_small (x : Z) : 0 <= x < UINT_MOD → to_uint x = x.
Proof. intros Hx. unfold to_uint. by apply Z.mod_small. Qed.

Lemma to_int_small (x : Z) : 0 <= x <= INT_MAX → to_int x = x.
Proof.
  intros Hx. unfold to_int.
  assert (to_uint x = x) as ->
    by (apply to_uint_small; unfold UINT_MOD, INT_MAX in *; lia).
  destruct (decide (x <= INT_MAX)); lia.
Qed.

Lemma alter_lookup_id {A : Type} (f : A → A) (l : list A) (i : nat) (x : A) :
  l !! i = Some x → f x = x → alter f i l = l.
Proof.
  revert i. induction l as [|y l IH]; intros [|i] E Hf; simpl in *; try done.
  - injection E as ->. by rewrite Hf.
  - f_equal. by apply IH.
Qed.

Lemma store_pagetable_id (s : state) (a : nat) (p : process) :
  heap s !! a = Some p →
  store_pagetable s a (p_pagetable p) (mapcounts s) = s.
Proof.
  intros E. unfold store_pagetable.
  rewrite (alter_lookup_id _ _ _ _ E); [by destruct s | by destruct p].
Qed.

(** The indices of an entry, for a virtual page number in range. *)
Lemma pd_index_range (vpn : Z) :
  vm_h_ok Hvm → vpn_ok vpn →
  0 <= vpn / NR_PTES_PER_PAGE < NR_PTES_PER_PAGE.
Proof.
  intros [Hn _ _ _] [Hlo Hhi]. split.
  - apply Z.div_pos; lia.
  - apply Z.div_lt_upper_bound; lia.
Qed.

Lemma pte_index_range (vpn : Z) :
  vm_h_ok Hvm →
  0 <= vpn mod NR_PTES_PER_PAGE < NR_PTES_PER_PAGE.
Proof. intros [Hn _ _ _]. apply Z.mod_pos_bound. lia. Qed.

Lemma to_int_pd_index (vpn : Z) :
  vm_h_ok Hvm → vpn_ok vpn →
  to_int (vpn / NR_PTES_PER_PAGE) = vpn / NR_PTES_PER_PAGE.
Proof.
  intros Hok Hv. apply to_int_small.
  pose proof (pd_index_range vpn Hok Hv). destruct Hok as [Hn _ _ _]. lia.
Qed.

Lemma to_int_pte_index (vpn : Z) :
  vm_h_ok Hvm →
  to_int (vpn mod NR_PTES_PER_PAGE) = vpn mod NR_PTES_PER_PAGE.
Proof.
  intros Hok. apply to_int_small.
  pose proof (pte_index_range vpn Hok). destruct Hok as [Hn _ _ _]. lia.
Qed.

Lemma pte_at_inv (pt : pagetable) (i j : Z) (e : pte) :
  pte_at pt i j = Ok e →
  ∃ pd, arr_get (outer_ptes pt) i = Ok (Some pd) ∧ arr_get (ptes pd) j = Ok e.
Proof.
  unfold pte_at. intros (slot & Es & Hk)%bind_Ok_inv.
  destruct slot as [pd|]; [|discriminate]. eauto.
Qed.

(** *** The search for a free frame *)

Lemma find_free_frame_Some (n : nat) (i k : Z) (mc : list Z) :
  find_free_frame n i mc = Ok (Some k) →
  i <= k < i + Z.of_nat n ∧ arr_get mc k = Ok 0 ∧
  ∀ j, i <= j < k → ∃ c, arr_get mc j = Ok c ∧ c ≠ 0.
Proof.
  revert i. induction n as [|n IH]; intros i; simpl; [discriminate|].
  intros (m & Em & Hk)%bind_Ok_inv.
  destruct (decide (m = 0)) as [->|Hm].
  - injection Hk as <-. repeat split; [lia | lia | done | intros j ?; lia].
  - apply IH in Hk as (Hr & E0 & Hlow). repeat split; [lia | lia | done |].
    intros j Hj. destruct (decide (j = i)) as [->|]; [eauto|].
    apply Hlow. lia.
Qed.

Lemma find_free_frame_None (n : nat) (i : Z) (mc : list Z) :
  find_free_frame n i mc = Ok None →
  ∀ j, i <= j < i + Z.of_nat n → ∃ c, arr_get mc j = Ok c ∧ c ≠ 0.
Proof.
  revert i. induction n as [|n IH]; intros i; simpl; [intros _ j ?; lia|].
  intros (m & Em & Hk)%bind_Ok_inv.
  destruct (decide (m = 0)) as [->|Hm]; [discriminate|].
  intros j Hj. destruct (decide (j = i)) as [->|]; [eauto|].
  apply (IH _ Hk). lia.
Qed.

Lemma find_free_frame_first (n : nat) (i k : Z) (mc : list Z) :
  i <= k < i + Z.of_nat n → arr_get mc k = Ok 0 →
  (∀ j, i <= j < k → ∃ c, arr_get mc j = Ok c ∧ c ≠ 0) →
  find_free_frame n i mc = Ok (Some k).
Proof.
  revert i. induction n as [|n IH]; intros i Hk E0 Hlow; simpl; [lia|].
  destruct (decide (k = i)) as [->|Hne].
  - rewrite E0. simpl. by destruct (decide (0 = 0)).
  - destruct (Hlow i) as (c & Ec & Hc); [lia|]. rewrite Ec. simpl.
    destruct (decide (c = 0)); [done|].
    apply IH; [lia | done | intros j ?; apply Hlow; lia].
Qed.

Lemma find_free_frame_full (n : nat) (i : Z) (mc : list Z) :
  (∀ j, i <= j < i + Z.of_nat n → ∃ c, arr_get mc j = Ok c ∧ c ≠ 0) →
  find_free_frame n i mc = Ok None.
Proof.
  revert i. induction n as [|n IH]; intros i Hall; simpl; [done|].
  destruct (Hall i) as (c & Ec & Hc); [lia|]. rewrite Ec. simpl.
  destruct (decide (c = 0)); [done|].
  apply IH. intros j ?. apply Hall. lia.
Qed.

(** A count that is not 0 at an index of the pool. *)
Lemma mapcounts_nonzero (mc : list Z) (j : Z) :
  length mc = Z.to_nat NR_PAGEFRAMES → 0 <= j < NR_PAGEFRAMES →
  mc !! Z.to_nat j ≠ Some 0 → ∃ c, arr_get mc j = Ok c ∧ c ≠ 0.
Proof.
  intros Hlen Hj Hne.
  destruct (lookup_lt_is_Some_2 mc (Z.to_nat j)) as [c Ec]; [lia|].
  exists c. split; [apply arr_get_Ok; split; [lia | done]|].
  intros ->. contradiction.
Qed.

(** *** Reading and writing an entry *)

Lemma pte_store_Ok (pt : pagetable) (i j : Z) (pd : pte_directory) (e0 e : pte) :
  arr_get (outer_ptes pt) i = Ok (Some pd) → arr_get (ptes pd) j = Ok e0 →
  pte_store pt i j e =
    Ok (PT (<[Z.to_nat i := Some (PD (<[Z.to_nat j := e]> (ptes pd)))]>
              (outer_ptes pt))).
Proof.
  intros Hpd He0. unfold pte_store. rewrite Hpd. simpl.
  rewrite (arr_set_Ok _ _ _ _ He0). simpl.
  by rewrite (arr_set_Ok _ _ _ _ Hpd).
Qed.

Lemma pte_store_inv (pt pt' : pagetable) (i j : Z) (e : pte) :
  pte_store pt i j e = Ok pt' →
  ∃ pd e0, arr_get (outer_ptes pt) i = Ok (Some pd) ∧
    arr_get (ptes pd) j = Ok e0 ∧
    pt' = PT (<[Z.to_nat i := Some (PD (<[Z.to_nat j := e]> (ptes pd)))]>
                (outer_ptes pt)).
Proof.
  intros Hst. pose proof Hst as Hst'. unfold pte_store in Hst'.
  apply bind_Ok_inv in Hst' as (slot & Hslot & Hst').
  destruct slot as [pd|]; [|discriminate]. simpl in Hst'.
  apply bind_Ok_inv in Hst' as (es & Hes & _).
  unfold arr_set in Hes. apply bind_Ok_inv in Hes as (e0 & He0 & _).
  exists pd, e0. repeat split; try done.
  rewrite (pte_store_Ok _ _ _ _ _ _ Hslot He0) in Hst. by injection Hst.
Qed.

(** The entry that was written is read back. *)
Lemma pte_at_pte_store (pt pt' : pagetable) (i j : Z) (e : pte) :
  pte_store pt i j e = Ok pt' → pte_at pt' i j = Ok e.
Proof.
  intros (pd & e0 & Hpd & He0 & ->)%pte_store_inv.
  apply arr_get_Ok in Hpd as [Hi Hpd]. apply arr_get_Ok in He0 as [Hj He0].
  unfold pte_at. simpl.
  assert (arr_get (<[Z.to_nat i:=Some (PD (<[Z.to_nat j:=e]> (ptes pd)))]>
            (outer_ptes pt)) i = Ok (Some (PD (<[Z.to_nat j:=e]> (ptes pd)))))
    as ->.
  { apply arr_get_Ok. split; [done|].
    apply list_lookup_insert_eq. by eapply lookup_lt_Some. }
  simpl. apply arr_get_Ok. split; [done|].
  apply list_lookup_insert_eq. by eapply lookup_lt_Some.
Qed.

(** Every other entry is as before. *)
Lemma pte_at_pte_store_ne (pt pt' : pagetable) (i j i' j' : Z) (e : pte) :
  pte_store pt i j e = Ok pt' → 0 <= i' → 0 <= j' → (i', j') ≠ (i, j) →
  pte_at pt' i' j' = pte_at pt i' j'.
Proof.
  intros (pd & e0 & Hpd & He0 & ->)%pte_store_inv Hi' Hj' Hne.
  apply arr_get_Ok in Hpd as [Hi Hpd]. apply arr_get_Ok in He0 as [Hj He0].
  unfold pte_at, arr_get. simpl.
  destruct (decide (0 <= i')); [|done].
  destruct (decide (i' = i)) as [->|Hii].
  - rewrite list_lookup_insert_eq by (by eapply lookup_lt_Some).
    rewrite Hpd. simpl.
    destruct (decide (0 <= j')); [|done].
    rewrite list_lookup_insert_ne; [done|].
    intros Heq. apply Hne. f_equal. lia.
  - rewrite list_lookup_insert_ne; [done | lia].
Qed.

(** *** [alloc_page] *)

Lemma alloc_page_in_inv (new_pd : pte_directory) (pt pt' : pagetable)
    (mc mc' : list Z) (vpn rw r : Z) :
  alloc_page_in new_pd pt mc vpn rw = Ok (pt', mc', r) →
  (∃ i, find_free_frame (Z.to_nat NR_PAGEFRAMES) 0 mc = Ok (Some i) ∧
        r = to_uint i ∧ mc' = <[Z.to_nat i := 1]> mc ∧
        pte_at pt' (vpn / NR_PTES_PER_PAGE) (vpn mod NR_PTES_PER_PAGE)
          = Ok {| valid := true;
                  writable := bool_decide (rw = Z.lor RW_READ RW_WRITE);
                  pfn := to_uint i;
                  private := rw |})
  ∨ (find_free_frame (Z.to_nat NR_PAGEFRAMES) 0 mc = Ok None ∧
     r = to_uint (-1) ∧ mc' = mc).
Proof.
  unfold alloc_page_in.
  intros (slot & Hslot & Hrun)%bind_Ok_inv.
  apply bind_Ok_inv in Hrun as (pt1 & Hpt1 & Hrun).
  apply bind_Ok_inv in Hrun as (found & Hfound & Hrun).
  destruct found as [i|]; [left; exists i | right].
  - pose proof (find_free_frame_Some _ _ _ _ Hfound) as (_ & Hi0 & _).
    rewrite Hi0 in Hrun. simpl in Hrun.
    rewrite (arr_set_Ok _ _ _ _ Hi0) in Hrun. simpl in Hrun.
    apply bind_Ok_inv in Hrun as (pt2 & Hpt2 & [= <- <- <-]).
    repeat split; try done. by eapply pte_at_pte_store.
  - by injection Hrun as <- <- <-.
Qed.

(** What [alloc_page] stores on success, as the code runs: it counts the
    selected frame [r] once (from 0 to 1) and sets the entry of [vpn] to
    valid, frame [r], original-permission tag [rw]; the writable bit is the
    outcome of the test [rw == (RW_READ|RW_WRITE)] of line 86. *)
Theorem alloc_page_populates_pte
    (new_pd : pte_directory) (s s' : state) (vpn rw r : Z) :
  vm_h_ok Hvm →
  alloc_page new_pd s vpn rw = Ok (s', r) → r ≠ to_uint (-1) →
  arr_get (mapcounts s) r = Ok 0 ∧
  mapcounts s' = <[Z.to_nat r := 1]> (mapcounts s) ∧
  (pt' ← pagetable_at s' (current s');
   pte_at pt' (vpn / NR_PTES_PER_PAGE) (vpn mod NR_PTES_PER_PAGE))
    = Ok {| valid := true;
            writable := bool_decide (rw = Z.lor RW_READ RW_WRITE);
            pfn := r;
            private := rw |}.
Proof.
  intros [_ Hf _ _] Hrun Hr. unfold alloc_page in Hrun.
  apply bind_Ok_inv in Hrun as (pt & Hpt & Hrun).
  apply bind_Ok_inv in Hrun as ([[pt' mc'] r'] & Hin & [= <- <-]).
  apply alloc_page_in_inv in Hin as [(i & Hfound & -> & -> & Hpte)|(_ & -> & _)];
    [|done].
  apply find_free_frame_Some in Hfound as (Hi & Hi0 & _).
  assert (to_uint i = i) as Hui
    by (apply to_uint_small; unfold UINT_MOD, INT_MAX in *; lia).
  rewrite Hui in *. repeat split; try done.
  unfold pagetable_at in *. simpl.
  apply bind_Ok_inv in Hpt as (p & Hp & [= <-]).
  rewrite list_lookup_alter_eq.
  destruct (heap s !! current s) as [p0|]; [|done]. by simpl.
Qed.

Lemma wf_pagetable_insert (pt : pagetable) (i : nat) (pd : pte_directory) :
  wf_pagetable pt → wf_pte_directory pd →
  wf_pagetable (PT (<[i := Some pd]> (outer_ptes pt))).
Proof.
  intros [Hlen Hin] Hpd. split; simpl.
  - by rewrite length_insert.
  - intros k pd' Hk. destruct (decide (k = i)) as [->|Hne].
    + destruct (decide (i < length (outer_ptes pt))%nat).
      * rewrite list_lookup_insert_eq in Hk by done. by injection Hk as <-.
      * rewrite list_insert_ge in Hk by lia. eauto.
    + rewrite list_lookup_insert_ne in Hk by done. eauto.
Qed.

Lemma wf_pte_directory_insert (pd : pte_directory) (j : nat) (e : pte) :
  wf_pte_directory pd → wf_pte_directory (PD (<[j := e]> (ptes pd))).
Proof. unfold wf_pte_directory. simpl. by rewrite length_insert. Qed.

(** [alloc_page] runs to its end on a well-formed page table, with the
    outcome that the search for a free frame decides. *)
Lemma alloc_page_in_run (new_pd : pte_directory) (pt : pagetable)
    (mc : list Z) (vpn rw : Z) (found : option Z) :
  vm_h_ok Hvm → vpn_ok vpn → wf_pagetable pt → wf_pte_directory new_pd →
  find_free_frame (Z.to_nat NR_PAGEFRAMES) 0 mc = Ok found →
  ∃ pt', wf_pagetable pt' ∧
    alloc_page_in new_pd pt mc vpn rw =
      Ok (pt',
          match found with Some i => <[Z.to_nat i := 1]> mc | None => mc end,
          match found with Some i => i | None => UINT_MOD - 1 end).
Proof.
  intros Hok Hvpn Hwf Hnew Hfound.
  pose proof (pd_index_range vpn Hok Hvpn) as Hi.
  pose proof (pte_index_range vpn Hok) as Hj.
  destruct Hok as [Hn Hf _ _].
  unfold alloc_page_in.
  set (i := vpn / NR_PTES_PER_PAGE) in *.
  set (j := vpn mod NR_PTES_PER_PAGE) in *.
  destruct (lookup_lt_is_Some_2 (outer_ptes pt) (Z.to_nat i)) as [slot Hslot];
    [destruct Hwf as [-> _]; lia|].
  assert (arr_get (outer_ptes pt) i = Ok slot) as Hget
    by (apply arr_get_Ok; split; [lia | done]).
  rewrite Hget. simpl.
  (* the page table once the inner table exists *)
  assert (∃ pt1 pd1,
    match slot with
    | Some _ => Ok pt
    | None => o ← arr_set (outer_ptes pt) i (Some new_pd); Ok (PT o)
    end = Ok pt1 ∧ wf_pagetable pt1 ∧
    arr_get (outer_ptes pt1) i = Ok (Some pd1) ∧ wf_pte_directory pd1)
    as (pt1 & pd1 & -> & Hwf1 & Hpd1 & Hwfpd1).
  { destruct slot as [pd|].
    - exists pt, pd. repeat split; try done; try apply Hwf.
      destruct Hwf as [_ Hin]. eauto.
    - exists (PT (<[Z.to_nat i := Some new_pd]> (outer_ptes pt))), new_pd.
      rewrite (arr_set_Ok _ _ _ _ Hget). simpl.
      split; [done|]. split; [by apply wf_pagetable_insert|]. split; [|done].
      apply arr_get_Ok. split; [lia|]. simpl.
      apply list_lookup_insert_eq. by eapply lookup_lt_Some. }
  simpl. rewrite Hfound. simpl.
  destruct found as [k|].
  - apply find_free_frame_Some in Hfound as (Hk & Hk0 & _).
    rewrite Hk0. simpl. rewrite (arr_set_Ok _ _ _ _ Hk0). simpl.
    destruct (lookup_lt_is_Some_2 (ptes pd1) (Z.to_nat j)) as [e0 He0];
      [rewrite Hwfpd1; lia|].
    erewrite pte_store_Ok;
      [|done | apply arr_get_Ok; split; [lia | done]].
    simpl. assert (to_uint k = k) as ->
      by (apply to_uint_small; unfold UINT_MOD, INT_MAX in *; lia).
    eexists. split; [|reflexivity].
    apply (wf_pagetable_insert pt1); [done|].
    by apply wf_pte_directory_insert.
  - eexists. split; [exact Hwf1 | reflexivity].
Qed.

Lemma alloc_page_run (new_pd : pte_directory) (s : state) (p : process)
    (vpn rw : Z) (found : option Z) :
  vm_h_ok Hvm → vpn_ok vpn →
  heap s !! current s = Some p → wf_pagetable (p_pagetable p) →
  wf_pte_directory new_pd →
  find_free_frame (Z.to_nat NR_PAGEFRAMES) 0 (mapcounts s) = Ok found →
  ∃ s' p', alloc_page new_pd s vpn rw =
      Ok (s', match found with Some i => i | None => UINT_MOD - 1 end) ∧
    current s' = current s ∧
    heap s' !! current s' = Some p' ∧ wf_pagetable (p_pagetable p') ∧
    mapcounts s' =
      match found with
      | Some i => <[Z.to_nat i := 1]> (mapcounts s)
      | None => mapcounts s
      end.
Proof.
  intros Hok Hvpn Hp Hwf Hnew Hfound.
  destruct (alloc_page_in_run new_pd _ _ vpn rw _ Hok Hvpn Hwf Hnew Hfound)
    as (pt' & Hwf' & Hrun).
  unfold alloc_page, pagetable_at. rewrite Hp. simpl. rewrite Hrun. simpl.
  eexists _, (set_pagetable pt' p). split; [reflexivity|]. simpl.
  split; [done|]. split; [|done].
  rewrite list_lookup_alter_eq, Hp. reflexivity.
Qed.

(** The pool after [k] allocations from an empty one. *)
Lemma insert_replicate_app (k n : nat) :
  <[k := 1]> (replicate k 1 ++ replicate (S n) 0)
    = replicate (S k) 1 ++ replicate n 0.
Proof. induction k as [|k IH]; simpl in *; [done | by f_equal]. Qed.

Lemma find_free_frame_replicate (k n : nat) :
  (k + n)%nat = Z.to_nat NR_PAGEFRAMES →
  find_free_frame (Z.to_nat NR_PAGEFRAMES) 0 (replicate k 1 ++ replicate n 0)
    = Ok (match n with O => None | S _ => Some (Z.of_nat k) end).
Proof.
  intros Hkn. destruct n as [|n].
  - apply find_free_frame_full. intros j Hj. exists 1. split; [|done].
    apply arr_get_Ok. split; [lia|].
    rewrite app_nil_r. apply lookup_replicate_2. lia.
  - apply find_free_frame_first; [lia | |].
    + apply arr_get_nat. rewrite lookup_app_r by (rewrite length_replicate; lia).
      rewrite length_replicate, Nat.sub_diag. done.
    + intros j Hj. exists 1. split; [|done].
      apply arr_get_Ok. split; [lia|].
      rewrite lookup_app_l by (rewrite length_replicate; lia).
      apply lookup_replicate_2. lia.
Qed.

(** Allocating until the pool is full: from [k] frames in use, the next
    [n] allocations return [k], [k+1], ... in that order. *)
Lemma alloc_pages_run (reqs : list (pte_directory * Z * Z))
    (s : state) (p : process) (k : nat) :
  vm_h_ok Hvm →
  heap s !! current s = Some p → wf_pagetable (p_pagetable p) →
  (k + length reqs)%nat = Z.to_nat NR_PAGEFRAMES →
  mapcounts s = replicate k 1 ++ replicate (length reqs) 0 →
  Forall (λ q, wf_pte_directory q.1.1 ∧ vpn_ok q.1.2) reqs →
  ∃ s' p', alloc_pages s reqs = Ok (s', Z.of_nat <$> seq k (length reqs)) ∧
    heap s' !! current s' = Some p' ∧ wf_pagetable (p_pagetable p') ∧
    mapcounts s' = replicate (Z.to_nat NR_PAGEFRAMES) 1.
Proof.
  intros Hok. revert s p k.
  induction reqs as [|[[new_pd vpn] rw] reqs IH]; intros s p k Hp Hwf Hkn Hmc Hreqs.
  - simpl in *. exists s, p. split_and!; try done.
    rewrite Hmc, app_nil_r. f_equal. lia.
  - cbn [length] in Hkn, Hmc. apply Forall_cons in Hreqs as [[Hnew Hvpn] Hreqs].
    simpl in Hnew, Hvpn.
    destruct (alloc_page_run new_pd s p vpn rw (Some (Z.of_nat k)))
      as (s1 & p1 & Hrun & Hcur & Hp1 & Hwf1 & Hmc1); try done.
    { rewrite Hmc. by apply (find_free_frame_replicate k (S (length reqs))). }
    rewrite Hmc, Nat2Z.id, insert_replicate_app in Hmc1.
    destruct (IH s1 p1 (S k)) as (s' & p' & Hrun' & Hp' & Hwf' & Hmc');
      try done; [lia|].
    exists s', p'. split_and!; try done.
    simpl. rewrite Hrun. simpl. rewrite Hrun'. reflexivity.
Qed.

Lemma find_free_frame_total (n : nat) (i : Z) (mc : list Z) :
  0 <= i → i + Z.of_nat n <= Z.of_nat (length mc) →
  ∃ found, find_free_frame n i mc = Ok found.
Proof.
  revert i. induction n as [|n IH]; intros i Hi Hlen; simpl; [eauto|].
  destruct (lookup_lt_is_Some_2 mc (Z.to_nat i)) as [c Ec]; [lia|].
  assert (arr_get mc i = Ok c) as -> by (apply arr_get_Ok; split; [lia|done]).
  simpl. destruct (decide (c = 0)); [eauto|]. apply IH; lia.
Qed.

Lemma alloc_pages_app (s : state) (l1 l2 : list (pte_directory * Z * Z)) :
  alloc_pages s (l1 ++ l2) =
    '(s1, r1) ← alloc_pages s l1;
    '(s2, r2) ← alloc_pages s1 l2;
    Ok (s2, r1 ++ r2).
Proof.
  revert s. induction l1 as [|[[new_pd vpn] rw] l1 IH]; intros s; simpl.
  - by destruct (alloc_pages s l2) as [[s2 r2]|].
  - destruct (alloc_page new_pd s vpn rw) as [[s1 r]|]; [|done]. simpl.
    rewrite IH. destruct (alloc_pages s1 l1) as [[s2 r2]|]; [|done]. simpl.
    by destruct (alloc_pages s2 l2) as [[s3 r3]|].
Qed.

(** C6. Smallest-frame allocation.  [alloc_page] returns the lowest frame
    whose reference count is 0 and counts it once, or the failure sentinel
    when no count is 0; and from an empty pool of [NR_PAGEFRAMES] frames,
    as many allocations return 0, 1, 2, ... in that order and the next one
    returns the failure sentinel. *)
Theorem alloc_page_smallest_frame :
  vm_h_ok Hvm →
  (∀ new_pd s p vpn rw,
     heap s !! current s = Some p → wf_pagetable (p_pagetable p) →
     wf_pte_directory new_pd → vpn_ok vpn →
     length (mapcounts s) = Z.to_nat NR_PAGEFRAMES →
     ∃ s' r, alloc_page new_pd s vpn rw = Ok (s', r) ∧
       ((0 <= r < NR_PAGEFRAMES ∧
         mapcounts s !! Z.to_nat r = Some 0 ∧
         (∀ j, 0 <= j < r → mapcounts s !! Z.to_nat j ≠ Some 0) ∧
         mapcounts s' = <[Z.to_nat r := 1]> (mapcounts s))
        ∨ (r = to_uint (-1) ∧
           (∀ j, 0 <= j < NR_PAGEFRAMES → mapcounts s !! Z.to_nat j ≠ Some 0) ∧
           mapcounts s' = mapcounts s)))
  ∧ (∀ s p reqs last,
       heap s !! current s = Some p → wf_pagetable (p_pagetable p) →
       mapcounts s = replicate (Z.to_nat NR_PAGEFRAMES) 0 →
       length reqs = Z.to_nat NR_PAGEFRAMES →
       Forall (λ q, wf_pte_directory q.1.1 ∧ vpn_ok q.1.2) (reqs ++ [last]) →
       ∃ s', alloc_pages s (reqs ++ [last]) =
         Ok (s', (Z.of_nat <$> seq 0 (Z.to_nat NR_PAGEFRAMES))
                   ++ [to_uint (-1)])).
Proof.
  intros Hok. split.
  - intros new_pd s p vpn rw Hp Hwf Hnew Hvpn Hlen.
    destruct (find_free_frame_total (Z.to_nat NR_PAGEFRAMES) 0 (mapcounts s))
      as [found Hfound]; [lia | lia |].
    destruct (alloc_page_run new_pd s p vpn rw found)
      as (s' & p' & Hrun & _ & _ & _ & Hmc); try done.
    exists s'. eexists. split; [exact Hrun|].
    destruct found as [i|].
    + left. apply find_free_frame_Some in Hfound as (Hi & Hi0 & Hlow).
      apply arr_get_Ok in Hi0 as [_ Hi0].
      split_and!; try done; [lia | lia |].
      intros j Hj Hj0. destruct (Hlow j) as (c & Hc & Hne); [lia|].
      apply arr_get_Ok in Hc as [_ Hc]. congruence.
    + right. split_and!; try done.
      intros j Hj Hj0.
      destruct (find_free_frame_None _ _ _ Hfound j) as (c & Hc & Hne); [lia|].
      apply arr_get_Ok in Hc as [_ Hc]. congruence.
  - intros s p reqs [[new_pd vpn] rw] Hp Hwf Hmc Hlen Hreqs.
    apply Forall_app in Hreqs as [Hreqs [[Hnew Hvpn] _]%Forall_cons].
    simpl in Hnew, Hvpn.
    destruct (alloc_pages_run reqs s p 0)
      as (s1 & p1 & Hrun & Hp1 & Hwf1 & Hmc1); try done.
    { by rewrite Hlen. }
    destruct (alloc_page_run new_pd s1 p1 vpn rw None)
      as (s2 & p2 & Hrun2 & _); try done.
    { rewrite Hmc1.
      pose proof (find_free_frame_replicate (Z.to_nat NR_PAGEFRAMES) 0) as Hfull.
      rewrite app_nil_r in Hfull. apply Hfull. lia. }
    exists s2. rewrite alloc_pages_app, Hrun. simpl. rewrite Hrun2. simpl.
    by rewrite Hlen.
Qed.

(** *** The loops of the fork *)

(** A counted loop that keeps an invariant runs to its end. *)
Lemma for_loop_inv {St : Type} (I : nat → St → Prop) (n i : nat)
    (body : Z → St → result St) (st : St) :
  I i st →
  (∀ j st, (i ≤ j < i + n)%nat → I j st →
     ∃ st', body (Z.of_nat j) st = Ok st' ∧ I (S j) st') →
  ∃ st', for_loop n (Z.of_nat i) body st = Ok st' ∧ I (i + n)%nat st'.
Proof.
  revert i st. induction n as [|n IH]; intros i st Hi Hstep; simpl.
  - exists st. by rewrite Nat.add_0_r.
  - destruct (Hstep i st) as (st1 & -> & Hi1); [lia | done |]. simpl.
    replace (Z.of_nat i + 1) with (Z.of_nat (S i)) by lia.
    destruct (IH (S i) st1) as (st' & Hrun & Hi'); [done | |].
    + intros j st2 Hj. apply Hstep. lia.
    + exists st'. split; [done|]. by replace (i + S n)%nat with (S i + n)%nat by lia.
Qed.

Lemma insert_alter_lookup {A : Type} (f : A → A) (l : list A) (i : nat) (x : A) :
  l !! i = Some x → <[i := f x]> l = alter f i l.
Proof.
  revert i. induction l as [|y l IH]; intros [|i] E; simpl in *; try done.
  - by injection E as ->.
  - f_equal. by apply IH.
Qed.

Lemma length_foldl_bump (es : list pte) (mc : list Z) :
  length (foldl bump mc es) = length mc.
Proof.
  revert mc. induction es as [|e es IH]; intros mc; simpl; [done|].
  rewrite IH. unfold bump. destruct (valid e); [apply length_alter | done].
Qed.

Lemma bump_valid (mc : list Z) (e : pte) :
  valid e = true → bump mc e = alter incr (Z.to_nat (pfn e)) mc.
Proof. intros Hv. unfold bump. by rewrite Hv. Qed.

Lemma bump_invalid (mc : list Z) (e : pte) :
  valid e = false → bump mc e = mc.
Proof. intros Hv. unfold bump. by rewrite Hv. Qed.

(** The inner loop of the fork on one inner table. *)
Lemma fork_pte_loop (d nd : pte_directory) (mc : list Z) :
  wf_pte_directory d → wf_pte_directory nd →
  (∀ j e, ptes d !! j = Some e → valid e = true →
     0 <= pfn e < Z.of_nat (length mc)) →
  for_loop (Z.to_nat NR_PTES_PER_PAGE) 0 fork_pte (d, nd, mc)
    = Ok (PD (cow_pte <$> ptes d), PD (zip_with child_pte (ptes d) (ptes nd)),
          foldl bump mc (ptes d)).
Proof.
  destruct d as [old], nd as [new]. unfold wf_pte_directory. simpl.
  intros Hold Hnew Hpfn.
  destruct (for_loop_inv
    (λ j '(o, c, m),
       (∀ k, ptes o !! k =
          if decide (k < j)%nat then (cow_pte <$> old) !! k else old !! k) ∧
       (∀ k, ptes c !! k =
          if decide (k < j)%nat then zip_with child_pte old new !! k
          else new !! k) ∧
       m = foldl bump mc (take j old))
    (Z.to_nat NR_PTES_PER_PAGE) 0 fork_pte (PD old, PD new, mc))
    as ([[o c] m] & Hrun & Ho & Hc & ->).
  - split_and!; try done; intros k; by case_decide; [lia|].
  - intros j [[o c] m] Hj (Ho & Hc & ->).
    destruct (lookup_lt_is_Some_2 old j) as [e He]; [lia|].
    destruct (lookup_lt_is_Some_2 new j) as [fe Hfe]; [lia|].
    assert (ptes o !! j = Some e) as Hoj
      by (rewrite Ho; case_decide; [lia | done]).
    assert (ptes c !! j = Some fe) as Hcj
      by (rewrite Hc; case_decide; [lia | done]).
    assert (zip_with child_pte old new !! j = Some (child_pte e fe)) as Hzj
      by (rewrite lookup_zip_with, He, Hfe; done).
    unfold fork_pte. rewrite (arr_get_nat _ _ _ Hoj). simpl.
    rewrite (take_S_r _ _ _ He), foldl_app. simpl.
    destruct (valid e) eqn:Hv.
    + rewrite (arr_get_nat _ _ _ Hcj). simpl.
      rewrite (arr_set_Ok _ _ _ _ (arr_get_nat _ _ _ Hoj)). simpl.
      destruct (lookup_lt_is_Some_2 (foldl bump mc (take j old))
                  (Z.to_nat (pfn e))) as [mv Hmv].
      { rewrite length_foldl_bump. specialize (Hpfn j e He Hv). lia. }
      assert (arr_get (foldl bump mc (take j old)) (pfn e) = Ok mv) as Hget.
      { apply arr_get_Ok. split; [|done]. specialize (Hpfn j e He Hv). lia. }
      rewrite Hget. simpl. rewrite (arr_set_Ok _ _ _ _ Hget). simpl.
      rewrite (arr_set_Ok _ _ _ _ (arr_get_nat _ _ _ Hcj)). simpl.
      eexists. split; [reflexivity|]. simpl. rewrite Nat2Z.id.
      split_and!.
      * intros k. rewrite list_lookup_insert, Ho.
        apply lookup_lt_Some in Hoj.
        repeat case_decide; try lia; try done.
        destruct_and!. subst k.
        rewrite list_lookup_fmap, He. simpl. unfold cow_pte. by rewrite Hv.
      * intros k. rewrite list_lookup_insert, Hc.
        apply lookup_lt_Some in Hcj.
        repeat case_decide; try lia; try done.
        destruct_and!. subst k.
        rewrite Hzj. unfold child_pte. by rewrite Hv.
      * rewrite bump_valid by done.
        change (to_uint (mv + 1)) with (incr mv).
        by apply insert_alter_lookup.
    + eexists. split; [reflexivity|]. simpl. split_and!.
      * intros k. rewrite Ho. repeat case_decide; try lia; try done.
        assert (k = j) as -> by lia.
        rewrite list_lookup_fmap, He. simpl. unfold cow_pte. by rewrite Hv.
      * intros k. rewrite Hc. repeat case_decide; try lia; try done.
        assert (k = j) as -> by lia.
        rewrite Hzj, Hfe. unfold child_pte. by rewrite Hv.
      * by rewrite bump_invalid.
  - change (Z.of_nat 0) with 0 in Hrun. rewrite Hrun. simpl in *.
    destruct o as [o], c as [c]. simpl in *.
    assert (o = cow_pte <$> old) as ->.
    { apply list_eq. intros k. rewrite Ho. case_decide; [done|].
      rewrite list_lookup_fmap. rewrite lookup_ge_None_2 by lia. done. }
    assert (c = zip_with child_pte old new) as ->.
    { apply list_eq. intros k. rewrite Hc. case_decide; [done|].
      rewrite lookup_zip_with.
      rewrite (lookup_ge_None_2 old) by lia.
      rewrite (lookup_ge_None_2 new) by lia. done. }
    by rewrite <- Hold, firstn_all.
Qed.

Lemma length_foldl_bump_slot (slots : list (option pte_directory)) (mc : list Z) :
  length (foldl bump_slot mc slots) = length mc.
Proof.
  revert mc. induction slots as [|slot slots IH]; intros mc; simpl; [done|].
  rewrite IH. destruct slot; simpl; [apply length_foldl_bump | done].
Qed.

(** The outer loop of the fork on the page table of the parent. *)
Lemma fork_pd_loop (new_pds : Z → pte_directory) (pt : pagetable)
    (fr : list (option pte_directory)) (mc : list Z) :
  wf_pagetable pt → length fr = Z.to_nat NR_PTES_PER_PAGE →
  (∀ i, wf_pte_directory (new_pds i)) → pfns_ok pt mc →
  ∃ c, for_loop (Z.to_nat NR_PTES_PER_PAGE) 0 (fork_pd new_pds) (pt, PT fr, mc)
      = Ok (PT (cow_slot <$> outer_ptes pt), PT c,
            foldl bump_slot mc (outer_ptes pt)) ∧
    length c = Z.to_nat NR_PTES_PER_PAGE ∧
    ∀ k slot, outer_ptes pt !! k = Some slot →
      c !! k = child_slot new_pds k slot <$> fr !! k.
Proof.
  intros [Hlen Hwf] Hfr Hnew Hpfn. set (olds := outer_ptes pt) in *.
  destruct (for_loop_inv
    (λ i '(o, c, m),
       (∀ k, outer_ptes o !! k =
          if decide (k < i)%nat then (cow_slot <$> olds) !! k else olds !! k) ∧
       (∀ k, outer_ptes c !! k =
          if decide (k < i)%nat
          then slot ← olds !! k; child_slot new_pds k slot <$> fr !! k
          else fr !! k) ∧
       m = foldl bump_slot mc (take i olds))
    (Z.to_nat NR_PTES_PER_PAGE) 0 (fork_pd new_pds) (pt, PT fr, mc))
    as ([[o c] m] & Hrun & Ho & Hc & ->).
  - split_and!; try done; intros k; by case_decide; [lia|].
  - intros i [[o c] m] Hi (Ho & Hc & ->).
    destruct (lookup_lt_is_Some_2 olds i) as [slot Hslot]; [lia|].
    destruct (lookup_lt_is_Some_2 fr i) as [f Hf]; [lia|].
    assert (outer_ptes o !! i = Some slot) as Hoi
      by (rewrite Ho; case_decide; [lia | done]).
    assert (outer_ptes c !! i = Some f) as Hci
      by (rewrite Hc; case_decide; [lia | done]).
    unfold fork_pd. rewrite (arr_get_nat _ _ _ Hoi). simpl.
    rewrite (take_S_r _ _ _ Hslot), foldl_app. simpl.
    destruct slot as [d|].
    + rewrite (arr_get_nat _ _ _ Hci). simpl.
      rewrite fork_pte_loop; [|by eauto | done |]; last first.
      { intros j e He Hv. rewrite length_foldl_bump_slot. by eapply Hpfn. }
      simpl.
      rewrite (arr_set_Ok _ _ _ _ (arr_get_nat _ _ _ Hoi)). simpl.
      rewrite (arr_set_Ok _ _ _ _ (arr_get_nat _ _ _ Hci)). simpl.
      eexists. split; [reflexivity|]. simpl. rewrite Nat2Z.id.
      split_and!; [| |done].
      * intros k. rewrite list_lookup_insert, Ho.
        apply lookup_lt_Some in Hoi.
        repeat case_decide; try lia; try done.
        destruct_and!. subst k. by rewrite list_lookup_fmap, Hslot.
      * intros k. rewrite list_lookup_insert, Hc.
        apply lookup_lt_Some in Hci.
        repeat case_decide; try lia; try done.
        destruct_and!. subst k. by rewrite Hslot, Hf.
    + eexists. split; [reflexivity|]. simpl. split_and!; [| |done].
      * intros k. rewrite Ho. repeat case_decide; try lia; try done.
        assert (k = i) as -> by lia. by rewrite list_lookup_fmap, Hslot.
      * intros k. rewrite Hc. repeat case_decide; try lia; try done.
        assert (k = i) as -> by lia. by rewrite Hslot, Hf.
  - exists (outer_ptes c). change (Z.of_nat 0) with 0 in Hrun.
    rewrite Hrun. simpl in *. destruct o as [o], c as [c]. simpl in *.
    assert (o = cow_slot <$> olds) as ->.
    { apply list_eq. intros k. rewrite Ho. case_decide; [done|].
      rewrite list_lookup_fmap. rewrite lookup_ge_None_2 by lia. done. }
    split_and!.
    + by rewrite <- Hlen, firstn_all.
    + destruct (decide (length c < Z.to_nat NR_PTES_PER_PAGE)%nat) as [Hlt|Hge].
      * pose proof (Hc (length c)) as Hk.
        rewrite lookup_ge_None_2 in Hk by lia. case_decide; [|lia].
        destruct (lookup_lt_is_Some_2 olds (length c)) as [slot Hslot]; [lia|].
        destruct (lookup_lt_is_Some_2 fr (length c)) as [f Hf]; [lia|].
        by rewrite Hslot, Hf in Hk.
      * destruct (decide (Z.to_nat NR_PTES_PER_PAGE < length c)%nat) as [Hgt|];
          [|lia].
        destruct (lookup_lt_is_Some_2 c (Z.to_nat NR_PTES_PER_PAGE)) as [x Hx];
          [lia|].
        rewrite Hc in Hx. case_decide; [lia|].
        rewrite lookup_ge_None_2 in Hx by lia. done.
    + intros k slot Hslot. rewrite Hc.
      apply lookup_lt_Some in Hslot as Hk. case_decide; [|lia].
      by rewrite Hslot.
Qed.

(** The counts after the fork: each is incremented once for every valid
    entry of the parent that maps its frame. *)
Lemma lookup_foldl_bump (es : list pte) (mc : list Z) (k : nat) :
  (∀ j e, es !! j = Some e → valid e = true → 0 <= pfn e) →
  foldl bump mc es !! k
    = Nat.iter (refs_pd (Z.of_nat k) (PD es)) incr <$> mc !! k.
Proof.
  unfold refs_pd. simpl. revert mc.
  induction es as [|e es IH]; intros mc Hpfn; simpl.
  - by destruct (mc !! k).
  - rewrite IH by (intros j; apply (Hpfn (S j))).
    destruct (decide (valid e = true ∧ pfn e = Z.of_nat k)) as [[Hv Hk]|Hno].
    + rewrite filter_cons_True by done. rewrite bump_valid by done.
      rewrite Hk, Nat2Z.id, list_lookup_alter_eq.
      destruct (mc !! k); [|done]. cbn [fmap option_fmap option_map length].
      by rewrite Nat.iter_succ_r.
    + rewrite filter_cons_False by done.
      destruct (valid e) eqn:Hv; [|by rewrite bump_invalid].
      rewrite bump_valid by done. rewrite list_lookup_alter_ne; [done|].
      intros Heq. apply Hno. split; [done|].
      specialize (Hpfn 0%nat e eq_refl Hv). lia.
Qed.

Lemma lookup_foldl_bump_slot (pt : pagetable) (mc : list Z) (k : nat) :
  pfns_ok pt mc →
  foldl bump_slot mc (outer_ptes pt) !! k
    = Nat.iter (refs_pt (Z.of_nat k) pt) incr <$> mc !! k.
Proof.
  unfold refs_pt, pfns_ok. destruct pt as [slots]. simpl. revert mc.
  induction slots as [|slot slots IH]; intros mc Hpfn; simpl.
  - by destruct (mc !! k).
  - rewrite IH; last first.
    { intros i d j e Hi He Hv.
      assert (length (bump_slot mc slot) = length mc) as ->
        by (destruct slot; simpl; [apply length_foldl_bump | done]).
      by apply (Hpfn (S i) d j e). }
    destruct slot as [d|]; simpl; [|done].
    rewrite lookup_foldl_bump.
    + destruct (mc !! k); simpl; [|done].
      by rewrite Nat.add_comm, Nat.iter_add.
    + intros j e He Hv. by apply (Hpfn 0%nat d j e).
Qed.

(** *** The links of the ready queue *)

Lemma get_list_put_list (s : state) (r r' : list_ref) (l : list_head) :
  get_list (put_list s r l) r' =
    if decide (r = r') then _ ← get_list s r'; Ok l else get_list s r'.
Proof.
  destruct r as [|a], r' as [|b]; simpl; try done.
  destruct (decide (Node a = Node b)) as [[= ->]|Hne].
  - rewrite list_lookup_alter_eq. by destruct (heap s !! b).
  - rewrite list_lookup_alter_ne; [done | congruence].
Qed.

Lemma get_list_put_list_eq (s : state) (r : list_ref) (l l0 : list_head) :
  get_list s r = Ok l0 → get_list (put_list s r l) r = Ok l.
Proof.
  intros E. rewrite get_list_put_list, E. by destruct (decide (r = r)).
Qed.

Lemma get_list_put_list_ne (s : state) (r r' : list_ref) (l : list_head) :
  r ≠ r' → get_list (put_list s r l) r' = get_list s r'.
Proof.
  intros Hne. rewrite get_list_put_list. by destruct (decide (r = r')).
Qed.

Lemma put_list_frame (s : state) (r : list_ref) (l : list_head) :
  current (put_list s r l) = current s ∧ ptbr (put_list s r l) = ptbr s ∧
  mapcounts (put_list s r l) = mapcounts s ∧
  length (heap (put_list s r l)) = length (heap s) ∧
  (∀ a, pagetable_at (put_list s r l) a = pagetable_at s a) ∧
  (∀ a, pid <$> heap (put_list s r l) !! a = pid <$> heap s !! a).
Proof.
  destruct r as [|b]; simpl; [done|]. split_and!; try done.
  - apply length_alter.
  - intros a. unfold pagetable_at. simpl.
    destruct (decide (b = a)) as [->|Hne].
    + rewrite list_lookup_alter_eq. by destruct (heap s !! a).
    + by rewrite list_lookup_alter_ne.
  - intros a. destruct (decide (b = a)) as [->|Hne].
    + rewrite list_lookup_alter_eq. by destruct (heap s !! a).
    + by rewrite list_lookup_alter_ne.
Qed.

Lemma set_next_run (s : state) (r v : list_ref) (l0 : list_head) :
  get_list s r = Ok l0 →
  set_next s r v = Ok (put_list s r {| next := v; prev := prev l0 |}).
Proof. intros E. unfold set_next. by rewrite E. Qed.

Lemma set_prev_run (s : state) (r v : list_ref) (l0 : list_head) :
  get_list s r = Ok l0 →
  set_prev s r v = Ok (put_list s r {| next := next l0; prev := v |}).
Proof. intros E. unfold set_prev. by rewrite E. Qed.

(** [INIT_LIST_HEAD(&p->list); list_add_tail(&p->list, &processes)]: the
    node [p] is linked between the last node [prev (processes t)] and the
    head; no other link changes. *)
Lemma link_tail_run (t : state) (p : nat) (gl x : list_head) :
  get_list t (Node p) = Ok gl →
  get_list t (prev (processes t)) = Ok x →
  prev (processes t) ≠ Node p →
  ∃ t', (t2 ← INIT_LIST_HEAD t (Node p); list_add_tail t2 (Node p) Head)
          = Ok t' ∧
    current t' = current t ∧ ptbr t' = ptbr t ∧ mapcounts t' = mapcounts t ∧
    length (heap t') = length (heap t) ∧
    (∀ a, pagetable_at t' a = pagetable_at t a) ∧
    (∀ a, pid <$> heap t' !! a = pid <$> heap t !! a) ∧
    get_list t' (Node p) = Ok {| next := Head; prev := prev (processes t) |} ∧
    (∀ r y, r ≠ Node p → get_list t r = Ok y →
       get_list t' r =
         Ok {| next := if decide (r = prev (processes t)) then Node p
                       else next y;
               prev := if decide (r = Head) then Node p else prev y |}).
Proof.
  intros Hp Hprv Hne. set (prv := prev (processes t)) in *.
  set (t1 := put_list t (Node p) {| next := Node p; prev := prev gl |}).
  set (t2 := put_list t1 (Node p) {| next := Node p; prev := Node p |}).
  set (t3 := put_list t2 Head {| next := next (processes t); prev := Node p |}).
  set (t4 := put_list t3 (Node p) {| next := Head; prev := Node p |}).
  set (t5 := put_list t4 (Node p) {| next := Head; prev := prv |}).
  assert (∀ r, get_list t5 r =
    if decide (r = Node p) then Ok {| next := Head; prev := prv |}
    else if decide (r = Head)
         then Ok {| next := next (processes t); prev := Node p |}
         else get_list t r) as H5.
  { intros r. unfold t5, t4, t3, t2, t1. rewrite !get_list_put_list.
    repeat case_decide; try congruence; subst; try rewrite Hp; done. }
  assert (∃ y5, get_list t5 prv = Ok y5 ∧
    prev y5 = (if decide (prv = Head) then Node p else prev x)) as (y5 & Hy5 & Hy5p).
  { rewrite H5. repeat case_decide; try congruence; eauto. }
  set (t6 := put_list t5 prv {| next := Node p; prev := prev y5 |}).
  assert (get_list t1 (Node p) = Ok {| next := Node p; prev := prev gl |}) as H1.
  { by apply (get_list_put_list_eq t _ _ gl). }
  assert (get_list t3 (Node p) = Ok {| next := Node p; prev := Node p |}) as H3.
  { unfold t3. rewrite get_list_put_list_ne by done.
    by eapply get_list_put_list_eq. }
  assert (get_list t4 (Node p) = Ok {| next := Head; prev := Node p |}) as H4.
  { by eapply get_list_put_list_eq. }
  exists t6. split.
  { unfold INIT_LIST_HEAD.
    rewrite (set_next_run _ _ _ _ Hp), bind_Ok. fold t1.
    rewrite (set_prev_run _ _ _ _ H1), bind_Ok. cbn [next prev]. fold t2.
    unfold list_add_tail, __list_add.
    assert (get_list t2 Head = Ok (processes t)) as -> by done.
    rewrite bind_Ok. fold prv.
    assert (set_prev t2 Head (Node p) = Ok t3) as -> by done.
    rewrite bind_Ok.
    rewrite (set_next_run _ _ _ _ H3), bind_Ok. cbn [next prev]. fold t4.
    rewrite (set_prev_run _ _ _ _ H4), bind_Ok. cbn [next prev]. fold t5.
    by rewrite (set_next_run _ _ _ _ Hy5). }
  assert (∀ t0 r l, current (put_list t0 r l) = current t0) as Fc
    by (intros; apply put_list_frame).
  assert (∀ t0 r l, ptbr (put_list t0 r l) = ptbr t0) as Fp
    by (intros; apply put_list_frame).
  assert (∀ t0 r l, mapcounts (put_list t0 r l) = mapcounts t0) as Fm
    by (intros; apply put_list_frame).
  assert (∀ t0 r l, length (heap (put_list t0 r l)) = length (heap t0)) as Fl
    by (intros; apply put_list_frame).
  assert (∀ t0 r l a, pagetable_at (put_list t0 r l) a = pagetable_at t0 a) as Ft
    by (intros; apply put_list_frame).
  assert (∀ t0 r l a, pid <$> heap (put_list t0 r l) !! a = pid <$> heap t0 !! a)
    as Fi by (intros; apply put_list_frame).
  unfold t6, t5, t4, t3, t2, t1.
  split_and!; try (by rewrite ?Fc, ?Fp, ?Fm, ?Fl);
    try (by intros a; rewrite ?Ft, ?Fi).
  - fold t1 t2 t3 t4 t5. rewrite get_list_put_list, H5.
    repeat case_decide; try congruence; done.
  - intros r y Hr Hy. fold t1 t2 t3 t4 t5. rewrite get_list_put_list, H5.
    rewrite Hy5p.
    repeat case_decide; try congruence; subst;
      try rewrite Hy; try rewrite Hprv; try done.
    all: first
      [ by destruct y
      | assert (x = y) as -> by congruence; by destruct y
      | simpl in Hy; by injection Hy as <- ].
Qed.

Lemma is_queue_tail (s : state) (from : list_ref) (l : list nat) :
  is_queue s from l →
  (next <$> get_list s (prev (processes s))) = Ok Head.
Proof.
  revert from. induction l as [|a l IH]; intros from; simpl.
  - by intros [? ->].
  - intros (_ & _ & Hq). by apply (IH (Node a)).
Qed.

(** Linking a new node at the tail appends it to a well-linked queue. *)
Lemma is_queue_snoc (s s' : state) (p : nat) (l : list nat) (src : list_ref) :
  (∀ r y, r ≠ Node p → get_list s r = Ok y →
     get_list s' r =
       Ok {| next := if decide (r = prev (processes s)) then Node p
                     else next y;
             prev := if decide (r = Head) then Node p else prev y |}) →
  get_list s' (Node p) = Ok {| next := Head; prev := prev (processes s) |} →
  heap s !! p = None →
  src ≠ Node p →
  is_queue s src l → is_queue s' src (l ++ [p]).
Proof.
  intros Hget Hnew Hfresh.
  assert (prev (processes s') = Node p) as Hhead.
  { pose proof (Hget Head (processes s) ltac:(done) eq_refl) as H0.
    simpl in H0. injection H0 as ->. simpl. by repeat case_decide. }
  revert src. induction l as [|a l IH]; intros src Hsrc; cbn [is_queue app].
  - intros [Hnext Heq].
    destruct (get_list s src) as [y|] eqn:Hy; [|done].
    rewrite (Hget src y Hsrc Hy), Hnew. cbn [fmap result_fmap next prev].
    rewrite decide_True by done. by rewrite Heq.
  - intros (Hnext & Hprev & Hq).
    pose proof (is_queue_tail _ _ _ Hq) as Htail.
    destruct (get_list s src) as [y|] eqn:Hy; [|done].
    destruct (get_list s (Node a)) as [ya|] eqn:Hya; [|done].
    assert (a ≠ p) as Hap.
    { intros ->. simpl in Hya. by rewrite Hfresh in Hya. }
    assert (src ≠ prev (processes s)) as Hne.
    { intros Heq. rewrite <- Heq, Hy in Htail. simpl in *. congruence. }
    rewrite (Hget src y Hsrc Hy).
    rewrite (Hget (Node a) ya) by (done || congruence).
    cbn [fmap result_fmap next prev].
    rewrite decide_False by done. split_and!; try done.
    apply IH; [congruence | done].
Qed.

(** *** [switch_process]: the fork *)

(** The state that the fork leaves. *)
Lemma fork_run (new_p : process) (new_pds : Z → pte_directory)
    (s : state) (id : Z) (parent : process) (x : list_head) :
  find_process (length (heap s)) s (next (processes s)) id = Ok None →
  heap s !! current s = Some parent →
  wf_pagetable (p_pagetable parent) →
  pfns_ok (p_pagetable parent) (mapcounts s) →
  length (outer_ptes (p_pagetable new_p)) = Z.to_nat NR_PTES_PER_PAGE →
  (∀ i, wf_pte_directory (new_pds i)) →
  get_list s (prev (processes s)) = Ok x →
  let p := length (heap s) in
  ∃ s' c, switch_process new_p new_pds s id = Ok s' ∧
    current s' = p ∧ ptbr s' = Some p ∧ length (heap s') = S p ∧
    mapcounts s' =
      foldl bump_slot (mapcounts s) (outer_ptes (p_pagetable parent)) ∧
    pid <$> heap s' !! p = Some id ∧
    (∀ a, (a < p)%nat → pid <$> heap s' !! a = pid <$> heap s !! a) ∧
    pagetable_at s' p = Ok (PT c) ∧
    length c = Z.to_nat NR_PTES_PER_PAGE ∧
    (∀ k slot, outer_ptes (p_pagetable parent) !! k = Some slot →
       c !! k = child_slot new_pds k slot
                  <$> outer_ptes (p_pagetable new_p) !! k) ∧
    pagetable_at s' (current s)
      = Ok (PT (cow_slot <$> outer_ptes (p_pagetable parent))) ∧
    (∀ a, a ≠ current s → (a < p)%nat →
       pagetable_at s' a = pagetable_at s a) ∧
    get_list s' (Node p) = Ok {| next := Head; prev := prev (processes s) |} ∧
    (∀ r y, r ≠ Node p → get_list s r = Ok y →
       get_list s' r =
         Ok {| next := if decide (r = prev (processes s)) then Node p
                       else next y;
               prev := if decide (r = Head) then Node p else prev y |}).
Proof.
  intros Hfind Hparent Hwf Hpfn Hfr Hnew Hprv p.
  destruct new_p as [gpid [fr] gl]. simpl in Hfr.
  destruct (fork_pd_loop new_pds (p_pagetable parent) fr (mapcounts s))
    as (c & Hloop & Hlen & Hc); try done.
  unfold switch_process. rewrite Hfind, bind_Ok.
  unfold pagetable_at at 1. rewrite Hparent. simpl.
  rewrite Hloop. simpl. fold p.
  set (h0 := alter (set_pagetable (PT (cow_slot <$> outer_ptes (p_pagetable parent))))
               (current s) (heap s)).
  set (child := {| pid := id; p_pagetable := PT c; p_list := gl |}).
  set (s1 := {| heap := h0 ++ [child]; processes := processes s; current := p;
                ptbr := Some p;
                mapcounts := foldl bump_slot (mapcounts s)
                               (outer_ptes (p_pagetable parent)) |}).
  assert (length h0 = p) as Hh0 by apply length_alter.
  assert (heap s1 !! p = Some child) as Hchild.
  { simpl. rewrite <- Hh0. apply list_lookup_middle. done. }
  assert (∀ a, (a < p)%nat → heap s1 !! a = h0 !! a) as Hlow.
  { intros a Ha. simpl. apply lookup_app_l. lia. }
  assert (heap s !! p = None) as Hfresh by (by apply lookup_ge_None_2).
  assert (∀ r y, get_list s r = Ok y → get_list s1 r = Ok y) as Hsame.
  { intros [|a] y; simpl; [done|].
    destruct (heap s !! a) as [q|] eqn:Hq; [|done]. intros [= <-].
    pose proof (lookup_lt_Some _ _ _ Hq) as Ha.
    assert ((h0 ++ [child]) !! a = h0 !! a) as -> by (apply lookup_app_l; lia).
    unfold h0. destruct (decide (current s = a)) as [<-|Hne].
    - rewrite list_lookup_alter_eq, Hq. done.
    - rewrite list_lookup_alter_ne, Hq; done. }
  assert (prev (processes s) ≠ Node p) as Hnp.
  { intros Heq. rewrite Heq in Hprv. simpl in Hprv. by rewrite Hfresh in Hprv. }
  destruct (link_tail_run s1 p gl x)
    as (s' & Hrun & Hcur & Hptbr & Hmc & Hlen' & Hpt & Hpid & Hgp & Hget).
  { unfold get_list. rewrite Hchild. done. }
  { by apply Hsame. }
  { done. }
  exists s', c. split; [exact Hrun|].
  split_and!; try done.
  - rewrite Hlen'. simpl. rewrite length_app, Hh0. simpl. lia.
  - rewrite Hpid, Hchild. done.
  - intros a Ha. rewrite Hpid, Hlow by done. unfold h0.
    destruct (decide (current s = a)) as [<-|Hne].
    + rewrite list_lookup_alter_eq. by destruct (heap s !! current s).
    + by rewrite list_lookup_alter_ne.
  - rewrite Hpt. unfold pagetable_at. rewrite Hchild. done.
  - rewrite Hpt. unfold pagetable_at.
    rewrite Hlow by (by eapply lookup_lt_Some).
    unfold h0. rewrite list_lookup_alter_eq, Hparent. done.
  - intros a Hne Ha. rewrite Hpt. unfold pagetable_at.
    rewrite Hlow by done. unfold h0. by rewrite list_lookup_alter_ne.
  - intros r y Hr Hy. apply Hget; [done | by apply Hsame].
Qed.

Lemma pte_at_lookup (pt : pagetable) (i j : Z) (d : pte_directory) (e : pte) :
  0 <= i → 0 <= j →
  outer_ptes pt !! Z.to_nat i = Some (Some d) →
  ptes d !! Z.to_nat j = Some e →
  pte_at pt i j = Ok e.
Proof.
  intros Hi Hj Hd He. unfold pte_at.
  assert (arr_get (outer_ptes pt) i = Ok (Some d)) as ->
    by (by apply arr_get_Ok).
  simpl. by apply arr_get_Ok.
Qed.

(** Fork duplication, in every state.  When no process of the ready queue
    has the requested pid, [switch_process] creates one.  For every present
    slot of the parent and every valid entry in it, the child has an entry
    with the same frame and the same original-permission tag, valid, and not
    writable, and the parent's entry is made not writable; the count of a
    frame is incremented once for each valid entry of the parent that maps
    it.  Nothing is copied for an invalid entry or an absent slot: the child
    holds there what [malloc] returned (the entries of the block
    [new_pds i], the slots of the block [new_p]).  [current] and [ptbr]
    point to the new process, which is linked between [processes.prev] and
    the head: that appends it to a queue whose links are consistent, and
    only to such a queue. *)
Theorem switch_process_fork (new_p : process) (new_pds : Z → pte_directory)
    (s : state) (id : Z) (parent : process) (x : list_head) :
  find_process (length (heap s)) s (next (processes s)) id = Ok None →
  heap s !! current s = Some parent →
  wf_pagetable (p_pagetable parent) →
  pfns_ok (p_pagetable parent) (mapcounts s) →
  length (outer_ptes (p_pagetable new_p)) = Z.to_nat NR_PTES_PER_PAGE →
  (∀ i, wf_pte_directory (new_pds i)) →
  get_list s (prev (processes s)) = Ok x →
  let p := length (heap s) in
  ∃ s' child_pt parent_pt,
    switch_process new_p new_pds s id = Ok s' ∧
    length (heap s') = S p ∧ pid <$> heap s' !! p = Some id ∧
    pagetable_at s' p = Ok child_pt ∧
    pagetable_at s' (current s) = Ok parent_pt ∧
    (∀ i j e, pte_at (p_pagetable parent) i j = Ok e → valid e = true →
       pte_at child_pt i j =
         Ok {| valid := true; writable := false;
               pfn := pfn e; private := private e |} ∧
       pte_at parent_pt i j = Ok (set_writable false e)) ∧
    (∀ i j e, pte_at (p_pagetable parent) i j = Ok e → valid e = false →
       pte_at child_pt i j = arr_get (ptes (new_pds i)) j ∧
       pte_at parent_pt i j = Ok e) ∧
    (∀ i, arr_get (outer_ptes (p_pagetable parent)) i = Ok None →
       arr_get (outer_ptes child_pt) i
         = arr_get (outer_ptes (p_pagetable new_p)) i ∧
       arr_get (outer_ptes parent_pt) i = Ok None) ∧
    (∀ f, mapcounts s' !! f =
       Nat.iter (refs_pt (Z.of_nat f) (p_pagetable parent)) incr
         <$> mapcounts s !! f) ∧
    (∀ a, a ≠ current s → (a < p)%nat →
       pagetable_at s' a = pagetable_at s a) ∧
    current s' = p ∧ ptbr s' = Some p ∧
    get_list s' (Node p) = Ok {| next := Head; prev := prev (processes s) |} ∧
    prev (processes s') = Node p ∧
    (next <$> get_list s' (prev (processes s))) = Ok (Node p) ∧
    (∀ l, is_queue s Head l → is_queue s' Head (l ++ [p])).
Proof.
  intros Hfind Hparent Hwf Hpfn Hfr Hnew Hprv p.
  destruct (fork_run new_p new_pds s id parent x)
    as (s' & c & Hrun & Hcur & Hptbr & Hlen & Hmc & Hpid & _ & Hchild & Hclen
        & Hc & Hpar & Hother & Hgp & Hget); try done.
  fold p in Hcur, Hptbr, Hlen, Hpid, Hchild, Hother, Hgp, Hget.
  pose proof Hwf as [Hwlen Hwin].
  assert (heap s !! p = None) as Hfresh by (by apply lookup_ge_None_2).
  exists s', (PT c), (PT (cow_slot <$> outer_ptes (p_pagetable parent))).
  split_and!; try done.
  - (* valid entries *)
    intros i j e (d & [Hi Hd]%arr_get_Ok & [Hj He]%arr_get_Ok)%pte_at_inv Hv.
    pose proof (lookup_lt_Some _ _ _ Hd) as Hilt.
    pose proof (lookup_lt_Some _ _ _ He) as Hjlt.
    rewrite (Hwin _ _ Hd) in Hjlt.
    destruct (lookup_lt_is_Some_2 (outer_ptes (p_pagetable new_p)) (Z.to_nat i))
      as [f Hf]; [lia|].
    destruct (lookup_lt_is_Some_2 (ptes (new_pds i)) (Z.to_nat j)) as [fe Hfe];
      [rewrite Hnew; lia|].
    split.
    + apply (pte_at_lookup _ _ _
               (PD (zip_with child_pte (ptes d) (ptes (new_pds i)))));
        try done.
      * simpl. rewrite (Hc _ _ Hd), Hf. simpl. rewrite Z2Nat.id by done. done.
      * simpl. rewrite lookup_zip_with, He, Hfe. simpl.
        unfold child_pte. by rewrite Hv.
    + apply (pte_at_lookup _ _ _ (PD (cow_pte <$> ptes d))); try done.
      * simpl. rewrite list_lookup_fmap, Hd. done.
      * simpl. rewrite list_lookup_fmap, He. simpl.
        unfold cow_pte. by rewrite Hv.
  - (* invalid entries *)
    intros i j e (d & [Hi Hd]%arr_get_Ok & [Hj He]%arr_get_Ok)%pte_at_inv Hv.
    pose proof (lookup_lt_Some _ _ _ Hd) as Hilt.
    pose proof (lookup_lt_Some _ _ _ He) as Hjlt.
    rewrite (Hwin _ _ Hd) in Hjlt.
    destruct (lookup_lt_is_Some_2 (outer_ptes (p_pagetable new_p)) (Z.to_nat i))
      as [f Hf]; [lia|].
    destruct (lookup_lt_is_Some_2 (ptes (new_pds i)) (Z.to_nat j)) as [fe Hfe];
      [rewrite Hnew; lia|].
    split.
    + assert (arr_get (ptes (new_pds i)) j = Ok fe) as ->
        by (by apply arr_get_Ok).
      apply (pte_at_lookup _ _ _
               (PD (zip_with child_pte (ptes d) (ptes (new_pds i)))));
        try done.
      * simpl. rewrite (Hc _ _ Hd), Hf. simpl. rewrite Z2Nat.id by done. done.
      * simpl. rewrite lookup_zip_with, He, Hfe. simpl.
        unfold child_pte. by rewrite Hv.
    + apply (pte_at_lookup _ _ _ (PD (cow_pte <$> ptes d))); try done.
      * simpl. rewrite list_lookup_fmap, Hd. done.
      * simpl. rewrite list_lookup_fmap, He. simpl.
        unfold cow_pte. by rewrite Hv.
  - (* absent slots *)
    intros i [Hi Hd]%arr_get_Ok. simpl. split.
    + unfold arr_get. destruct (decide (0 <= i)); [|done].
      rewrite (Hc _ _ Hd). simpl.
      by destruct (outer_ptes (p_pagetable new_p) !! Z.to_nat i).
    + apply arr_get_Ok. split; [done|]. by rewrite list_lookup_fmap, Hd.
  - (* reference counts *)
    intros f. rewrite Hmc. by apply lookup_foldl_bump_slot.
  - (* the head of the queue *)
    pose proof (Hget Head (processes s) ltac:(done) eq_refl) as H0.
    simpl in H0. injection H0 as ->. simpl. by repeat case_decide.
  - (* the former last node *)
    rewrite (Hget _ x); [|intros Heq; rewrite Heq in Hprv; simpl in Hprv;
                          by rewrite Hfresh in Hprv | done].
    simpl. by rewrite decide_True.
  - (* the queue as a sequence *)
    intros l Hq. by eapply is_queue_snoc.
Qed.

(** *** Well-formedness is kept *)

Lemma pt_ok_length (pt : pagetable) (mc mc' : list Z) :
  length mc = length mc' → pt_ok pt mc → pt_ok pt mc'.
Proof.
  intros Hlen [Hwf Hpfn]. split; [done|].
  intros i d j e Hd He Hv. rewrite <- Hlen. by eapply Hpfn.
Qed.

Lemma pt_ok_insert_Some (pt : pagetable) (mc : list Z) (i : nat)
    (pd : pte_directory) :
  pt_ok pt mc → block_ok pd mc →
  pt_ok (PT (<[i := Some pd]> (outer_ptes pt))) mc.
Proof.
  intros [Hwf Hpfn] [Hpd Hin]. split; [by apply wf_pagetable_insert|].
  intros k d j e Hd He Hv. simpl in Hd.
  destruct (decide (k = i)) as [->|Hne].
  - destruct (decide (i < length (outer_ptes pt))%nat).
    + rewrite list_lookup_insert_eq in Hd by done. injection Hd as <-. eauto.
    + rewrite list_insert_ge in Hd by lia. by eapply Hpfn.
  - rewrite list_lookup_insert_ne in Hd by done. by eapply Hpfn.
Qed.

Lemma pt_ok_insert_None (pt : pagetable) (mc : list Z) (i : nat) :
  pt_ok pt mc → pt_ok (PT (<[i := None]> (outer_ptes pt))) mc.
Proof.
  intros [[Hlen Hwf] Hpfn]. split; [split|]; simpl.
  - by rewrite length_insert.
  - intros k d Hd. destruct (decide (k = i)) as [->|Hne].
    + destruct (decide (i < length (outer_ptes pt))%nat).
      * by rewrite list_lookup_insert_eq in Hd.
      * rewrite list_insert_ge in Hd by lia. eauto.
    + rewrite list_lookup_insert_ne in Hd by done. eauto.
  - intros k d j e Hd He Hv. simpl in Hd.
    destruct (decide (k = i)) as [->|Hne].
    + destruct (decide (i < length (outer_ptes pt))%nat).
      * by rewrite list_lookup_insert_eq in Hd.
      * rewrite list_insert_ge in Hd by lia. by eapply Hpfn.
    + rewrite list_lookup_insert_ne in Hd by done. by eapply Hpfn.
Qed.

Lemma pte_store_ok (pt pt' : pagetable) (mc : list Z) (i j : Z) (e : pte) :
  pt_ok pt mc → (valid e = true → 0 <= pfn e < Z.of_nat (length mc)) →
  pte_store pt i j e = Ok pt' → pt_ok pt' mc.
Proof.
  intros Hok He (pd & e0 & [_ Hpd]%arr_get_Ok & _ & ->)%pte_store_inv.
  apply pt_ok_insert_Some; [done|]. destruct Hok as [[_ Hwf] Hpfn]. split.
  - apply wf_pte_directory_insert. eauto.
  - intros k e' Hk Hv. simpl in Hk.
    destruct (decide (k = Z.to_nat j)) as [->|Hne].
    + destruct (decide (Z.to_nat j < length (ptes pd))%nat).
      * rewrite list_lookup_insert_eq in Hk by done. injection Hk as <-. auto.
      * rewrite list_insert_ge in Hk by lia. by eapply Hpfn.
    + rewrite list_lookup_insert_ne in Hk by done. by eapply Hpfn.
Qed.

Lemma zero_pd_ok (mc : list Z) : block_ok zero_pd mc.
Proof.
  split.
  - unfold wf_pte_directory, zero_pd. simpl. apply length_replicate.
  - intros j e [-> _]%lookup_replicate. discriminate.
Qed.

Lemma alloc_page_in_ok (new_pd : pte_directory) (pt pt' : pagetable)
    (mc mc' : list Z) (vpn rw r : Z) :
  vm_h_ok Hvm → length mc = Z.to_nat NR_PAGEFRAMES →
  pt_ok pt mc → block_ok new_pd mc →
  alloc_page_in new_pd pt mc vpn rw = Ok (pt', mc', r) →
  pt_ok pt' mc' ∧ length mc' = length mc.
Proof.
  intros [_ Hf _ _] Hlen Hok Hnew. unfold alloc_page_in.
  intros (slot & Hslot & Hrun)%bind_Ok_inv.
  apply bind_Ok_inv in Hrun as (pt1 & Hpt1 & Hrun).
  assert (pt_ok pt1 mc) as Hok1.
  { destruct slot; [by injection Hpt1 as <-|].
    apply bind_Ok_inv in Hpt1 as (o & [-> _]%arr_set_inv & [= <-]).
    by apply pt_ok_insert_Some. }
  apply bind_Ok_inv in Hrun as (found & Hfound & Hrun).
  destruct found as [i|]; [|by injection Hrun as <- <- _].
  apply find_free_frame_Some in Hfound as (Hi & Hi0 & _).
  rewrite Hi0 in Hrun. simpl in Hrun.
  rewrite (arr_set_Ok _ _ _ _ Hi0) in Hrun. simpl in Hrun.
  apply bind_Ok_inv in Hrun as (pt2 & Hpt2 & [= <- <- _]).
  assert (length (<[Z.to_nat i := to_uint (0 + 1)]> mc) = length mc) as Hl
    by apply length_insert.
  split; [|done].
  apply (pt_ok_length _ mc); [done|].
  eapply pte_store_ok; [exact Hok1 | | exact Hpt2].
  simpl. intros _.
  rewrite to_uint_small by (unfold UINT_MOD, INT_MAX in *; lia). lia.
Qed.

Lemma free_page_in_ok (pt pt' : pagetable) (mc mc' : list Z) (vpn : Z) :
  pt_ok pt mc → free_page_in pt mc vpn = Ok (pt', mc') →
  pt_ok pt' mc' ∧ length mc' = length mc.
Proof.
  intros Hok. unfold free_page_in.
  intros (e & He & Hrun)%bind_Ok_inv.
  apply bind_Ok_inv in Hrun as (m & Hm & Hrun).
  destruct (decide (to_int m = 0)); [by injection Hrun as <- <-|].
  apply bind_Ok_inv in Hrun as (mc1 & [-> _]%arr_set_inv & Hrun).
  apply bind_Ok_inv in Hrun as (pt1 & Hpt1 & Hrun).
  apply bind_Ok_inv in Hrun as (slot & Hslot & Hrun).
  apply bind_Ok_inv in Hrun as (pd & Hpd & Hrun).
  apply bind_Ok_inv in Hrun as (i & Hi & Hrun).
  assert (pt_ok pt1 (<[Z.to_nat (pfn e) := to_uint (m - 1)]> mc)) as Hok1.
  { apply (pt_ok_length _ mc); [by rewrite length_insert|].
    eapply pte_store_ok; [exact Hok | | exact Hpt1]. discriminate. }
  destruct (decide (i = NR_PTES_PER_PAGE)).
  - apply bind_Ok_inv in Hrun as (o & [-> _]%arr_set_inv & [= <- <-]).
    split; [by apply pt_ok_insert_None | apply length_insert].
  - injection Hrun as <- <-. split; [done | apply length_insert].
Qed.

Lemma handle_page_fault_in_ok (pt pt' : pagetable) (mc mc' : list Z)
    (vpn rw : Z) (r : bool) :
  vm_h_ok Hvm → length mc = Z.to_nat NR_PAGEFRAMES → pt_ok pt mc →
  handle_page_fault_in pt mc vpn rw = Ok (pt', mc', r) →
  pt_ok pt' mc' ∧ length mc' = length mc.
Proof.
  intros [_ Hf _ _] Hlen Hok. unfold handle_page_fault_in.
  intros (slot & Hslot & Hrun)%bind_Ok_inv.
  destruct slot as [d|]; [|by injection Hrun as <- <- _].
  apply bind_Ok_inv in Hrun as (e & He & Hrun).
  destruct (valid e) eqn:Hv; simpl in Hrun; [|by injection Hrun as <- <- _].
  destruct (decide (private e = RW_READ)); [by injection Hrun as <- <- _|].
  apply bind_Ok_inv in Hrun as (m & Hm & Hrun).
  assert (0 <= pfn e < Z.of_nat (length mc)) as Hpfn.
  { apply arr_get_Ok in Hslot as [_ Hslot]. apply arr_get_Ok in He as [_ He].
    destruct Hok as [_ Hpfn]. by eapply Hpfn. }
  destruct (decide (to_int m = 1)).
  { apply bind_Ok_inv in Hrun as (pt1 & Hpt1 & [= <- <- _]).
    split; [|done]. eapply pte_store_ok; [exact Hok | | exact Hpt1]. done. }
  destruct (decide (to_int m > 1)); [|by injection Hrun as <- <- _].
  apply bind_Ok_inv in Hrun as (found & Hfound & Hrun).
  destruct found as [i|]; [|by injection Hrun as <- <- _].
  apply find_free_frame_Some in Hfound as (Hi & Hi0 & _).
  rewrite Hi0 in Hrun. simpl in Hrun.
  rewrite (arr_set_Ok _ _ _ _ Hi0) in Hrun. simpl in Hrun.
  apply bind_Ok_inv in Hrun as (pt1 & Hpt1 & [= <- <- _]).
  split; [|apply length_insert].
  apply (pt_ok_length _ mc); [by rewrite length_insert|].
  eapply pte_store_ok; [exact Hok | | exact Hpt1].
  simpl. intros _.
  rewrite to_uint_small by (unfold UINT_MOD, INT_MAX in *; lia). lia.
Qed.

(** Storing a well-formed page table back keeps the state well formed. *)
Lemma store_pagetable_wf (s : state) (a : nat) (pt' : pagetable)
    (mc' : list Z) :
  wf_state s → pt_ok pt' mc' → length mc' = length (mapcounts s) →
  wf_state (store_pagetable s a pt' mc').
Proof.
  intros (Hlen & Hcur & Hptbr & Hpts & Hlinks) Hok Hl.
  assert (∀ b, is_Some (heap s !! b) →
    is_Some (alter (set_pagetable pt') a (heap s) !! b)) as Hsome.
  { intros b [q Hq]. destruct (decide (a = b)) as [->|Hne].
    - rewrite list_lookup_alter_eq, Hq. by eexists.
    - rewrite list_lookup_alter_ne, Hq by done. by eexists. }
  assert (∀ r, get_list (store_pagetable s a pt' mc') r = get_list s r) as Hget.
  { intros [|b]; simpl; [done|]. destruct (decide (a = b)) as [->|Hne].
    - rewrite list_lookup_alter_eq. by destruct (heap s !! b).
    - by rewrite list_lookup_alter_ne. }
  split_and!.
  - simpl. by rewrite Hl.
  - by apply Hsome.
  - intros b Hb. by apply Hsome, Hptbr.
  - simpl. intros b q Hq. destruct (decide (a = b)) as [->|Hne].
    + rewrite list_lookup_alter_eq in Hq.
      destruct (heap s !! b); [|done]. by injection Hq as <-.
    + rewrite list_lookup_alter_ne in Hq by done.
      apply (pt_ok_length _ (mapcounts s)); [done | eauto].
  - intros r l. rewrite !Hget. apply Hlinks.
Qed.

Lemma alloc_page_wf (new_pd : pte_directory) (s s' : state) (vpn rw r : Z) :
  vm_h_ok Hvm → wf_state s → block_ok new_pd (mapcounts s) →
  alloc_page new_pd s vpn rw = Ok (s', r) → wf_state s'.
Proof.
  intros Hok Hwf Hnew. unfold alloc_page, pagetable_at.
  intros (pt & (p & Hp & [= <-])%bind_Ok_inv & Hrun)%bind_Ok_inv.
  apply bind_Ok_inv in Hrun as ([[pt' mc'] r'] & Hin & [= <- _]).
  destruct (heap s !! current s) as [p0|] eqn:Hp0; [|done].
  injection Hp as <-.
  pose proof Hwf as (Hlen & _ & _ & Hpts & _).
  destruct (alloc_page_in_ok _ _ _ _ _ _ _ _ Hok Hlen (Hpts _ _ Hp0) Hnew Hin).
  by apply store_pagetable_wf.
Qed.

Lemma free_page_wf (s s' : state) (vpn : Z) :
  wf_state s → free_page s vpn = Ok s' → wf_state s'.
Proof.
  intros Hwf. unfold free_page, pagetable_at.
  intros (pt & (p & Hp & [= <-])%bind_Ok_inv & Hrun)%bind_Ok_inv.
  apply bind_Ok_inv in Hrun as ([pt' mc'] & Hin & [= <-]).
  destruct (heap s !! current s) as [p0|] eqn:Hp0; [|done].
  injection Hp as <-.
  pose proof Hwf as (_ & _ & _ & Hpts & _).
  destruct (free_page_in_ok _ _ _ _ _ (Hpts _ _ Hp0) Hin).
  by apply store_pagetable_wf.
Qed.

Lemma handle_page_fault_wf (s s' : state) (vpn rw : Z) (r : bool) :
  vm_h_ok Hvm → wf_state s →
  handle_page_fault s vpn rw = Ok (s', r) → wf_state s'.
Proof.
  intros Hok Hwf. unfold handle_page_fault, pagetable_at.
  destruct (ptbr s) as [a|]; [|by intros [= <- _]].
  intros (pt & (p & Hp & [= <-])%bind_Ok_inv & Hrun)%bind_Ok_inv.
  apply bind_Ok_inv in Hrun as ([[pt' mc'] r'] & Hin & [= <- _]).
  destruct (heap s !! a) as [p0|] eqn:Hp0; [|done].
  injection Hp as <-.
  pose proof Hwf as (Hlen & _ & _ & Hpts & _).
  destruct (handle_page_fault_in_ok _ _ _ _ _ _ _ Hok Hlen (Hpts _ _ Hp0) Hin).
  by apply store_pagetable_wf.
Qed.

Lemma find_process_Some (fuel : nat) (s : state) (pos : list_ref) (id : Z)
    (a : nat) :
  find_process fuel s pos id = Ok (Some a) → is_Some (heap s !! a).
Proof.
  revert pos. induction fuel as [|fuel IH]; intros [|b]; simpl; try done.
  destruct (heap s !! b) as [q|] eqn:Hq; [|done]. simpl.
  destruct (decide (pid q = id)); [|by apply IH].
  intros [= <-]. by eexists.
Qed.

Lemma cow_slots_ok (pt : pagetable) (mc : list Z) :
  pt_ok pt mc → pt_ok (PT (cow_slot <$> outer_ptes pt)) mc.
Proof.
  intros [[Hlen Hwf] Hpfn]. split; [split|]; simpl.
  - by rewrite length_fmap.
  - intros i pd. rewrite list_lookup_fmap.
    destruct (outer_ptes pt !! i) as [[d|]|] eqn:Hd; try done.
    intros [= <-]. unfold wf_pte_directory. simpl. rewrite length_fmap.
    by eapply Hwf.
  - intros i pd j e. simpl. rewrite list_lookup_fmap.
    destruct (outer_ptes pt !! i) as [[d|]|] eqn:Hd; try done.
    intros [= <-]. simpl. rewrite list_lookup_fmap.
    destruct (ptes d !! j) as [e0|] eqn:He0; [|done].
    intros [= <-]. unfold cow_pte.
    destruct (valid e0) eqn:Hv0; simpl; [|by rewrite Hv0].
    intros _. by eapply Hpfn.
Qed.

Lemma child_slots_ok (new_pds : Z → pte_directory) (pt : pagetable)
    (fr c : list (option pte_directory)) (mc : list Z) :
  pt_ok pt mc → pt_ok (PT fr) mc → (∀ i, block_ok (new_pds i) mc) →
  length c = Z.to_nat NR_PTES_PER_PAGE →
  (∀ k slot, outer_ptes pt !! k = Some slot →
     c !! k = child_slot new_pds k slot <$> fr !! k) →
  pt_ok (PT c) mc.
Proof.
  intros [[Hlen Hwf] Hpfn] [[Hflen Hfwf] Hfpfn] Hnew Hclen Hc.
  assert (∀ k x, c !! k = Some x →
    ∃ slot f, outer_ptes pt !! k = Some slot ∧ fr !! k = Some f ∧
      x = child_slot new_pds k slot f) as Hinv.
  { intros k x Hx. pose proof (lookup_lt_Some _ _ _ Hx) as Hk.
    destruct (lookup_lt_is_Some_2 (outer_ptes pt) k) as [slot Hslot]; [lia|].
    simpl in Hflen.
    destruct (lookup_lt_is_Some_2 fr k) as [f Hf]; [lia|].
    exists slot, f. split_and!; try done.
    rewrite (Hc _ _ Hslot), Hf in Hx. by injection Hx. }
  split; [split|]; simpl; [done| |].
  - intros k pd (slot & f & Hslot & Hf & Heq)%Hinv.
    destruct slot as [d|]; simpl in Heq.
    + injection Heq as ->. unfold wf_pte_directory. simpl.
      rewrite length_zip_with.
      rewrite (Hwf _ _ Hslot). destruct (Hnew (Z.of_nat k)) as [-> _]. lia.
    + subst f. by eapply Hfwf.
  - intros k pd j e (slot & f & Hslot & Hf & Heq)%Hinv He Hv.
    destruct slot as [d|]; simpl in Heq.
    + injection Heq as ->. simpl in He.
      apply lookup_zip_with_Some in He as (e0 & fe & -> & He0 & Hfe).
      unfold child_pte in *. destruct (valid e0) eqn:Hv0; simpl.
      * by eapply Hpfn.
      * destruct (Hnew (Z.of_nat k)) as [_ Hin]. by eapply Hin.
    + subst f. by eapply Hfpfn.
Qed.

Lemma switch_process_wf (new_p : process) (new_pds : Z → pte_directory)
    (s s' : state) (id : Z) :
  wf_state s →
  pt_ok (p_pagetable new_p) (mapcounts s) →
  (∀ i, block_ok (new_pds i) (mapcounts s)) →
  switch_process new_p new_pds s id = Ok s' → wf_state s'.
Proof.
  intros (Hlen & [parent Hparent] & Hptbr & Hpts & Hlinks) Hfresh Hnew Hrun.
  destruct (find_process (length (heap s)) s (next (processes s)) id)
    as [[a|]|] eqn:Hfind.
  - (* a process of the queue has the pid *)
    unfold switch_process in Hrun. rewrite Hfind in Hrun. simpl in Hrun.
    destruct (find_process_Some _ _ _ _ _ Hfind) as [q Hq].
    rewrite Hq in Hrun. injection Hrun as <-.
    split_and!; simpl; try done.
    + intros b [= <-]. by eexists.
    + intros r l Hr.
      assert (∀ r0, get_list
        {| heap := heap s;
           processes := {| next := next (p_list q); prev := prev (p_list q) |};
           current := a; ptbr := Some a; mapcounts := mapcounts s |} r0
        = match r0 with Head => Ok {| next := next (p_list q);
                                      prev := prev (p_list q) |}
                      | Node _ => get_list s r0 end) as Hget
        by (by intros [|b]).
      rewrite Hget in Hr.
      assert ((∃ x, get_list s (next l) = Ok x) ∧
              (∃ x, get_list s (prev l) = Ok x)) as [[x Hx] [y Hy]].
      { destruct r as [|b]; [|by apply (Hlinks (Node b))].
        injection Hr as <-. apply (Hlinks (Node a) (p_list q)).
        simpl. by rewrite Hq. }
      rewrite !Hget. split.
      * destruct (next l); [by eexists | by exists x].
      * destruct (prev l); [by eexists | by exists y].
  - (* no process has it: the fork *)
    destruct (Hlinks Head (processes s) eq_refl) as [_ [x Hx]].
    destruct (Hpts _ _ Hparent) as [Hwf Hpfn].
    destruct Hfresh as [[Hflen Hfwf] Hfpfn].
    destruct (fork_run new_p new_pds s id parent x)
      as (s1 & c & Hrun1 & Hcur & Hpt & Hlen1 & Hmc & Hpid & _ & Hchild & Hclen
          & Hc & Hpar & Hother & Hgp & Hget); try done.
    { intros i. apply Hnew. }
    rewrite Hrun in Hrun1. injection Hrun1 as <-.
    set (p := length (heap s)) in *.
    assert (length (mapcounts s') = length (mapcounts s)) as Hl
      by (rewrite Hmc; apply length_foldl_bump_slot).
    assert (is_Some (heap s' !! p)) as Hp.
    { destruct (heap s' !! p); [by eexists | done]. }
    assert (∀ r y, get_list s r = Ok y → ∃ y', get_list s' r = Ok y') as Hkeep.
    { intros r y Hy. eexists. apply (Hget r y); [|done].
      intros ->. simpl in Hy. unfold p in Hy.
      by rewrite lookup_ge_None_2 in Hy. }
    split_and!.
    + by rewrite Hl.
    + by rewrite Hcur.
    + intros b Hb. rewrite Hpt in Hb. by injection Hb as <-.
    + intros b q Hq.
      assert (pagetable_at s' b = Ok (p_pagetable q)) as Hb
        by (unfold pagetable_at; by rewrite Hq).
      apply (pt_ok_length _ (mapcounts s)); [done|].
      pose proof (lookup_lt_Some _ _ _ Hq) as Hlt. rewrite Hlen1 in Hlt.
      destruct (decide (b = p)) as [->|Hbp].
      * rewrite Hchild in Hb. injection Hb as <-.
        apply (child_slots_ok new_pds (p_pagetable parent)
                 (outer_ptes (p_pagetable new_p))); done.
      * destruct (decide (b = current s)) as [->|Hbc].
        -- rewrite Hpar in Hb. injection Hb as <-. by apply cow_slots_ok.
        -- rewrite Hother in Hb by (done || lia). unfold pagetable_at in Hb.
           destruct (heap s !! b) as [q0|] eqn:Hq0; [|done].
           injection Hb as <-. eauto.
    + intros r l Hr.
      destruct (decide (r = Node p)) as [->|Hrp].
      * rewrite Hgp in Hr. injection Hr as <-. simpl. split.
        -- by eexists.
        -- by eapply Hkeep.
      * assert (∃ y, get_list s r = Ok y) as [y Hy].
        { destruct r as [|b]; [by eexists|]. simpl in *.
          destruct (heap s' !! b) as [q|] eqn:Hq; [|done].
          pose proof (lookup_lt_Some _ _ _ Hq) as Hlt. rewrite Hlen1 in Hlt.
          destruct (lookup_lt_is_Some_2 (heap s) b) as [q0 ->];
            [fold p; assert (b ≠ p) by congruence; lia|].
          by eexists. }
        rewrite (Hget r y Hrp Hy) in Hr. injection Hr as <-.
        destruct (Hlinks r y Hy) as [[xn Hxn] [xp Hxp]]. simpl. split.
        -- case_decide; [eexists; exact Hgp | by eapply Hkeep].
        -- case_decide; [eexists; exact Hgp | by eapply Hkeep].
  - (* the traversal does not end *)
    unfold switch_process in Hrun. by rewrite Hfind in Hrun.
Qed.

Lemma zero_pt_ok (mc : list Z) : pt_ok zero_pt mc.
Proof.
  split; [split|]; simpl.
  - apply length_replicate.
  - by intros i pd [? _]%lookup_replicate.
  - by intros i d j e [? _]%lookup_replicate.
Qed.

Lemma boot_wf : wf_state boot.
Proof.
  split_and!; simpl.
  - apply length_replicate.
  - by eexists.
  - intros a [= <-]. by eexists.
  - intros [|a] p; [|done]. intros [= <-]. apply zero_pt_ok.
  - intros [|[|a]] l; simpl; [| |done]; intros [= <-]; simpl;
      split; by eexists.
Qed.

Lemma run_call_wf (s s' : state) (c : call) :
  vm_h_ok Hvm → wf_state s → run_call s c = Ok s' → wf_state s'.
Proof.
  intros Hok Hwf. destruct c as [vpn rw|vpn|vpn rw|id]; simpl.
  - destruct (alloc_page zero_pd s vpn rw) as [[s1 r]|] eqn:Hrun; [|done].
    intros [= <-]. eapply alloc_page_wf; [done | done | | exact Hrun].
    apply zero_pd_ok.
  - by apply free_page_wf.
  - destruct (handle_page_fault s vpn rw) as [[s1 r]|] eqn:Hrun; [|done].
    intros [= <-]. by eapply handle_page_fault_wf.
  - apply switch_process_wf; [done | apply zero_pt_ok |].
    intros i. apply zero_pd_ok.
Qed.

(** Every state that a run of the driver reaches is well formed: the
    premises of the theorems on the four functions hold in all of them. *)
Lemma run_wf (cs : list call) (s s' : state) :
  vm_h_ok Hvm → wf_state s → run s cs = Ok s' → wf_state s'.
Proof.
  intros Hok. revert s. induction cs as [|c cs IH]; intros s Hwf; simpl.
  - by intros [= <-].
  - intros (s1 & Hc & Hrun)%bind_Ok_inv.
    apply (IH s1); [|done]. by eapply run_call_wf.
Qed.

(** *** The executable checks are sound *)

Lemma forallb_lookup {A : Type} (f : A → bool) (l : list A) (i : nat) (x : A) :
  forallb f l = true → l !! i = Some x → f x = true.
Proof.
  intros Hall Hx. rewrite forallb_forall in Hall. apply Hall.
  apply list_elem_of_In. by eapply list_elem_of_lookup_2.
Qed.

Lemma wf_pagetableb_true (pt : pagetable) :
  wf_pagetableb pt = true → wf_pagetable pt.
Proof.
  unfold wf_pagetableb. intros [Hlen Hall]%andb_prop. split.
  - by apply bool_decide_eq_true in Hlen.
  - intros i pd Hpd. pose proof (forallb_lookup _ _ _ _ Hall Hpd) as Hb.
    by apply bool_decide_eq_true in Hb.
Qed.

Lemma pfns_okb_true (pt : pagetable) (mc : list Z) :
  pfns_okb pt mc = true → pfns_ok pt mc.
Proof.
  unfold pfns_okb. intros Hall i d j e Hd He Hv.
  pose proof (forallb_lookup _ _ _ _ Hall Hd) as Hin. simpl in Hin.
  pose proof (forallb_lookup _ _ _ _ Hin He) as Hb. simpl in Hb.
  rewrite Hv in Hb. simpl in Hb. by apply bool_decide_eq_true in Hb.
Qed.

Lemma refcount_consistentb_true (s : state) :
  refcount_consistentb s = true → refcount_consistent s.
Proof.
  unfold refcount_consistentb. intros Hall f Hf.
  assert (seq 0 (Z.to_nat NR_PAGEFRAMES) !! Z.to_nat f = Some (Z.to_nat f))
    as Hk by (apply lookup_seq; lia).
  pose proof (forallb_lookup _ _ _ _ Hall Hk) as Hb. simpl in Hb.
  apply bool_decide_eq_true in Hb. by rewrite Z2Nat.id in Hb by lia.
Qed.

(** *** [free_page] *)

(** C8. Degenerate free: when the frame stored in the entry of [vpn] has
    reference count 0, [free_page] returns without changing anything: the
    entry, the inner table and every reference count are as before. *)
Theorem free_page_zero_count_noop (s : state) (p : process) (vpn : Z) (e : pte) :
  heap s !! current s = Some p →
  pte_at (p_pagetable p) (vpn / NR_PTES_PER_PAGE) (vpn mod NR_PTES_PER_PAGE)
    = Ok e →
  arr_get (mapcounts s) (pfn e) = Ok 0 →
  free_page s vpn = Ok s.
Proof.
  intros Hp He Hm. unfold free_page, pagetable_at. rewrite Hp. simpl.
  unfold free_page_in. rewrite He. simpl. rewrite Hm. simpl.
  by rewrite store_pagetable_id.
Qed.

(** C9. [free_page] reads the entry through the directory slot without
    testing the slot: when the slot of [vpn] is [NULL] the call dereferences
    a null pointer, and so does not return as a no-op would. *)
Theorem free_page_absent_slot (s : state) (p : process) (vpn : Z) :
  heap s !! current s = Some p →
  arr_get (outer_ptes (p_pagetable p)) (vpn / NR_PTES_PER_PAGE) = Ok None →
  free_page s vpn = Stuck NullDeref ∧ free_page s vpn ≠ Ok s.
Proof.
  intros Hp Hslot.
  assert (free_page s vpn = Stuck NullDeref) as ->; [|done].
  unfold free_page, pagetable_at. rewrite Hp. simpl.
  unfold free_page_in, pte_at. rewrite Hslot. reflexivity.
Qed.

(** The scan of [free_page] for a valid entry ends at the size of the table
    exactly when every entry from [i] on is invalid. *)
Lemma first_valid_spec (n i : nat) (es : list pte) :
  length es = (i + n)%nat →
  ∃ k, first_valid n (Z.of_nat i) (PD es) = Ok k ∧
    (k = Z.of_nat (i + n) ↔
     forallb (λ e, negb (valid e)) (drop i es) = true).
Proof.
  revert i. induction n as [|n IH]; intros i Hlen; simpl.
  - exists (Z.of_nat i). split; [done|].
    rewrite drop_ge by lia. simpl. split; [done | intros _; f_equal; lia].
  - destruct (lookup_lt_is_Some_2 es i) as [e He]; [lia|].
    rewrite (arr_get_nat _ _ _ He). simpl.
    rewrite (drop_S _ _ _ He). simpl.
    destruct (valid e) eqn:Hv; simpl.
    + exists (Z.of_nat i). split; [done|]. split; [lia | done].
    + destruct (IH (S i)) as (k & Hk & Hiff); [lia|].
      exists k. replace (Z.of_nat i + 1) with (Z.of_nat (S i)) by lia.
      split; [done|]. rewrite <- Hiff. split; intros ->; f_equal; lia.
Qed.

(** C10. [free_page] does not read the valid bit.  For an invalid entry
    whose stored frame has a reference count that is not 0, it decrements
    that count all the same and clears the entry again (after which the
    inner table is released if it holds no valid entry). *)
Theorem free_page_invalid_entry
    (s : state) (p : process) (vpn : Z) (pd : pte_directory) (e : pte) (m : Z) :
  vm_h_ok Hvm →
  heap s !! current s = Some p →
  arr_get (outer_ptes (p_pagetable p)) (vpn / NR_PTES_PER_PAGE)
    = Ok (Some pd) →
  wf_pte_directory pd →
  arr_get (ptes pd) (vpn mod NR_PTES_PER_PAGE) = Ok e →
  valid e = false →
  arr_get (mapcounts s) (pfn e) = Ok m → 0 < m < UINT_MOD →
  let cleared :=
    <[Z.to_nat (vpn mod NR_PTES_PER_PAGE) :=
        {| valid := false; writable := false; pfn := 0; private := 0 |}]>
      (ptes pd) in
  free_page s vpn =
    Ok (store_pagetable s (current s)
          (PT (<[Z.to_nat (vpn / NR_PTES_PER_PAGE) :=
                   if forallb (λ e, negb (valid e)) cleared then None
                   else Some (PD cleared)]>
                 (outer_ptes (p_pagetable p))))
          (<[Z.to_nat (pfn e) := m - 1]> (mapcounts s))).
Proof.
  intros [Hn _ _ _] Hp Hpd Hwf He Hv Hm Hrange cleared.
  unfold free_page, pagetable_at. rewrite Hp. simpl.
  unfold free_page_in, pte_at. rewrite Hpd. simpl. rewrite He. simpl.
  rewrite Hm. simpl.
  assert (to_uint m = m) as Hum by (apply to_uint_small; lia).
  destruct (decide (to_int m = 0)) as [Hz|_].
  { unfold to_int in Hz. rewrite Hum in Hz.
    destruct (decide (m <= INT_MAX)); unfold UINT_MOD in *; lia. }
  rewrite (arr_set_Ok _ _ _ _ Hm). simpl.
  rewrite to_uint_small by lia.
  erewrite pte_store_Ok by done. simpl.
  pose proof Hpd as [Hi Hlook]%arr_get_Ok.
  assert (Z.to_nat (vpn / NR_PTES_PER_PAGE)
            < length (outer_ptes (p_pagetable p)))%nat as Hlt
    by (by eapply lookup_lt_Some).
  fold cleared.
  assert (arr_get
            (<[Z.to_nat (vpn / NR_PTES_PER_PAGE) := Some (PD cleared)]>
               (outer_ptes (p_pagetable p))) (vpn / NR_PTES_PER_PAGE)
          = Ok (Some (PD cleared))) as Hslot.
  { apply arr_get_Ok. split; [done|]. by apply list_lookup_insert_eq. }
  rewrite Hslot. simpl.
  destruct (first_valid_spec (Z.to_nat NR_PTES_PER_PAGE) 0 cleared)
    as (k & Hk & Hiff).
  { unfold cleared. rewrite length_insert. exact Hwf. }
  change (Z.of_nat 0) with 0 in Hk. rewrite Hk. simpl.
  rewrite drop_0, Nat.add_0_l, Z2Nat.id in Hiff by lia.
  destruct (decide (k = NR_PTES_PER_PAGE)) as [Hall|Hsome].
  - apply Hiff in Hall. rewrite Hall.
    rewrite (arr_set_Ok _ _ _ _ Hslot). simpl.
    by rewrite list_insert_insert_eq.
  - destruct (forallb _ cleared) eqn:Hf; [|done].
    exfalso. apply Hsome. by apply Hiff.
Qed.

(** *** [handle_page_fault] *)

(** C7. Protection violation: when the entry of [vpn] is valid and its
    original-permission tag is read-only, [handle_page_fault] returns false
    and the whole state (the entry and every reference count) is unchanged. *)
Theorem handle_page_fault_protection_violation
    (s : state) (a : nat) (p : process) (vpn rw : Z) (e : pte) :
  vm_h_ok Hvm → vpn_ok vpn →
  ptbr s = Some a → heap s !! a = Some p →
  pte_at (p_pagetable p) (vpn / NR_PTES_PER_PAGE) (vpn mod NR_PTES_PER_PAGE)
    = Ok e →
  valid e = true → private e = RW_READ →
  handle_page_fault s vpn rw = Ok (s, false).
Proof.
  intros Hok Hvpn Hptbr Hp He Hv Hro.
  apply pte_at_inv in He as (pd & Hpd & He).
  unfold handle_page_fault, pagetable_at. rewrite Hptbr, Hp. simpl.
  unfold handle_page_fault_in.
  rewrite to_int_pd_index, to_int_pte_index by done.
  rewrite Hpd. simpl. rewrite He. simpl. rewrite Hv. simpl.
  destruct (decide (private e = RW_READ)); [|done]. simpl.
  by rewrite store_pagetable_id.
Qed.

(** C3. Copy-on-write resolution, for a valid entry whose
    original-permission tag includes write.  With exactly one mapping of the
    frame, the handler only sets the entry's writable bit (the entry stored
    is valid and writable, with the frame and the tag it had) and returns
    true, the reference counts being untouched.  With more than one, it
    takes the lowest free frame [i], counts it once, rewrites the frame
    field of this entry to [i] and sets writable (the entry stored is valid
    and writable, with frame [i] and the tag it had), returns true, and the
    count of the old frame is what it was; when no frame is free it returns
    false and changes nothing.  In both cases of success the entry stored is
    the one read back for the page.  The count [m] is read into an [int]. *)
Theorem handle_page_fault_cow
    (s : state) (a : nat) (p : process) (vpn rw : Z) (e : pte) (m : Z) :
  vm_h_ok Hvm → vpn_ok vpn →
  ptbr s = Some a → heap s !! a = Some p →
  length (mapcounts s) = Z.to_nat NR_PAGEFRAMES →
  pte_at (p_pagetable p) (vpn / NR_PTES_PER_PAGE) (vpn mod NR_PTES_PER_PAGE)
    = Ok e →
  valid e = true → Z.land (private e) RW_WRITE ≠ 0 →
  arr_get (mapcounts s) (pfn e) = Ok m → m <= INT_MAX →
  (m = 1 →
     ∃ pt', pte_store (p_pagetable p) (vpn / NR_PTES_PER_PAGE)
              (vpn mod NR_PTES_PER_PAGE)
              {| valid := true; writable := true;
                 pfn := pfn e; private := private e |} = Ok pt' ∧
       handle_page_fault s vpn rw
         = Ok (store_pagetable s a pt' (mapcounts s), true) ∧
       pte_of (store_pagetable s a pt' (mapcounts s)) a vpn
         = Ok {| valid := true; writable := true;
                 pfn := pfn e; private := private e |})
  ∧ (1 < m → ∀ i, 0 <= i < NR_PAGEFRAMES →
       mapcounts s !! Z.to_nat i = Some 0 →
       (∀ j, 0 <= j < i → mapcounts s !! Z.to_nat j ≠ Some 0) →
       ∃ pt', pte_store (p_pagetable p) (vpn / NR_PTES_PER_PAGE)
                (vpn mod NR_PTES_PER_PAGE)
                {| valid := true; writable := true;
                   pfn := i; private := private e |} = Ok pt' ∧
         handle_page_fault s vpn rw
           = Ok (store_pagetable s a pt' (<[Z.to_nat i := 1]> (mapcounts s)),
                 true) ∧
         pte_of (store_pagetable s a pt' (<[Z.to_nat i := 1]> (mapcounts s)))
             a vpn
           = Ok {| valid := true; writable := true;
                   pfn := i; private := private e |} ∧
         <[Z.to_nat i := 1]> (mapcounts s) !! Z.to_nat (pfn e) = Some m)
  ∧ (1 < m →
       (∀ j, 0 <= j < NR_PAGEFRAMES → mapcounts s !! Z.to_nat j ≠ Some 0) →
       handle_page_fault s vpn rw = Ok (s, false)).
Proof.
  intros Hok Hvpn Hptbr Hp Hlen He Hv Hw Hm Hmax.
  pose proof Hok as [Hn Hf Hr Hrw].
  assert (∀ w f, {| valid := true; writable := w; pfn := f;
                    private := private e |}
                 = set_pfn f (set_writable w e)) as Hentry
    by (intros w f; unfold set_pfn, set_writable; simpl; by rewrite Hv).
  assert (set_pfn (pfn e) (set_writable true e) = set_writable true e)
    as Hsame by done.
  assert (∀ pt' mc' e', pte_store (p_pagetable p) (vpn / NR_PTES_PER_PAGE)
            (vpn mod NR_PTES_PER_PAGE) e' = Ok pt' →
          pte_of (store_pagetable s a pt' mc') a vpn = Ok e') as Hread.
  { intros pt' mc' e' Hst. unfold pte_of, pagetable_at. simpl.
    rewrite list_lookup_alter_eq, Hp. simpl. by eapply pte_at_pte_store. }
  apply pte_at_inv in He as (pd & Hpd & He).
  assert (private e ≠ RW_READ) as Htag.
  { intros Heq. rewrite Heq in Hw. contradiction. }
  pose proof (arr_get_lt _ _ _ Hm) as Hpfn. rewrite Hlen in Hpfn.
  assert (to_int (pfn e) = pfn e) as Hipfn by (apply to_int_small; lia).
  unfold handle_page_fault, pagetable_at. rewrite Hptbr, Hp. simpl.
  unfold handle_page_fault_in.
  rewrite to_int_pd_index, to_int_pte_index by done.
  rewrite Hpd. simpl. rewrite He. simpl. rewrite Hv. simpl.
  destruct (decide (private e = RW_READ)); [done|].
  rewrite Hipfn, Hm. simpl.
  split; [|split].
  - intros ->.
    eexists. split; [by eapply pte_store_Ok|].
    rewrite (to_int_small 1) by (unfold INT_MAX; lia).
    destruct (decide (1 = 1)); [|done].
    erewrite pte_store_Ok by done.
    rewrite !(Hentry true (pfn e)), !Hsame. split; [reflexivity|].
    apply Hread. by eapply pte_store_Ok.
  - intros Hgt i Hi Hfree Hlow.
    assert (to_int m = m) as -> by (apply to_int_small; lia).
    destruct (decide (m = 1)); [lia|]. destruct (decide (m > 1)); [|lia].
    assert (arr_get (mapcounts s) i = Ok 0) as Hi0
      by (apply arr_get_Ok; split; [lia | done]).
    rewrite (find_free_frame_first _ 0 i); [|lia|done|]; last first.
    { intros j Hj. apply mapcounts_nonzero; [done | lia | apply Hlow; lia]. }
    simpl. rewrite Hi0. simpl. rewrite (arr_set_Ok _ _ _ _ Hi0). simpl.
    assert (to_uint i = i) as ->
      by (apply to_uint_small; unfold UINT_MOD, INT_MAX in *; lia).
    change (to_uint (0 + 1)) with 1.
    eexists. split; [by eapply pte_store_Ok|].
    erewrite pte_store_Ok by done. simpl. rewrite !(Hentry true i).
    split; [done|].
    split; [apply Hread; by eapply pte_store_Ok|].
    rewrite list_lookup_insert_ne.
    + by apply arr_get_Ok in Hm as [_ ?].
    + intros Heq. apply arr_get_Ok in Hm as [? Hm'].
      rewrite <- Heq, Hfree in Hm'. injection Hm' as <-. lia.
  - intros Hgt Hfull.
    assert (to_int m = m) as -> by (apply to_int_small; lia).
    destruct (decide (m = 1)); [lia|]. destruct (decide (m > 1)); [|lia].
    rewrite find_free_frame_full.
    + simpl. by rewrite store_pagetable_id.
    + intros j Hj. apply mapcounts_nonzero; [done | lia | apply Hfull; lia].
Qed.

(** *** More on [handle_page_fault] *)

(** The two ways [handle_page_fault] ends: it fails and hands back what it
    was given, or it succeeds after rewriting the faulting entry. *)
Lemma handle_page_fault_in_inv (pt pt' : pagetable) (mc mc' : list Z)
    (vpn rw : Z) (r : bool) :
  handle_page_fault_in pt mc vpn rw = Ok (pt', mc', r) →
  (r = false ∧ pt' = pt ∧ mc' = mc) ∨
  (r = true ∧ ∃ e e',
     pte_at pt (to_int (vpn / NR_PTES_PER_PAGE))
       (to_int (vpn mod NR_PTES_PER_PAGE)) = Ok e ∧
     valid e = true ∧ private e ≠ RW_READ ∧
     pte_store pt (to_int (vpn / NR_PTES_PER_PAGE))
       (to_int (vpn mod NR_PTES_PER_PAGE)) e' = Ok pt' ∧
     ((e' = set_writable true e ∧ mc' = mc) ∨
      (∃ k, 0 <= k < NR_PAGEFRAMES ∧ arr_get mc k = Ok 0 ∧
         e' = set_pfn (to_uint k) (set_writable true e) ∧
         mc' = <[Z.to_nat k := 1]> mc))).
Proof.
  unfold handle_page_fault_in.
  intros (slot & Hslot & Hrun)%bind_Ok_inv.
  destruct slot as [d|]; [|injection Hrun as <- <- <-; by left].
  apply bind_Ok_inv in Hrun as (e & He & Hrun).
  destruct (valid e) eqn:Hv; simpl in Hrun;
    [|injection Hrun as <- <- <-; by left].
  destruct (decide (private e = RW_READ));
    [injection Hrun as <- <- <-; by left|].
  apply bind_Ok_inv in Hrun as (m & Hm & Hrun).
  assert (pte_at pt (to_int (vpn / NR_PTES_PER_PAGE))
            (to_int (vpn mod NR_PTES_PER_PAGE)) = Ok e) as Hat.
  { unfold pte_at. rewrite Hslot. simpl. exact He. }
  destruct (decide (to_int m = 1)).
  { apply bind_Ok_inv in Hrun as (pt1 & Hpt1 & [= <- <- <-]).
    right. split; [done|]. exists e, (set_writable true e).
    split_and!; try done. by left. }
  destruct (decide (to_int m > 1)); [|injection Hrun as <- <- <-; by left].
  apply bind_Ok_inv in Hrun as (found & Hfound & Hrun).
  destruct found as [k|]; [|injection Hrun as <- <- <-; by left].
  apply find_free_frame_Some in Hfound as (Hk & Hk0 & _).
  rewrite Hk0 in Hrun. simpl in Hrun.
  rewrite (arr_set_Ok _ _ _ _ Hk0) in Hrun. simpl in Hrun.
  apply bind_Ok_inv in Hrun as (pt1 & Hpt1 & [= <- <- <-]).
  right. split; [done|].
  exists e, (set_pfn (to_uint k) (set_writable true e)).
  split_and!; try done. right. exists k. split_and!; try done; lia.
Qed.

Lemma handle_page_fault_inv (s s' : state) (vpn rw : Z) (r : bool) :
  handle_page_fault s vpn rw = Ok (s', r) →
  (r = false ∧ s' = s) ∨
  ∃ a p pt' mc', ptbr s = Some a ∧ heap s !! a = Some p ∧
    handle_page_fault_in (p_pagetable p) (mapcounts s) vpn rw
      = Ok (pt', mc', r) ∧
    s' = store_pagetable s a pt' mc'.
Proof.
  unfold handle_page_fault, pagetable_at.
  destruct (ptbr s) as [a|] eqn:Hptbr; [|intros [= <- <-]; by left].
  destruct (heap s !! a) as [p|] eqn:Hp; [|done]. simpl.
  intros ([[pt' mc'] r'] & Hin & [= <- <-])%bind_Ok_inv.
  right. by exists a, p, pt', mc'.
Qed.

(** X1. A fault that is not handled changes nothing: whenever
    [handle_page_fault] returns false, the state is the one it was given. *)
Theorem handle_page_fault_failure_changes_nothing
    (s s' : state) (vpn rw : Z) :
  handle_page_fault s vpn rw = Ok (s', false) → s' = s.
Proof.
  intros [[_ ->]|(a & p & pt' & mc' & Hptbr & Hp & Hin & ->)]%handle_page_fault_inv;
    [done|].
  apply handle_page_fault_in_inv in Hin as [(_ & -> & ->)|[? _]]; [|done].
  by apply store_pagetable_id.
Qed.

(** X2. A fault that is handled leaves the entry ready for the write: when
    [handle_page_fault] returns true, the faulting entry was valid with a tag
    other than read-only, and afterwards it is valid and writable with the
    same tag. *)
Theorem handle_page_fault_success_writable
    (s s' : state) (a : nat) (vpn rw : Z) :
  vm_h_ok Hvm → vpn_ok vpn → ptbr s = Some a →
  handle_page_fault s vpn rw = Ok (s', true) →
  ∃ e e', pte_of s a vpn = Ok e ∧ pte_of s' a vpn = Ok e' ∧
    valid e = true ∧ private e ≠ RW_READ ∧
    valid e' = true ∧ writable e' = true ∧ private e' = private e.
Proof.
  intros Hok Hvpn Hptbr
    [[? _]|(a' & p & pt' & mc' & Hptbr' & Hp & Hin & ->)]%handle_page_fault_inv;
    [done|].
  rewrite Hptbr in Hptbr'. injection Hptbr' as <-.
  apply handle_page_fault_in_inv in Hin
    as [[? _]|(_ & e & e' & Hat & Hv & Htag & Hst & Hcase)]; [done|].
  rewrite to_int_pd_index, to_int_pte_index in Hat, Hst by done.
  exists e, e'. unfold pte_of, pagetable_at. simpl.
  rewrite list_lookup_alter_eq, Hp. simpl.
  split_and!; try done.
  - by eapply pte_at_pte_store.
  - by destruct Hcase as [[-> _]|(k & _ & _ & -> & _)].
  - by destruct Hcase as [[-> _]|(k & _ & _ & -> & _)].
  - by destruct Hcase as [[-> _]|(k & _ & _ & -> & _)].
Qed.

(** Two page numbers in range with the same indices are the same. *)
Lemma vpn_indices_inj (vpn vpn' : Z) :
  vm_h_ok Hvm →
  vpn / NR_PTES_PER_PAGE = vpn' / NR_PTES_PER_PAGE →
  vpn mod NR_PTES_PER_PAGE = vpn' mod NR_PTES_PER_PAGE → vpn = vpn'.
Proof.
  intros [Hn _ _ _] Hd Hm.
  rewrite (Z.div_mod vpn NR_PTES_PER_PAGE) by lia.
  rewrite (Z.div_mod vpn' NR_PTES_PER_PAGE) by lia.
  by rewrite Hd, Hm.
Qed.


(** X4. A fault on a page that is not mapped is not handled: with [ptbr]
    unset, with no inner table for the page, or with an invalid entry,
    [handle_page_fault] returns false and the state is unchanged. *)
Theorem handle_page_fault_invalid_mapping (s : state) (vpn rw : Z) :
  vm_h_ok Hvm → vpn_ok vpn →
  (ptbr s = None ∨
   ∃ a p, ptbr s = Some a ∧ heap s !! a = Some p ∧
     (arr_get (outer_ptes (p_pagetable p)) (vpn / NR_PTES_PER_PAGE) = Ok None ∨
      ∃ e, pte_at (p_pagetable p) (vpn / NR_PTES_PER_PAGE)
             (vpn mod NR_PTES_PER_PAGE) = Ok e ∧ valid e = false)) →
  handle_page_fault s vpn rw = Ok (s, false).
Proof.
  intros Hok Hvpn [Hnull|(a & p & Hptbr & Hp & Hcase)];
    unfold handle_page_fault, pagetable_at.
  - by rewrite Hnull.
  - rewrite Hptbr, Hp. simpl. unfold handle_page_fault_in.
    rewrite to_int_pd_index, to_int_pte_index by done.
    destruct Hcase as [Hslot|(e & (d & Hd & He)%pte_at_inv & Hv)].
    + rewrite Hslot. simpl. by rewrite store_pagetable_id.
    + rewrite Hd. simpl. rewrite He. simpl. rewrite Hv. simpl.
      by rewrite store_pagetable_id.
Qed.

(** *** More on [free_page] *)

(** [free_page] on an entry whose frame is counted, valid or not. *)
Lemma free_page_in_run (pt : pagetable) (mc : list Z) (vpn : Z)
    (pd : pte_directory) (e : pte) (m : Z) :
  vm_h_ok Hvm →
  arr_get (outer_ptes pt) (vpn / NR_PTES_PER_PAGE) = Ok (Some pd) →
  wf_pte_directory pd →
  arr_get (ptes pd) (vpn mod NR_PTES_PER_PAGE) = Ok e →
  arr_get mc (pfn e) = Ok m → 0 < m < UINT_MOD →
  free_page_in pt mc vpn =
    Ok (PT (<[Z.to_nat (vpn / NR_PTES_PER_PAGE) :=
                if forallb (λ e, negb (valid e))
                     (<[Z.to_nat (vpn mod NR_PTES_PER_PAGE) := zero_pte]>
                        (ptes pd))
                then None
                else Some (PD (<[Z.to_nat (vpn mod NR_PTES_PER_PAGE)
                                   := zero_pte]> (ptes pd)))]>
              (outer_ptes pt)),
        <[Z.to_nat (pfn e) := m - 1]> mc).
Proof.
  intros [Hn _ _ _] Hpd Hwf He Hm Hrange.
  set (cleared := <[Z.to_nat (vpn mod NR_PTES_PER_PAGE) := zero_pte]> (ptes pd)).
  unfold free_page_in, pte_at. rewrite Hpd. simpl. rewrite He. simpl.
  rewrite Hm. simpl.
  assert (to_uint m = m) as Hum by (apply to_uint_small; lia).
  destruct (decide (to_int m = 0)) as [Hz|_].
  { unfold to_int in Hz. rewrite Hum in Hz.
    destruct (decide (m <= INT_MAX)); unfold UINT_MOD in *; lia. }
  rewrite (arr_set_Ok _ _ _ _ Hm). simpl.
  rewrite to_uint_small by lia.
  erewrite pte_store_Ok by done. simpl.
  pose proof Hpd as [Hi Hlook]%arr_get_Ok.
  assert (Z.to_nat (vpn / NR_PTES_PER_PAGE) < length (outer_ptes pt))%nat
    as Hlt by (by eapply lookup_lt_Some).
  change {| valid := false; writable := false; pfn := 0; private := 0 |}
    with zero_pte.
  fold cleared.
  assert (arr_get
            (<[Z.to_nat (vpn / NR_PTES_PER_PAGE) := Some (PD cleared)]>
               (outer_ptes pt)) (vpn / NR_PTES_PER_PAGE)
          = Ok (Some (PD cleared))) as Hslot.
  { apply arr_get_Ok. split; [done|]. by apply list_lookup_insert_eq. }
  rewrite Hslot. simpl.
  destruct (first_valid_spec (Z.to_nat NR_PTES_PER_PAGE) 0 cleared)
    as (k & Hk & Hiff).
  { unfold cleared. rewrite length_insert. exact Hwf. }
  change (Z.of_nat 0) with 0 in Hk. rewrite Hk. simpl.
  rewrite drop_0, Nat.add_0_l, Z2Nat.id in Hiff by lia.
  destruct (decide (k = NR_PTES_PER_PAGE)) as [Hall|Hsome].
  - apply Hiff in Hall. rewrite Hall.
    rewrite (arr_set_Ok _ _ _ _ Hslot). simpl.
    by rewrite list_insert_insert_eq.
  - destruct (forallb _ cleared) eqn:Hf; [|done].
    exfalso. apply Hsome. by apply Hiff.
Qed.

(** The inner table holds no valid entry once entry [j] is cleared exactly
    when every other entry is invalid. *)
Lemma forallb_cleared (es : list pte) (j : nat) :
  (j < length es)%nat →
  forallb (λ e, negb (valid e)) (<[j := zero_pte]> es) = true ↔
  ∀ k e, k ≠ j → es !! k = Some e → valid e = false.
Proof.
  intros Hj. rewrite forallb_forall. split.
  - intros Hall k e Hk He.
    assert (negb (valid e) = true) as Hb; [|by destruct (valid e)].
    apply Hall, list_elem_of_In, (list_elem_of_lookup_2 _ k).
    by rewrite list_lookup_insert_ne.
  - intros Hall e [k Hk]%list_elem_of_In%list_elem_of_lookup.
    destruct (decide (k = j)) as [->|Hne].
    + rewrite list_lookup_insert_eq in Hk by done. by injection Hk as <-.
    + rewrite list_lookup_insert_ne in Hk by done.
      by rewrite (Hall k e).
Qed.

(** X5. Unmapping a page of a table that keeps another valid entry:
    [free_page] takes one reference from the frame of the entry and no
    other count changes, the entry is cleared (not valid, not writable,
    frame 0, tag 0), and every other entry of the process is as before. *)
Theorem free_page_unmaps
    (s : state) (p : process) (vpn : Z) (pd : pte_directory) (e : pte) (m : Z)
    (k : nat) (e2 : pte) :
  vm_h_ok Hvm → vpn_ok vpn →
  heap s !! current s = Some p →
  arr_get (outer_ptes (p_pagetable p)) (vpn / NR_PTES_PER_PAGE)
    = Ok (Some pd) →
  wf_pte_directory pd →
  arr_get (ptes pd) (vpn mod NR_PTES_PER_PAGE) = Ok e →
  arr_get (mapcounts s) (pfn e) = Ok m → 0 < m < UINT_MOD →
  k ≠ Z.to_nat (vpn mod NR_PTES_PER_PAGE) → ptes pd !! k = Some e2 →
  valid e2 = true →
  ∃ s', free_page s vpn = Ok s' ∧
    mapcounts s' = <[Z.to_nat (pfn e) := m - 1]> (mapcounts s) ∧
    pte_of s' (current s) vpn = Ok zero_pte ∧
    (∀ vpn', vpn_ok vpn' → vpn' ≠ vpn →
       pte_of s' (current s) vpn' = pte_of s (current s) vpn') ∧
    (∀ b, b ≠ current s → heap s' !! b = heap s !! b).
Proof.
  intros Hok Hvpn Hp Hpd Hwf He Hm Hrange Hk He2 Hv2.
  pose proof (pte_store_Ok (p_pagetable p) _ _ _ _ zero_pte Hpd He) as Hst.
  unfold free_page, pagetable_at. rewrite Hp. simpl.
  rewrite (free_page_in_run _ _ _ _ _ _ Hok Hpd Hwf He Hm Hrange). simpl.
  assert (forallb (λ e, negb (valid e))
            (<[Z.to_nat (vpn mod NR_PTES_PER_PAGE) := zero_pte]> (ptes pd))
          = false) as ->.
  { apply not_true_is_false. intros Hall.
    apply arr_get_lt in He.
    assert (Z.to_nat (vpn mod NR_PTES_PER_PAGE) < length (ptes pd))%nat
      as Hlt by lia.
    pose proof (proj1 (forallb_cleared _ _ Hlt) Hall k e2 Hk He2) as Hv.
    by rewrite Hv in Hv2. }
  eexists. split; [reflexivity|]. simpl.
  split_and!; try done.
  - unfold pte_of, pagetable_at. simpl.
    rewrite list_lookup_alter_eq, Hp. simpl. by eapply pte_at_pte_store.
  - intros vpn' Hvpn' Hne. unfold pte_of, pagetable_at. simpl.
    rewrite list_lookup_alter_eq, Hp. simpl.
    eapply pte_at_pte_store_ne; [exact Hst | | |].
    + by apply pd_index_range.
    + by apply pte_index_range.
    + intros [= Hd Hmod]. apply Hne. by apply vpn_indices_inj.
  - intros b Hb. by rewrite list_lookup_alter_ne.
Qed.

(** X6. Table reclamation: when the entry freed was the last one of its
    inner table that could be valid (every other entry is invalid),
    [free_page] takes one reference from the frame and releases the table:
    the directory slot is [NULL] afterwards and the other slots are as
    before. *)
Theorem free_page_reclaims_table
    (s : state) (p : process) (vpn : Z) (pd : pte_directory) (e : pte) (m : Z) :
  vm_h_ok Hvm →
  heap s !! current s = Some p →
  arr_get (outer_ptes (p_pagetable p)) (vpn / NR_PTES_PER_PAGE)
    = Ok (Some pd) →
  wf_pte_directory pd →
  arr_get (ptes pd) (vpn mod NR_PTES_PER_PAGE) = Ok e →
  arr_get (mapcounts s) (pfn e) = Ok m → 0 < m < UINT_MOD →
  (∀ k e2, k ≠ Z.to_nat (vpn mod NR_PTES_PER_PAGE) → ptes pd !! k = Some e2 →
     valid e2 = false) →
  ∃ s' p', free_page s vpn = Ok s' ∧
    mapcounts s' = <[Z.to_nat (pfn e) := m - 1]> (mapcounts s) ∧
    heap s' !! current s = Some p' ∧
    outer_ptes (p_pagetable p')
      = <[Z.to_nat (vpn / NR_PTES_PER_PAGE) := None]>
          (outer_ptes (p_pagetable p)) ∧
    arr_get (outer_ptes (p_pagetable p')) (vpn / NR_PTES_PER_PAGE) = Ok None.
Proof.
  intros Hok Hp Hpd Hwf He Hm Hrange Hall.
  unfold free_page, pagetable_at. rewrite Hp. simpl.
  rewrite (free_page_in_run _ _ _ _ _ _ Hok Hpd Hwf He Hm Hrange). simpl.
  assert (forallb (λ e, negb (valid e))
            (<[Z.to_nat (vpn mod NR_PTES_PER_PAGE) := zero_pte]> (ptes pd))
          = true) as ->.
  { apply arr_get_lt in He. apply forallb_cleared; [lia | done]. }
  eexists _, _. split; [reflexivity|]. simpl.
  rewrite list_lookup_alter_eq, Hp. simpl.
  split_and!; try done.
  apply arr_get_Ok in Hpd as [Hi Hpd]. apply arr_get_Ok. split; [done|].
  apply list_lookup_insert_eq. by eapply lookup_lt_Some.
Qed.

(** *** More on [alloc_page] *)

(** [alloc_page] when a frame is free, in full. *)
Lemma alloc_page_in_found (new_pd : pte_directory) (pt : pagetable)
    (mc : list Z) (vpn rw : Z) (slot : option pte_directory) (k : Z) :
  vm_h_ok Hvm → vpn_ok vpn → wf_pagetable pt → wf_pte_directory new_pd →
  arr_get (outer_ptes pt) (vpn / NR_PTES_PER_PAGE) = Ok slot →
  find_free_frame (Z.to_nat NR_PAGEFRAMES) 0 mc = Ok (Some k) →
  alloc_page_in new_pd pt mc vpn rw =
    Ok (PT (<[Z.to_nat (vpn / NR_PTES_PER_PAGE) :=
                Some (PD (<[Z.to_nat (vpn mod NR_PTES_PER_PAGE) :=
                              {| valid := true;
                                 writable :=
                                   bool_decide (rw = Z.lor RW_READ RW_WRITE);
                                 pfn := k;
                                 private := rw |}]>
                            (ptes (default new_pd slot))))]>
              (outer_ptes pt)),
        <[Z.to_nat k := 1]> mc, k).
Proof.
  intros Hok Hvpn Hwf Hnew Hget Hfound.
  pose proof (pd_index_range vpn Hok Hvpn) as Hi.
  pose proof (pte_index_range vpn Hok) as Hj.
  destruct Hok as [Hn Hf _ _].
  pose proof Hget as [_ Hslot]%arr_get_Ok.
  pose proof (lookup_lt_Some _ _ _ Hslot) as Hilt.
  unfold alloc_page_in. rewrite Hget. simpl.
  apply find_free_frame_Some in Hfound as Hk. destruct Hk as (Hk & Hk0 & _).
  assert (to_uint k = k) as Huk
    by (apply to_uint_small; unfold UINT_MOD, INT_MAX in *; lia).
  assert (wf_pte_directory (default new_pd slot)) as Hwf1.
  { destruct slot as [pd|]; simpl; [|done]. destruct Hwf as [_ Hin]. eauto. }
  destruct (lookup_lt_is_Some_2 (ptes (default new_pd slot))
              (Z.to_nat (vpn mod NR_PTES_PER_PAGE))) as [e0 He0];
    [rewrite Hwf1; lia|].
  assert (arr_get (ptes (default new_pd slot)) (vpn mod NR_PTES_PER_PAGE)
          = Ok e0) as Hget0 by (apply arr_get_Ok; split; [lia | done]).
  destruct slot as [pd|]; simpl in *.
  - rewrite Hfound. simpl. rewrite Hk0. simpl.
    rewrite (arr_set_Ok _ _ _ _ Hk0). simpl.
    rewrite (pte_store_Ok _ _ _ _ _ _ Hget Hget0). simpl. by rewrite Huk.
  - rewrite (arr_set_Ok _ _ _ _ Hget). simpl.
    rewrite Hfound. simpl. rewrite Hk0. simpl.
    rewrite (arr_set_Ok _ _ _ _ Hk0). simpl.
    erewrite pte_store_Ok; [| |exact Hget0]; last first.
    { simpl. apply arr_get_Ok. split; [lia|].
      by apply list_lookup_insert_eq. }
    simpl. by rewrite list_insert_insert_eq, Huk.
Qed.

Lemma store_pagetable_twice (s : state) (a : nat) (pt1 pt2 : pagetable)
    (mc1 mc2 : list Z) :
  store_pagetable (store_pagetable s a pt1 mc1) a pt2 mc2
    = store_pagetable s a pt2 mc2.
Proof.
  unfold store_pagetable. simpl. f_equal.
  apply list_eq. intros b. destruct (decide (a = b)) as [->|Hne].
  - rewrite !list_lookup_alter_eq. by destruct (heap s !! b).
  - by rewrite !list_lookup_alter_ne.
Qed.

(** X7. Allocating a page and freeing it again is a round trip: when the
    page had no inner table (and the block [malloc] returns for one has no
    valid entry), or when its entry was clear in a table that holds a valid
    entry, [free_page] after a successful [alloc_page] gives back the state
    before the allocation: the frame is free again and the page table is
    what it was. *)
Theorem alloc_free_round_trip
    (new_pd : pte_directory) (s s1 : state) (p : process) (vpn rw r : Z) :
  vm_h_ok Hvm → vpn_ok vpn →
  heap s !! current s = Some p → wf_pagetable (p_pagetable p) →
  wf_pte_directory new_pd →
  (arr_get (outer_ptes (p_pagetable p)) (vpn / NR_PTES_PER_PAGE) = Ok None ∧
   (∀ k e, ptes new_pd !! k = Some e → valid e = false))
  ∨ (∃ pd k e2,
       arr_get (outer_ptes (p_pagetable p)) (vpn / NR_PTES_PER_PAGE)
         = Ok (Some pd) ∧
       arr_get (ptes pd) (vpn mod NR_PTES_PER_PAGE) = Ok zero_pte ∧
       ptes pd !! k = Some e2 ∧ valid e2 = true) →
  alloc_page new_pd s vpn rw = Ok (s1, r) → r ≠ to_uint (-1) →
  free_page s1 vpn = Ok s.
Proof.
  intros Hok Hvpn Hp Hwf Hnew Hcase Halloc Hr.
  pose proof (pte_index_range vpn Hok) as Hj.
  unfold alloc_page, pagetable_at in Halloc. rewrite Hp in Halloc.
  simpl in Halloc.
  apply bind_Ok_inv in Halloc as ([[pt' mc'] r'] & Hin & [= <- <-]).
  pose proof Hin as [(k & Hfound & _)|(_ & -> & _)]%alloc_page_in_inv;
    [|done].
  assert (∃ slot, arr_get (outer_ptes (p_pagetable p))
                    (vpn / NR_PTES_PER_PAGE) = Ok slot) as [slot Hslot]
    by (destruct Hcase as [[? _]|(pd & ? & ? & ? & _)]; eauto).
  rewrite (alloc_page_in_found _ _ _ _ _ _ _ Hok Hvpn Hwf Hnew Hslot Hfound)
    in Hin.
  injection Hin as <- <- _.
  apply find_free_frame_Some in Hfound as (Hk & Hk0 & _).
  pose proof Hk0 as [_ Hk0']%arr_get_Ok.
  pose proof Hslot as [Hi Hslot']%arr_get_Ok.
  pose proof (lookup_lt_Some _ _ _ Hslot') as Hilt.
  pose proof (lookup_lt_Some _ _ _ Hk0') as Hklt.
  set (pd1 := default new_pd slot) in *.
  assert (wf_pte_directory pd1) as Hwf1.
  { unfold pd1. destruct slot as [pd|]; simpl; [|done].
    destruct Hwf as [_ Hin]. eauto. }
  assert (Z.to_nat (vpn mod NR_PTES_PER_PAGE) < length (ptes pd1))%nat
    as Hjlt by (rewrite Hwf1; destruct Hok as [? _ _ _]; lia).
  set (entry := {| valid := true;
                   writable := bool_decide (rw = Z.lor RW_READ RW_WRITE);
                   pfn := k; private := rw |}).
  set (es := <[Z.to_nat (vpn mod NR_PTES_PER_PAGE) := entry]> (ptes pd1)).
  set (pt' := PT (<[Z.to_nat (vpn / NR_PTES_PER_PAGE) := Some (PD es)]>
                    (outer_ptes (p_pagetable p)))).
  assert (arr_get (outer_ptes pt') (vpn / NR_PTES_PER_PAGE) = Ok (Some (PD es)))
    as H1.
  { apply arr_get_Ok. split; [done|]. by apply list_lookup_insert_eq. }
  assert (wf_pte_directory (PD es)) as H2
    by (by apply wf_pte_directory_insert).
  assert (arr_get (ptes (PD es)) (vpn mod NR_PTES_PER_PAGE) = Ok entry) as H3.
  { apply arr_get_Ok. split; [lia|]. by apply list_lookup_insert_eq. }
  assert (arr_get (<[Z.to_nat k := 1]> (mapcounts s)) (pfn entry) = Ok 1) as H4.
  { apply arr_get_Ok. split; [simpl; lia|]. by apply list_lookup_insert_eq. }
  assert (0 < 1 < UINT_MOD) as H5 by (unfold UINT_MOD; lia).
  pose proof (free_page_in_run _ _ _ _ _ _ Hok H1 H2 H3 H4 H5) as Hfree.
  unfold free_page, pagetable_at. simpl.
  rewrite list_lookup_alter_eq, Hp. simpl.
  fold entry es pt'. rewrite Hfree. clear Hfree.
  simpl. unfold es. rewrite !list_insert_insert_eq.
  assert (<[Z.to_nat k := 1 - 1]> (mapcounts s) = mapcounts s) as ->
    by (by apply list_insert_id).
  rewrite store_pagetable_twice.
  assert ((if forallb (λ e, negb (valid e))
                (<[Z.to_nat (vpn mod NR_PTES_PER_PAGE) := zero_pte]>
                   (ptes pd1))
           then None
           else Some (PD (<[Z.to_nat (vpn mod NR_PTES_PER_PAGE)
                              := zero_pte]> (ptes pd1))))
          = slot) as ->.
  { destruct Hcase as [[Hnone Hinv]|(pd & k2 & e2 & Hpd & He & He2 & Hv2)].
    - rewrite Hslot in Hnone. injection Hnone as ->.
      rewrite (proj2 (forallb_cleared _ _ Hjlt)); [done|].
      intros k' e' _. apply Hinv.
    - rewrite Hslot in Hpd. injection Hpd as ->. unfold pd1 in *. simpl in *.
      apply arr_get_Ok in He as [_ He].
      rewrite (list_insert_id _ _ _ He).
      destruct (forallb _ (ptes pd)) eqn:Hall; [|by destruct pd].
      pose proof (forallb_lookup _ _ _ _ Hall He2) as Hb. simpl in Hb.
      by rewrite Hv2 in Hb. }
  rewrite (list_insert_id _ _ _ Hslot').
  assert (PT (outer_ptes (p_pagetable p)) = p_pagetable p) as ->
    by (by destruct (p_pagetable p)).
  by rewrite store_pagetable_id.
Qed.

(** X8. An allocation that finds no free frame: [alloc_page] returns the
    failure value and changes no count.  When the page has an inner table,
    nothing changes at all; when it has none, the table [malloc] returned
    has been installed all the same and stays. *)
Theorem alloc_page_exhausted
    (new_pd : pte_directory) (s : state) (p : process) (vpn rw : Z)
    (slot : option pte_directory) :
  heap s !! current s = Some p →
  length (mapcounts s) = Z.to_nat NR_PAGEFRAMES →
  arr_get (outer_ptes (p_pagetable p)) (vpn / NR_PTES_PER_PAGE) = Ok slot →
  (∀ j, 0 <= j < NR_PAGEFRAMES → mapcounts s !! Z.to_nat j ≠ Some 0) →
  ∃ s', alloc_page new_pd s vpn rw = Ok (s', to_uint (-1)) ∧
    mapcounts s' = mapcounts s ∧
    (is_Some slot → s' = s) ∧
    (slot = None →
       pagetable_at s' (current s)
         = Ok (PT (<[Z.to_nat (vpn / NR_PTES_PER_PAGE) := Some new_pd]>
                     (outer_ptes (p_pagetable p))))).
Proof.
  intros Hp Hlen Hslot Hfull.
  unfold alloc_page, pagetable_at. rewrite Hp. simpl.
  unfold alloc_page_in. rewrite Hslot. simpl.
  assert (find_free_frame (Z.to_nat NR_PAGEFRAMES) 0 (mapcounts s) = Ok None)
    as Hnone.
  { apply find_free_frame_full. intros j Hj.
    apply mapcounts_nonzero; [done | lia | apply Hfull; lia]. }
  destruct slot as [pd|]; simpl.
  - rewrite Hnone. simpl. eexists. split; [reflexivity|].
    rewrite store_pagetable_id by done. split_and!; done.
  - rewrite (arr_set_Ok _ _ _ _ Hslot). simpl. rewrite Hnone. simpl.
    eexists. split; [reflexivity|]. simpl. split_and!; try done.
    intros _. unfold pagetable_at. simpl.
    by rewrite list_lookup_alter_eq, Hp.
Qed.

(** X9. [alloc_page] does not look at the entry it fills: on a page that is
    already mapped it takes a new frame for the entry and releases nothing,
    so the frame mapped before keeps its count although this entry no
    longer maps it. *)
Theorem alloc_page_on_mapped_page
    (new_pd : pte_directory) (s s' : state) (p : process) (vpn rw r : Z)
    (e : pte) (m : Z) :
  vm_h_ok Hvm →
  heap s !! current s = Some p →
  pte_at (p_pagetable p) (vpn / NR_PTES_PER_PAGE) (vpn mod NR_PTES_PER_PAGE)
    = Ok e →
  valid e = true → arr_get (mapcounts s) (pfn e) = Ok m → m ≠ 0 →
  alloc_page new_pd s vpn rw = Ok (s', r) → r ≠ to_uint (-1) →
  r ≠ pfn e ∧
  pfn <$> pte_of s' (current s) vpn = Ok r ∧
  arr_get (mapcounts s') (pfn e) = Ok m ∧
  arr_get (mapcounts s') r = Ok 1.
Proof.
  intros [_ Hf _ _] Hp He Hv Hm Hm0 Halloc Hr.
  unfold alloc_page, pagetable_at in Halloc. rewrite Hp in Halloc.
  simpl in Halloc.
  apply bind_Ok_inv in Halloc as ([[pt' mc'] r'] & Hin & [= <- <-]).
  apply alloc_page_in_inv in Hin
    as [(k & Hfound & -> & -> & Hpte)|(_ & -> & _)]; [|done].
  apply find_free_frame_Some in Hfound as (Hk & Hk0 & _).
  assert (to_uint k = k) as Huk
    by (apply to_uint_small; unfold UINT_MOD, INT_MAX in *; lia).
  rewrite Huk in *.
  assert (k ≠ pfn e) as Hne.
  { intros ->. rewrite Hm in Hk0. by injection Hk0. }
  pose proof Hk0 as [Hk1 Hk2]%arr_get_Ok.
  pose proof Hm as [Hm1 Hm2]%arr_get_Ok.
  split_and!; simpl; try done.
  - unfold pte_of, pagetable_at. simpl.
    rewrite list_lookup_alter_eq, Hp. simpl. by rewrite Hpte.
  - apply arr_get_Ok. split; [done|].
    rewrite list_lookup_insert_ne; [done | lia].
  - apply arr_get_Ok. split; [done|].
    apply list_lookup_insert_eq. by eapply lookup_lt_Some.
Qed.

(** *** More on [switch_process] *)

Lemma boot_ranked : queue_ranked boot.
Proof. exists (λ _, False), (λ _, 0%nat). by split_and!. Qed.

Lemma get_list_store_pagetable (s : state) (a : nat) (pt : pagetable)
    (mc : list Z) (r : list_ref) :
  get_list (store_pagetable s a pt mc) r = get_list s r.
Proof.
  destruct r as [|b]; simpl; [done|]. destruct (decide (a = b)) as [->|Hne].
  - rewrite list_lookup_alter_eq. by destruct (heap s !! b).
  - by rewrite list_lookup_alter_ne.
Qed.

Lemma store_pagetable_ranked (s : state) (a : nat) (pt : pagetable)
    (mc : list Z) :
  queue_ranked s → queue_ranked (store_pagetable s a pt mc).
Proof.
  intros (Q & rank & Hn & Hp & HQ). exists Q, rank. split_and!; try done.
  intros b Hb. destruct (HQ b Hb) as (l & Hl & Hr & Hnext & Hprev).
  exists l. rewrite get_list_store_pagetable. split_and!; try done.
  simpl. by rewrite length_alter.
Qed.

(** On ranked nodes the search ends: at the head, or at a process that has
    the pid and whose rank is at most that of the node the search starts
    from. *)
Lemma find_process_ranked (s : state) (Q : nat → Prop) (rank : nat → nat)
    (id : Z) (fuel : nat) (pos : list_ref) :
  (∀ a, Q a → ∃ l, get_list s (Node a) = Ok l ∧
     match next l with
     | Head => True
     | Node b => Q b ∧ (rank b < rank a)%nat
     end) →
  in_queue Q pos →
  (∀ a, pos = Node a → (rank a < fuel)%nat) →
  ∃ o, find_process fuel s pos id = Ok o ∧
    ∀ a, o = Some a →
      Q a ∧ (∃ q, heap s !! a = Some q ∧ pid q = id) ∧
      ∃ b, pos = Node b ∧ (rank a ≤ rank b)%nat.
Proof.
  intros HQ. revert pos.
  induction fuel as [|fuel IH]; intros [|a] Hpos Hrank; simpl.
  - by exists None.
  - specialize (Hrank a eq_refl). lia.
  - by exists None.
  - destruct (HQ a Hpos) as (l & Hl & Hnext). simpl in Hl.
    destruct (heap s !! a) as [q|] eqn:Hq; [|done]. injection Hl as <-.
    simpl. destruct (decide (pid q = id)) as [Hid|Hid].
    + exists (Some a). split; [done|]. intros ? [= <-]. split_and!; eauto.
    + destruct (IH (next (p_list q))) as (o & Ho & Hfound).
      * by destruct (next (p_list q)) as [|b]; [|destruct Hnext].
      * intros b Hb. rewrite Hb in Hnext. destruct Hnext as [_ Hlt].
        specialize (Hrank a eq_refl). lia.
      * exists o. split; [done|]. intros a' Ha'.
        destruct (Hfound a' Ha') as (HQa & Hpid & b & Hb & Hle).
        split_and!; try done. exists a. split; [done|].
        rewrite Hb in Hnext. destruct Hnext as [_ Hlt]. lia.
Qed.

(** What [switch_process] does on a well-formed state with a ranked queue. *)
Lemma switch_process_inv (new_p : process) (new_pds : Z → pte_directory)
    (s : state) (id : Z) :
  wf_state s → queue_ranked s →
  pt_ok (p_pagetable new_p) (mapcounts s) →
  (∀ i, block_ok (new_pds i) (mapcounts s)) →
  ∃ s', switch_process new_p new_pds s id = Ok s' ∧
    queue_ranked s' ∧ ptbr s' = Some (current s') ∧
    pid <$> heap s' !! current s' = Some id.
Proof.
  intros (Hlen & [parent Hparent] & Hptbr & Hpts & Hlinks)
    (Q & rank & Hn & Hp & HQ) Hfresh Hnew.
  destruct (find_process_ranked s Q rank id (length (heap s))
              (next (processes s))) as (o & Hfind & Hfound); try done.
  { intros a Ha. destruct (HQ a Ha) as (l & Hl & _ & Hnext & _). eauto. }
  { intros a Ha. rewrite Ha in Hn. by destruct (HQ a Hn) as (l & _ & Hr & _). }
  destruct o as [a|].
  - (* a process of the queue has the pid *)
    destruct (Hfound a eq_refl) as (Ha & (q & Hq & Hid) & _).
    unfold switch_process. rewrite Hfind. simpl. rewrite Hq. simpl.
    eexists. split; [reflexivity|]. simpl.
    destruct (HQ a Ha) as (l & Hl & _ & Hnext & Hprev).
    simpl in Hl. rewrite Hq in Hl. injection Hl as <-.
    split_and!; [|done|by rewrite Hq; simpl; f_equal].
    exists Q, rank. simpl. split_and!; try done.
    by destruct (next (p_list q)); [|destruct Hnext].
  - (* the fork *)
    destruct (Hlinks Head (processes s) eq_refl) as [_ [x Hx]].
    destruct (Hpts _ _ Hparent) as [Hwf Hpfn].
    destruct Hfresh as [[Hflen Hfwf] Hfpfn].
    destruct (fork_run new_p new_pds s id parent x)
      as (s' & c & Hrun & Hcur & Hpt & Hlen1 & _ & Hpid & _ & _ & _ & _ & _ & _
          & Hgp & Hget); try done.
    { intros i. apply Hnew. }
    exists s'. set (p := length (heap s)) in *.
    split_and!; [done | | by rewrite Hcur | by rewrite Hcur].
    assert (∀ a, Q a → a ≠ p) as Hold.
    { intros a Ha ->. destruct (HQ p Ha) as (l & Hl & _). simpl in Hl.
      unfold p in Hl. by rewrite lookup_ge_None_2 in Hl. }
    assert (processes s' =
      {| next := if decide (Head = prev (processes s)) then Node p
                 else next (processes s);
         prev := Node p |}) as Hhead.
    { pose proof (Hget Head (processes s) ltac:(done) eq_refl) as H0.
      simpl in H0. by injection H0 as ->. }
    exists (λ a, Q a ∨ a = p),
           (λ a, if decide (a = p) then 0%nat else S (rank a)).
    rewrite Hhead. cbn [next prev]. split_and!.
    + destruct (decide (Head = prev (processes s))); simpl; [by right|].
      destruct (next (processes s)); simpl in *; [done | by left].
    + by right.
    + intros a [Ha| ->].
      * destruct (HQ a Ha) as (l & Hl & Hr & Hnext & Hprev).
        pose proof (Hold a Ha) as Hap.
        rewrite (Hget (Node a) l) by (done || congruence).
        eexists. split; [reflexivity|]. simpl.
        rewrite Hlen1. rewrite (decide_False (P := a = p)) by done.
        split_and!; [lia | |].
        -- destruct (decide (Node a = prev (processes s))); cbn beta iota;
             [split; [by right|]; rewrite decide_True by done; lia|].
           destruct (next l) as [|b]; [done|]. destruct Hnext as [Hb Hlt].
           split; [by left|].
           rewrite (decide_False (P := b = p)) by (by apply Hold). lia.
        -- destruct (prev l); simpl in *; [done | by left].
      * rewrite Hgp. eexists. split; [reflexivity|]. simpl.
        rewrite Hlen1, decide_True by done. split_and!; [lia | done |].
        destruct (prev (processes s)); simpl in *; [done | by left].
Qed.

(** What a call of the driver keeps: the state is well formed, the queue is
    ranked and [ptbr] points to the page table of [current]. *)
Lemma run_call_inv (s s' : state) (c : call) :
  vm_h_ok Hvm →
  wf_state s ∧ queue_ranked s ∧ ptbr s = Some (current s) →
  run_call s c = Ok s' →
  wf_state s' ∧ queue_ranked s' ∧ ptbr s' = Some (current s').
Proof.
  intros Hok (Hwf & Hrk & Hpc) Hrun.
  split; [by eapply run_call_wf|].
  destruct c as [vpn rw|vpn|vpn rw|id]; simpl in Hrun.
  - destruct (alloc_page zero_pd s vpn rw) as [[s1 r]|] eqn:Ha; [|done].
    injection Hrun as <-. unfold alloc_page in Ha.
    apply bind_Ok_inv in Ha as (pt & _ & Ha).
    apply bind_Ok_inv in Ha as ([[pt' mc'] r'] & _ & [= <- _]).
    split; [by apply store_pagetable_ranked | done].
  - unfold free_page in Hrun.
    apply bind_Ok_inv in Hrun as (pt & _ & Hrun).
    apply bind_Ok_inv in Hrun as ([pt' mc'] & _ & [= <-]).
    split; [by apply store_pagetable_ranked | done].
  - destruct (handle_page_fault s vpn rw) as [[s1 r]|] eqn:Hf; [|done].
    injection Hrun as <-.
    apply handle_page_fault_inv in Hf
      as [[_ ->]|(a & p & pt' & mc' & _ & _ & _ & ->)]; [done|].
    split; [by apply store_pagetable_ranked | done].
  - destruct (switch_process_inv zero_process (λ _, zero_pd) s id)
      as (s1 & Hrun1 & Hrk1 & Hpc1 & _); try done.
    + apply zero_pt_ok.
    + intros i. apply zero_pd_ok.
    + rewrite Hrun in Hrun1. by injection Hrun1 as <-.
Qed.

Lemma run_inv (cs : list call) (s s' : state) :
  vm_h_ok Hvm →
  wf_state s ∧ queue_ranked s ∧ ptbr s = Some (current s) →
  run s cs = Ok s' →
  wf_state s' ∧ queue_ranked s' ∧ ptbr s' = Some (current s').
Proof.
  intros Hok. revert s. induction cs as [|c cs IH]; intros s Hinv; simpl.
  - by intros [= <-].
  - intros (s1 & Hc & Hrun)%bind_Ok_inv.
    apply (IH s1); [|done]. by eapply run_call_inv.
Qed.

Lemma boot_inv :
  wf_state boot ∧ queue_ranked boot ∧ ptbr boot = Some (current boot).
Proof. split_and!; [apply boot_wf | apply boot_ranked | done]. Qed.

(** *** Runs with the blocks [malloc] returns *)

(** A run of the driver is a run with zero-filled blocks. *)
Lemma run_call_exec (s : state) (c : call) :
  run_call s c = exec s (zero_blocks c).
Proof. by destruct c. Qed.

Lemma run_execs (cs : list call) (s : state) :
  run s cs = execs s (zero_blocks <$> cs).
Proof.
  revert s. induction cs as [|c cs IH]; intros s; simpl; [done|].
  rewrite run_call_exec.
  destruct (exec s (zero_blocks c)); simpl; [apply IH | done].
Qed.

Lemma zero_blocks_ok (c : call) : blocks_ok (zero_blocks c).
Proof.
  destruct c; simpl; try done; [apply zero_pd_ok|].
  split; [apply zero_pt_ok | intros i; apply zero_pd_ok].
Qed.

Lemma block_ok_length (pd : pte_directory) (mc mc' : list Z) :
  length mc = length mc' → block_ok pd mc → block_ok pd mc'.
Proof.
  intros Hlen [Hwf Hpfn]. split; [done|].
  intros j e He Hv. rewrite <- Hlen. by eapply Hpfn.
Qed.

Lemma wf_state_pool (s : state) :
  wf_state s → length (mapcounts boot) = length (mapcounts s).
Proof. intros [-> _]. apply length_replicate. Qed.

Lemma exec_wf (s s' : state) (o : op) :
  vm_h_ok Hvm → wf_state s → blocks_ok o → exec s o = Ok s' → wf_state s'.
Proof.
  intros Hok Hwf Hb. pose proof (wf_state_pool s Hwf) as Hlen.
  destruct o as [new_pd vpn rw|vpn|vpn rw|new_p new_pds id];
    cbn [exec blocks_ok] in *.
  - destruct (alloc_page new_pd s vpn rw) as [[s1 r]|] eqn:Hrun; [|done].
    intros [= <-]. eapply alloc_page_wf; [done | done | | exact Hrun].
    by eapply block_ok_length.
  - by apply free_page_wf.
  - destruct (handle_page_fault s vpn rw) as [[s1 r]|] eqn:Hrun; [|done].
    intros [= <-]. by eapply handle_page_fault_wf.
  - destruct Hb as [Hp Hpds].
    apply switch_process_wf; [done | by eapply pt_ok_length |].
    intros i. by eapply block_ok_length.
Qed.




(** X11. On a well-formed state with a ranked queue [switch_process]
    returns, whatever the pid: the traversal of the queue ends and no null
    pointer is followed.  Afterwards [current] is a process with the
    requested pid, [ptbr] points to its page table and the queue is ranked
    again. *)
Theorem switch_process_returns (new_p : process)
    (new_pds : Z → pte_directory) (s : state) (id : Z) :
  wf_state s → queue_ranked s →
  pt_ok (p_pagetable new_p) (mapcounts s) →
  (∀ i, block_ok (new_pds i) (mapcounts s)) →
  ∃ s', switch_process new_p new_pds s id = Ok s' ∧
    pid <$> heap s' !! current s' = Some id ∧
    ptbr s' = Some (current s') ∧
    wf_state s' ∧ queue_ranked s'.
Proof.
  intros Hwf Hrk Hfresh Hnew.
  destruct (switch_process_inv new_p new_pds s id)
    as (s' & Hrun & Hrk' & Hpc & Hpid); try done.
  exists s'. split_and!; try done. by eapply switch_process_wf.
Qed.

(** *** A process that was switched to is off the queue *)

Lemma queue_ranked_by (s : state) :
  queue_ranked s → ∃ Q rank, ranked_by Q rank s.
Proof.
  intros (Q & rank & Hn & _ & HQ). exists Q, rank. split; [done|].
  intros a Ha. destruct (HQ a Ha) as (l & Hl & Hr & Hnext & _). eauto.
Qed.

Lemma store_pagetable_ranked_by (Q : nat → Prop) (rank : nat → nat)
    (s : state) (a : nat) (pt : pagetable) (mc : list Z) :
  ranked_by Q rank s → ranked_by Q rank (store_pagetable s a pt mc).
Proof.
  intros [Hn HQ]. split; [done|].
  intros b Hb. destruct (HQ b Hb) as (l & Hl & Hr & Hnext).
  exists l. rewrite get_list_store_pagetable. split_and!; try done.
  simpl. by rewrite length_alter.
Qed.

Lemma find_process_ranked_by (Q : nat → Prop) (rank : nat → nat) (s : state)
    (id : Z) :
  ranked_by Q rank s →
  ∃ o, find_process (length (heap s)) s (next (processes s)) id = Ok o ∧
    ∀ a, o = Some a → Q a ∧ ∃ q, heap s !! a = Some q ∧ pid q = id.
Proof.
  intros [Hn HQ].
  destruct (find_process_ranked s Q rank id (length (heap s))
              (next (processes s))) as (o & Ho & Hfound); try done.
  - intros a Ha. destruct (HQ a Ha) as (l & Hl & _ & Hnext). eauto.
  - intros a Ha. rewrite Ha in Hn. by destruct (HQ a Hn) as (l & _ & Hr & _).
  - exists o. split; [done|]. intros a Ha.
    by destruct (Hfound a Ha) as (HQa & Hq & _).
Qed.

(** [switch_process] keeps the nodes on the way ranked; the only node that
    can come onto the way is the process it creates. *)
Lemma switch_process_ranked_by (Q : nat → Prop) (rank : nat → nat)
    (new_p : process) (new_pds : Z → pte_directory) (s s' : state) (id : Z) :
  wf_state s → ranked_by Q rank s →
  pt_ok (p_pagetable new_p) (mapcounts s) →
  (∀ i, block_ok (new_pds i) (mapcounts s)) →
  switch_process new_p new_pds s id = Ok s' →
  (length (heap s) ≤ length (heap s'))%nat ∧
  ∃ Q' rank', ranked_by Q' rank' s' ∧ ∀ b, Q' b → Q b ∨ b = length (heap s).
Proof.
  intros (Hlen & [parent Hparent] & Hptbr & Hpts & Hlinks) Hrk Hfresh Hnew Hrun.
  destruct (find_process_ranked_by Q rank s id Hrk) as (o & Hfind & Hfound).
  destruct Hrk as [Hn HQ].
  destruct o as [a|].
  - (* a process of the queue has the pid *)
    destruct (Hfound a eq_refl) as (Ha & q & Hq & Hid).
    unfold switch_process in Hrun. rewrite Hfind in Hrun. simpl in Hrun.
    rewrite Hq in Hrun. injection Hrun as <-. split; [done|].
    exists Q, rank. split; [|by left].
    destruct (HQ a Ha) as (l & Hl & _ & Hnext).
    simpl in Hl. rewrite Hq in Hl. injection Hl as <-.
    split; [|exact HQ]. simpl.
    by destruct (next (p_list q)); [|destruct Hnext].
  - (* the fork *)
    destruct (Hlinks Head (processes s) eq_refl) as [_ [x Hx]].
    destruct (Hpts _ _ Hparent) as [Hwf Hpfn].
    destruct Hfresh as [[Hflen Hfwf] Hfpfn].
    destruct (fork_run new_p new_pds s id parent x)
      as (s1 & c & Hrun1 & _ & _ & Hlen1 & _ & _ & _ & _ & _ & _ & _ & _
          & Hgp & Hget); try done.
    { intros i. apply Hnew. }
    rewrite Hrun in Hrun1. injection Hrun1 as <-.
    set (p := length (heap s)) in *.
    split; [lia|].
    assert (∀ a, Q a → a ≠ p) as Hold.
    { intros a Ha ->. destruct (HQ p Ha) as (l & Hl & _). simpl in Hl.
      unfold p in Hl. by rewrite lookup_ge_None_2 in Hl. }
    assert (next (processes s') =
      if decide (Head = prev (processes s)) then Node p
      else next (processes s)) as Hhead.
    { pose proof (Hget Head (processes s) ltac:(done) eq_refl) as H0.
      simpl in H0. by injection H0 as ->. }
    exists (λ a, Q a ∨ a = p),
           (λ a, if decide (a = p) then 0%nat else S (rank a)).
    split; [|intros b [Hb| ->]; [by left | by right]].
    split.
    + rewrite Hhead.
      destruct (decide (Head = prev (processes s))); simpl; [by right|].
      destruct (next (processes s)); simpl in *; [done | by left].
    + intros a [Ha| ->].
      * destruct (HQ a Ha) as (l & Hl & Hr & Hnext).
        pose proof (Hold a Ha) as Hap.
        rewrite (Hget (Node a) l) by (done || congruence).
        eexists. split; [reflexivity|]. simpl.
        rewrite Hlen1. rewrite (decide_False (P := a = p)) by done.
        split; [lia|].
        destruct (decide (Node a = prev (processes s))); cbn beta iota;
          [split; [by right|]; rewrite decide_True by done; lia|].
        destruct (next l) as [|b]; [done|]. destruct Hnext as [Hb Hlt].
        split; [by left|].
        rewrite (decide_False (P := b = p)) by (by apply Hold). lia.
      * rewrite Hgp. eexists. split; [reflexivity|]. simpl.
        rewrite Hlen1, decide_True by done. split; [lia | done].
Qed.

Lemma exec_ranked_by (Q : nat → Prop) (rank : nat → nat) (s s' : state)
    (o : op) :
  wf_state s → blocks_ok o → ranked_by Q rank s → exec s o = Ok s' →
  (length (heap s) ≤ length (heap s'))%nat ∧
  ∃ Q' rank', ranked_by Q' rank' s' ∧ ∀ b, Q' b → Q b ∨ b = length (heap s).
Proof.
  intros Hwf Hb Hrk Hrun.
  pose proof (wf_state_pool s Hwf) as Hlen.
  assert (∀ a pt mc,
    (length (heap s) ≤ length (heap (store_pagetable s a pt mc)))%nat ∧
    ∃ Q' rank', ranked_by Q' rank' (store_pagetable s a pt mc) ∧
      ∀ b, Q' b → Q b ∨ b = length (heap s)) as Hstore.
  { intros a pt mc. split; [simpl; by rewrite length_alter|].
    exists Q, rank. split; [by apply store_pagetable_ranked_by | by left]. }
  destruct o as [new_pd vpn rw|vpn|vpn rw|new_p new_pds id];
    cbn [exec blocks_ok] in *.
  - destruct (alloc_page new_pd s vpn rw) as [[s1 r]|] eqn:Ha; [|done].
    injection Hrun as <-. unfold alloc_page in Ha.
    apply bind_Ok_inv in Ha as (pt & _ & Ha).
    apply bind_Ok_inv in Ha as ([[pt' mc'] r'] & _ & [= <- _]).
    apply Hstore.
  - unfold free_page in Hrun.
    apply bind_Ok_inv in Hrun as (pt & _ & Hrun).
    apply bind_Ok_inv in Hrun as ([pt' mc'] & _ & [= <-]).
    apply Hstore.
  - destruct (handle_page_fault s vpn rw) as [[s1 r]|] eqn:Hf; [|done].
    injection Hrun as <-.
    apply handle_page_fault_inv in Hf
      as [[_ ->]|(a & p & pt' & mc' & _ & _ & _ & ->)]; [|apply Hstore].
    split; [done|]. exists Q, rank. split; [done | by left].
  - destruct Hb as [Hp Hpds].
    apply (switch_process_ranked_by Q rank new_p new_pds s s' id);
      [done | done | by eapply pt_ok_length | | done].
    intros i. by eapply block_ok_length.
Qed.

(** A process that is not among the ranked nodes on the way stays off it,
    whatever is called. *)
Lemma execs_off_the_way (a : nat) (os : list op) (s s' : state) :
  vm_h_ok Hvm → wf_state s → (a < length (heap s))%nat →
  (∃ Q rank, ranked_by Q rank s ∧ ¬ Q a) →
  Forall blocks_ok os → execs s os = Ok s' →
  ∃ Q rank, ranked_by Q rank s' ∧ ¬ Q a.
Proof.
  intros Hok. revert s.
  induction os as [|o os IH]; intros s Hwf Ha (Q & rank & Hrk & Hna) Hall;
    simpl.
  - intros [= <-]. eauto.
  - intros (s1 & Ho & Hrun)%bind_Ok_inv.
    apply Forall_cons in Hall as [Hb Hall].
    destruct (exec_ranked_by Q rank s s1 o)
      as (Hlen & Q' & rank' & Hrk' & Hsub); try done.
    apply (IH s1); try done.
    + by eapply exec_wf.
    + lia.
    + exists Q', rank'. split; [done|].
      intros [HQa| ->]%Hsub; [done | lia].
Qed.

(** X12. A switch to a process found on the queue changes no process
    object and no count and makes the process [current], with [ptbr] on its
    page table, but it takes the process off the way from the head: the
    links of the head become the links of the process (lines 260-261), so a
    traversal starts behind it and, the queue being ranked, does not come
    back to it.  This stays so whatever is called afterwards (the blocks
    [malloc] returns being as in X10): no later search finds the process
    that was switched to. *)
Theorem switch_process_found_leaves_queue (new_p : process)
    (new_pds : Z → pte_directory) (s s' : state) (id : Z) (a : nat) :
  vm_h_ok Hvm → wf_state s → queue_ranked s →
  find_process (length (heap s)) s (next (processes s)) id = Ok (Some a) →
  switch_process new_p new_pds s id = Ok s' →
  heap s' = heap s ∧ mapcounts s' = mapcounts s ∧
  current s' = a ∧ ptbr s' = Some a ∧
  p_list <$> heap s !! a = Some (processes s') ∧
  ∀ os s'' id', Forall blocks_ok os → execs s' os = Ok s'' →
    ∃ o, find_process (length (heap s'')) s'' (next (processes s'')) id'
           = Ok o ∧
      o ≠ Some a.
Proof.
  intros Hok Hwf (Q & rank & Hrk)%queue_ranked_by Hfind Hrun.
  destruct (find_process_ranked_by Q rank s id Hrk) as (o & Hfind' & Hfound).
  rewrite Hfind in Hfind'. injection Hfind' as <-.
  destruct (Hfound a eq_refl) as (Ha & q & Hq & Hid).
  assert (wf_state s') as Hwf'.
  { apply (switch_process_wf zero_process (λ _, zero_pd) s s' id);
      [done | apply zero_pt_ok | intros i; apply zero_pd_ok |].
    unfold switch_process in *. rewrite Hfind in *. exact Hrun. }
  unfold switch_process in Hrun. rewrite Hfind in Hrun. simpl in Hrun.
  rewrite Hq in Hrun. injection Hrun as <-.
  cbn [heap mapcounts current ptbr processes]. split_and!; try done.
  - rewrite Hq. simpl. f_equal. by destruct (p_list q).
  - intros os s'' id' Hall Hexecs.
    destruct Hrk as [Hn HQ].
    destruct (HQ a Ha) as (l & Hl & Hr & Hnext).
    simpl in Hl. rewrite Hq in Hl. injection Hl as <-.
    destruct (execs_off_the_way a os _ s'' Hok Hwf')
      as (Q2 & rank2 & Hrk2 & Hna); try done.
    + simpl. by eapply lookup_lt_Some.
    + exists (λ b, Q b ∧ (rank b < rank a)%nat), rank. split; [split|].
      * simpl. by destruct (next (p_list q)).
      * intros b [Hb Hlt]. destruct (HQ b Hb) as (lb & Hlb & Hrb & Hnb).
        exists lb. split_and!; try done.
        destruct (next lb) as [|c]; [done|]. destruct Hnb as [Hc Hlt'].
        split_and!; [done | lia | done].
      * intros [_ Hlt]. lia.
    + destruct (find_process_ranked_by Q2 rank2 s'' id' Hrk2)
        as (o & Ho & Hfound2).
      exists o. split; [done|]. intros ->.
      by destruct (Hfound2 a eq_refl) as (HQa & _).
Qed.

(** *** Memory safety of [handle_page_fault] *)

(** X13. On a well-formed state [handle_page_fault] returns for every page
    number the table covers: no index leaves its array and no null pointer
    is followed, whatever the entry, its tag and the count of its frame. *)
Theorem handle_page_fault_returns (s : state) (vpn rw : Z) :
  vm_h_ok Hvm → wf_state s → vpn_ok vpn →
  ∃ s' r, handle_page_fault s vpn rw = Ok (s', r).
Proof.
  intros Hok (Hlen & _ & Hptbr & Hpts & _) Hv.
  unfold handle_page_fault. destruct (ptbr s) as [a|] eqn:Ha; [|eauto].
  destruct (Hptbr a eq_refl) as [p Hp].
  assert (pagetable_at s a = Ok (p_pagetable p)) as ->
    by (unfold pagetable_at; by rewrite Hp).
  rewrite bind_Ok.
  destruct (Hpts a p Hp) as [[Hol Hwf] Hpfn].
  enough (∃ x, handle_page_fault_in (p_pagetable p) (mapcounts s) vpn rw = Ok x)
    as [[[pt' mc'] r] ->] by (rewrite bind_Ok; eauto).
  unfold handle_page_fault_in.
  rewrite to_int_pd_index, to_int_pte_index by done.
  pose proof (pd_index_range vpn Hok Hv) as Hi.
  pose proof (pte_index_range vpn Hok) as Hj.
  destruct Hok as [Hn Hf _ _].
  destruct (lookup_lt_is_Some_2 (outer_ptes (p_pagetable p))
              (Z.to_nat (vpn / NR_PTES_PER_PAGE))) as [slot Hslot]; [lia|].
  assert (arr_get (outer_ptes (p_pagetable p)) (vpn / NR_PTES_PER_PAGE)
          = Ok slot) as Hget by (apply arr_get_Ok; split; [lia | done]).
  rewrite Hget, bind_Ok. destruct slot as [d|]; [|eauto].
  pose proof (Hwf _ _ Hslot) as Hd. unfold wf_pte_directory in Hd.
  destruct (lookup_lt_is_Some_2 (ptes d)
              (Z.to_nat (vpn mod NR_PTES_PER_PAGE))) as [e He]; [lia|].
  assert (arr_get (ptes d) (vpn mod NR_PTES_PER_PAGE) = Ok e) as Hget'
    by (apply arr_get_Ok; split; [lia | done]).
  rewrite Hget', bind_Ok.
  destruct (valid e) eqn:Hval; cbn [negb]; [|eauto].
  destruct (decide (private e = RW_READ)); [eauto|].
  pose proof (Hpfn _ _ _ _ Hslot He Hval) as Hfr.
  rewrite (to_int_small (pfn e)) by lia.
  destruct (lookup_lt_is_Some_2 (mapcounts s) (Z.to_nat (pfn e))) as [m Hm];
    [lia|].
  assert (arr_get (mapcounts s) (pfn e) = Ok m) as ->
    by (apply arr_get_Ok; split; [lia | done]).
  rewrite bind_Ok.
  destruct (decide (to_int m = 1)).
  - rewrite (pte_store_Ok _ _ _ _ _ _ Hget Hget'), bind_Ok. eauto.
  - destruct (decide (to_int m > 1)); [|eauto].
    destruct (find_free_frame_total (Z.to_nat NR_PAGEFRAMES) 0 (mapcounts s))
      as [found Hfound]; [lia | lia |].
    rewrite Hfound, bind_Ok. destruct found as [k|]; [|eauto].
    apply find_free_frame_Some in Hfound as (_ & Hk0 & _).
    rewrite Hk0, bind_Ok, (arr_set_Ok _ _ _ _ Hk0), bind_Ok.
    rewrite (pte_store_Ok _ _ _ _ _ _ Hget Hget'), bind_Ok. eauto.
Qed.

(** *** Counting the entries that map a frame *)

Lemma sum_list_with_insert {A : Type} (g : A → nat) (l : list A) (j : nat)
    (x y : A) :
  l !! j = Some x →
  (sum_list_with g (<[j := y]> l) + g x = sum_list_with g l + g y)%nat.
Proof.
  revert j. induction l as [|z l IH]; intros [|j] E; simpl in *; try done.
  - injection E as ->. lia.
  - specialize (IH j E). lia.
Qed.


Lemma refs_pd_cons (f : Z) (e : pte) (es : list pte) :
  refs_pd f (PD (e :: es))
    = ((if decide (valid e = true ∧ pfn e = f) then 1 else 0)
       + refs_pd f (PD es))%nat.
Proof.
  unfold refs_pd. cbn [ptes]. rewrite filter_cons. by case_decide.
Qed.

Lemma refs_pd_one (f : Z) (e : pte) :
  refs_pd f (PD [e]) = if decide (valid e = true ∧ pfn e = f) then 1%nat else 0%nat.
Proof. rewrite refs_pd_cons. unfold refs_pd. simpl. lia. Qed.

Lemma refs_pd_insert (f : Z) (es : list pte) (j : nat) (e e' : pte) :
  es !! j = Some e →
  (refs_pd f (PD (<[j := e']> es)) + refs_pd f (PD [e])
   = refs_pd f (PD es) + refs_pd f (PD [e']))%nat.
Proof.
  rewrite !refs_pd_one. revert j.
  induction es as [|z es IH]; intros [|j] E; try done.
  - injection E as ->. cbn [insert list_insert]. rewrite !refs_pd_cons.
    repeat case_decide; lia.
  - specialize (IH j E).
    change (<[S j := e']> (z :: es)) with (z :: <[j := e']> es).
    rewrite !refs_pd_cons. lia.
Qed.

Lemma refs_pd_no_valid (f : Z) (es : list pte) :
  (∀ k e, es !! k = Some e → valid e = false) → refs_pd f (PD es) = 0%nat.
Proof.
  induction es as [|z es IH]; intros Hall; [done|].
  rewrite refs_pd_cons, IH by (intros k; apply (Hall (S k))).
  rewrite decide_False; [done|].
  intros [Hv _]. by rewrite (Hall 0%nat z eq_refl) in Hv.
Qed.

Lemma refs_pt_insert (f : Z) (outer : list (option pte_directory)) (i : nat)
    (slot slot' : option pte_directory) :
  outer !! i = Some slot →
  (refs_pt f (PT (<[i := slot']> outer)) + refs_slot f slot
   = refs_pt f (PT outer) + refs_slot f slot')%nat.
Proof. apply sum_list_with_insert. Qed.

Lemma refs_store_pagetable (s : state) (a : nat) (p : process)
    (pt : pagetable) (mc : list Z) (f : Z) :
  heap s !! a = Some p →
  (refs (store_pagetable s a pt mc) f + refs_pt f (p_pagetable p)
   = refs s f + refs_pt f pt)%nat.
Proof.
  intros Hp. unfold refs, store_pagetable. cbn [heap].
  rewrite <- (insert_alter_lookup _ _ _ _ Hp).
  exact (sum_list_with_insert (λ q, refs_pt f (p_pagetable q)) _ _ _
           (set_pagetable pt p) Hp).
Qed.

(** *** [alloc_page] and [free_page] keep the counts consistent *)

(** X14. An allocation keeps reference-count consistency when the page is
    not mapped yet (and the block [malloc] returns for a new inner table
    holds no valid entry): the frame it takes had no entry and has one
    now, with count 1; without a free frame nothing is counted. *)
Theorem alloc_page_keeps_refcounts
    (new_pd : pte_directory) (s s' : state) (p : process) (vpn rw r : Z) :
  vm_h_ok Hvm → vpn_ok vpn →
  heap s !! current s = Some p →
  wf_pagetable (p_pagetable p) → wf_pte_directory new_pd →
  (∀ j e, ptes new_pd !! j = Some e → valid e = false) →
  (∀ e, pte_of s (current s) vpn = Ok e → valid e = false) →
  refcount_consistent s →
  alloc_page new_pd s vpn rw = Ok (s', r) →
  refcount_consistent s'.
Proof.
  intros Hok Hvpn Hp Hwf Hnew Hfresh Hunmapped Hcons Hrun.
  pose proof (pd_index_range vpn Hok Hvpn) as Hi.
  pose proof (pte_index_range vpn Hok) as Hj.
  set (i := vpn / NR_PTES_PER_PAGE) in *.
  set (j := vpn mod NR_PTES_PER_PAGE) in *.
  destruct (lookup_lt_is_Some_2 (outer_ptes (p_pagetable p)) (Z.to_nat i))
    as [slot Hslot]; [destruct Hwf as [-> _]; lia|].
  assert (arr_get (outer_ptes (p_pagetable p)) i = Ok slot) as Hget
    by (apply arr_get_Ok; split; [lia | done]).
  assert (wf_pte_directory (default new_pd slot)) as Hwf1.
  { destruct slot as [pd|]; simpl; [|done]. destruct Hwf as [_ Hin]. eauto. }
  destruct (lookup_lt_is_Some_2 (ptes (default new_pd slot)) (Z.to_nat j))
    as [e0 He0]; [rewrite Hwf1; lia|].
  assert (valid e0 = false) as Hv0.
  { destruct slot as [pd|]; simpl in He0; [|by eapply Hfresh].
    apply Hunmapped. unfold pte_of, pagetable_at. rewrite Hp. simpl.
    unfold pte_at. fold i j. rewrite Hget. simpl.
    apply arr_get_Ok. split; [lia | done]. }
  assert (∀ f, refs_pd f (default new_pd slot) = refs_slot f slot) as Hsame.
  { intros f. destruct slot as [pd|]; simpl; [done|].
    destruct new_pd as [es]. by apply refs_pd_no_valid. }
  assert (pagetable_at s (current s) = Ok (p_pagetable p)) as Hpt
    by (unfold pagetable_at; by rewrite Hp).
  unfold alloc_page in Hrun. rewrite Hpt, bind_Ok in Hrun.
  destruct (find_free_frame (Z.to_nat NR_PAGEFRAMES) 0 (mapcounts s))
    as [[k|]|] eqn:Hfound.
  - (* frame [k] is taken *)
    rewrite (alloc_page_in_found new_pd _ _ vpn rw slot k) in Hrun by done.
    rewrite bind_Ok in Hrun. injection Hrun as <- <-.
    apply find_free_frame_Some in Hfound as (Hk & [_ Hk0]%arr_get_Ok & _).
    fold i j. intros f Hf.
    set (entry := {| valid := true;
                     writable := bool_decide (rw = Z.lor RW_READ RW_WRITE);
                     pfn := k; private := rw |}).
    pose proof (refs_store_pagetable s (current s) p
      (PT (<[Z.to_nat i := Some (PD (<[Z.to_nat j := entry]>
                                       (ptes (default new_pd slot))))]>
             (outer_ptes (p_pagetable p))))
      (<[Z.to_nat k := 1]> (mapcounts s)) f Hp) as H1.
    pose proof (refs_pt_insert f (outer_ptes (p_pagetable p)) (Z.to_nat i) slot
      (Some (PD (<[Z.to_nat j := entry]> (ptes (default new_pd slot)))))
      Hslot) as H2.
    pose proof (refs_pd_insert f _ _ _ entry He0) as H3.
    rewrite !refs_pd_one in H3. rewrite decide_False in H3
      by (intros [Hv _]; by rewrite Hv0 in Hv).
    cbn [refs_slot] in H2.
    assert (refs_pd f (PD (ptes (default new_pd slot))) = refs_slot f slot)
      as H4 by (rewrite <- Hsame; by destruct (default new_pd slot)).
    assert (refs_pt f (PT (outer_ptes (p_pagetable p)))
            = refs_pt f (p_pagetable p)) as H5 by (by destruct (p_pagetable p)).
    cbn [mapcounts store_pagetable].
    destruct (decide (f = k)) as [->|Hfk].
    + rewrite decide_True in H3 by done.
      rewrite list_lookup_insert_eq by (by eapply lookup_lt_Some).
      pose proof (Hcons k Hf) as Hc. rewrite Hk0 in Hc.
      injection Hc as Hc. f_equal. lia.
    + rewrite decide_False in H3 by (intros [_ Heq]; simpl in Heq; congruence).
      rewrite list_lookup_insert_ne by lia.
      rewrite (Hcons f Hf). do 2 f_equal. lia.
  - (* no frame is free *)
    unfold alloc_page_in in Hrun. fold i in Hrun.
    rewrite Hget, bind_Ok in Hrun.
    destruct slot as [pd|].
    + rewrite bind_Ok, Hfound, !bind_Ok in Hrun. injection Hrun as <- <-.
      by rewrite store_pagetable_id.
    + rewrite (arr_set_Ok _ _ _ _ Hget), !bind_Ok, Hfound, !bind_Ok in Hrun.
      injection Hrun as <- <-. intros f Hf.
      pose proof (refs_store_pagetable s (current s) p
        (PT (<[Z.to_nat i := Some new_pd]> (outer_ptes (p_pagetable p))))
        (mapcounts s) f Hp) as H1.
      pose proof (refs_pt_insert f (outer_ptes (p_pagetable p)) (Z.to_nat i)
        None (Some new_pd) Hslot) as H2.
      specialize (Hsame f). simpl in Hsame. cbn [refs_slot] in H2.
      assert (refs_pt f (PT (outer_ptes (p_pagetable p)))
              = refs_pt f (p_pagetable p)) as H5
        by (by destruct (p_pagetable p)).
      cbn [mapcounts store_pagetable]. rewrite (Hcons f Hf). do 2 f_equal. lia.
  - unfold alloc_page_in in Hrun. fold i in Hrun.
    rewrite Hget, bind_Ok in Hrun.
    destruct slot as [pd|].
    + by rewrite bind_Ok, Hfound in Hrun.
    + by rewrite (arr_set_Ok _ _ _ _ Hget), !bind_Ok, Hfound in Hrun.
Qed.

(** X15. Unmapping a mapped page keeps reference-count consistency: the
    entry is valid, so its frame is counted at least once; one reference is
    taken from the count and one valid entry goes, whether the inner table
    stays or is released. *)
Theorem free_page_keeps_refcounts
    (s s' : state) (p : process) (vpn : Z) (pd : pte_directory) (e : pte) :
  vm_h_ok Hvm →
  heap s !! current s = Some p →
  arr_get (outer_ptes (p_pagetable p)) (vpn / NR_PTES_PER_PAGE)
    = Ok (Some pd) →
  wf_pte_directory pd →
  arr_get (ptes pd) (vpn mod NR_PTES_PER_PAGE) = Ok e →
  valid e = true → 0 <= pfn e < NR_PAGEFRAMES →
  refcount_consistent s → Z.of_nat (refs s (pfn e)) < UINT_MOD →
  free_page s vpn = Ok s' → refcount_consistent s'.
Proof.
  intros Hok Hp Hpd Hwf He Hv Hf Hcons Hsmall Hrun.
  set (i := Z.to_nat (vpn / NR_PTES_PER_PAGE)).
  set (j := Z.to_nat (vpn mod NR_PTES_PER_PAGE)).
  set (cleared := <[j := zero_pte]> (ptes pd)).
  set (slot' := if forallb (λ e, negb (valid e)) cleared then None
                else Some (PD cleared)).
  set (pt' := PT (<[i := slot']> (outer_ptes (p_pagetable p)))).
  pose proof Hpd as [_ Hslot]%arr_get_Ok. pose proof He as [_ Hent]%arr_get_Ok.
  assert (∀ f mc,
    (refs (store_pagetable s (current s) pt' mc) f
     + (if decide (pfn e = f) then 1 else 0) = refs s f)%nat) as Hcount.
  { intros f mc.
    pose proof (refs_store_pagetable s (current s) p pt' mc f Hp) as H1.
    pose proof (refs_pt_insert f _ _ _ slot' Hslot) as H2.
    pose proof (refs_pd_insert f _ _ _ zero_pte Hent) as H3.
    rewrite !refs_pd_one in H3.
    rewrite (decide_False (P := valid zero_pte = true ∧ _)) in H3
      by (by intros [? _]).
    fold i in H2. fold j cleared in H3. fold pt' in H2.
    cbn [refs_slot] in H2.
    assert (refs_slot f slot' = refs_pd f (PD cleared)) as H4.
    { unfold slot'.
      destruct (forallb (λ e, negb (valid e)) cleared) eqn:Hall; [|done].
      simpl. symmetry. apply refs_pd_no_valid. intros k e0 He0.
      pose proof (forallb_lookup _ _ _ _ Hall He0) as Hn.
      by apply negb_true_iff in Hn. }
    assert (refs_pd f (PD (ptes pd)) = refs_pd f pd) as H5 by (by destruct pd).
    assert (refs_pt f (PT (outer_ptes (p_pagetable p)))
            = refs_pt f (p_pagetable p)) as H6 by (by destruct (p_pagetable p)).
    destruct (decide (pfn e = f)) as [Heq|Hne].
    - rewrite decide_True in H3 by done. lia.
    - rewrite decide_False in H3 by (by intros [_ ?]). lia. }
  pose proof (Hcons (pfn e) Hf) as Hm.
  assert (arr_get (mapcounts s) (pfn e) = Ok (Z.of_nat (refs s (pfn e))))
    as Hget by (apply arr_get_Ok; split; [lia | done]).
  assert (0 < Z.of_nat (refs s (pfn e))) as Hpos.
  { pose proof (Hcount (pfn e) (mapcounts s)) as Hc.
    rewrite decide_True in Hc by done. lia. }
  assert (pagetable_at s (current s) = Ok (p_pagetable p)) as Hpt
    by (unfold pagetable_at; by rewrite Hp).
  unfold free_page in Hrun. rewrite Hpt, bind_Ok in Hrun.
  rewrite (free_page_in_run _ _ _ _ _ _ Hok Hpd Hwf He Hget) in Hrun by lia.
  rewrite bind_Ok in Hrun. injection Hrun as <-.
  fold i j cleared slot' pt'. intros f Hfr.
  specialize (Hcount f (<[Z.to_nat (pfn e) := Z.of_nat (refs s (pfn e)) - 1]>
                          (mapcounts s))).
  cbn [mapcounts store_pagetable].
  destruct (decide (pfn e = f)) as [<-|Hne].
  - rewrite list_lookup_insert_eq by (by eapply lookup_lt_Some).
    f_equal. lia.
  - rewrite list_lookup_insert_ne by lia.
    rewrite (Hcons f Hfr). do 2 f_equal. lia.
Qed.

(** *** The fork keeps the counts consistent *)






(** *** [handle_page_fault] and the counts *)

(** X17. From a state with consistent counts, [handle_page_fault] ends in
    one exactly when it takes no frame.  A fault that fails, or that only
    sets the writable bit of a sole owner, keeps the counts and the
    entries' frames; the copy-on-write branch counts the new frame but
    leaves the count of the frame it moves the entry away from, which then
    exceeds the number of entries on that frame. *)
Theorem handle_page_fault_refcounts
    (s s' : state) (vpn rw : Z) (r : bool) :
  vm_h_ok Hvm → vpn_ok vpn → wf_state s → refcount_consistent s →
  handle_page_fault s vpn rw = Ok (s', r) →
  (refcount_consistent s' ↔ mapcounts s' = mapcounts s).
Proof.
  intros Hok Hvpn (Hlen & _ & _ & Hpts & _) Hcons
    [[_ ->]|(a & p & pt' & mc' & Hptbr & Hp & Hin & ->)]%handle_page_fault_inv;
    [done|].
  apply handle_page_fault_in_inv in Hin
    as [(_ & -> & ->)|(_ & e & e' & Hat & Hv & Htag & Hst & Hcase)].
  { by rewrite store_pagetable_id. }
  rewrite to_int_pd_index, to_int_pte_index in Hat, Hst by done.
  apply pte_at_inv in Hat as (pd & Hpd & He).
  pose proof Hpd as [_ Hslot]%arr_get_Ok. pose proof He as [_ Hent]%arr_get_Ok.
  apply pte_store_inv in Hst as (pd0 & e0 & Hpd0 & _ & ->).
  rewrite Hpd in Hpd0. injection Hpd0 as <-.
  destruct (Hpts a p Hp) as [_ Hpfn].
  pose proof (Hpfn _ _ _ _ Hslot Hent Hv) as Hfr. rewrite Hlen in Hfr.
  destruct Hok as [_ Hnf _ _].
  set (i := Z.to_nat (vpn / NR_PTES_PER_PAGE)) in *.
  set (j := Z.to_nat (vpn mod NR_PTES_PER_PAGE)) in *.
  assert (∀ e2 mc2 f,
    (refs (store_pagetable s a
            (PT (<[i := Some (PD (<[j := e2]> (ptes pd)))]>
                   (outer_ptes (p_pagetable p)))) mc2) f
     + refs_pd f (PD [e]) = refs s f + refs_pd f (PD [e2]))%nat) as Hcount.
  { intros e2 mc2 f.
    pose proof (refs_store_pagetable s a p
      (PT (<[i := Some (PD (<[j := e2]> (ptes pd)))]>
             (outer_ptes (p_pagetable p)))) mc2 f Hp) as H1.
    pose proof (refs_pt_insert f _ _ _
      (Some (PD (<[j := e2]> (ptes pd)))) Hslot) as H2.
    pose proof (refs_pd_insert f _ _ _ e2 Hent) as H3.
    cbn [refs_slot] in H2.
    assert (refs_pd f (PD (ptes pd)) = refs_pd f pd) as H5 by (by destruct pd).
    assert (refs_pt f (PT (outer_ptes (p_pagetable p)))
            = refs_pt f (p_pagetable p)) as H6 by (by destruct (p_pagetable p)).
    lia. }
  cbn [mapcounts store_pagetable].
  destruct Hcase as [[-> ->]|(k & Hk & [_ Hk0]%arr_get_Ok & -> & ->)].
  - (* the sole owner: only the writable bit is set *)
    split; [done|]. intros _ f Hf.
    specialize (Hcount (set_writable true e) (mapcounts s) f).
    rewrite !refs_pd_one in Hcount. cbn [valid pfn set_writable] in Hcount.
    cbn [mapcounts store_pagetable]. rewrite (Hcons f Hf). do 2 f_equal.
    destruct (decide (valid e = true ∧ pfn e = f)); lia.
  - (* copy-on-write: frame [k] is taken *)
    assert (to_uint k = k) as Huk
      by (apply to_uint_small; unfold UINT_MOD, INT_MAX in *; lia).
    split.
    + intros Hcons'. exfalso.
      assert (0 <= pfn e < NR_PAGEFRAMES) as Hfe by lia.
      pose proof (Hcons' (pfn e) Hfe) as Hc'.
      pose proof (Hcons (pfn e) Hfe) as Hc.
      pose proof (Hcount zero_pte (mapcounts s) (pfn e)) as Hin.
      specialize (Hcount (set_pfn (to_uint k) (set_writable true e))
                    (<[Z.to_nat k := 1]> (mapcounts s)) (pfn e)).
      rewrite !refs_pd_one in Hcount, Hin.
      cbn [valid pfn set_writable set_pfn] in Hcount. rewrite Huk in Hcount.
      rewrite decide_True in Hcount, Hin by done.
      rewrite decide_False in Hin by (by intros [? _]).
      assert (k ≠ pfn e) as Hne.
      { intros ->. rewrite Hk0 in Hc. injection Hc as Hc. lia. }
      rewrite decide_False in Hcount by (by intros [_ ?]).
      cbn [mapcounts store_pagetable] in Hc'.
      rewrite list_lookup_insert_ne in Hc' by lia.
      rewrite Hc, Huk in Hc'. injection Hc' as Hc'. lia.
    + intros Heq. exfalso.
      assert (<[Z.to_nat k := 1]> (mapcounts s) !! Z.to_nat k = Some 1) as H1
        by (apply list_lookup_insert_eq; by eapply lookup_lt_Some).
      rewrite Heq, Hk0 in H1. discriminate.
Qed.

(** A property of every frame number, checked frame by frame. *)
Lemma forall_frames (P : Z → Prop) `{!∀ f, Decision (P f)} (n : nat) :
  bool_decide (Forall (λ k, P (Z.of_nat k)) (seq 0 n)) = true →
  ∀ f, 0 <= f < Z.of_nat n → P f.
Proof.
  intros Hall%bool_decide_eq_true f Hf.
  assert (seq 0 n !! Z.to_nat f = Some (Z.to_nat f)) as Hk
    by (apply lookup_seq; lia).
  pose proof (Forall_lookup_1 _ _ _ _ Hall Hk) as HP. simpl in HP.
  by rewrite Z2Nat.id in HP by lia.
Qed.

Lemma zero_pd_no_valid (j : nat) (e : pte) :
  ptes zero_pd !! j = Some e → valid e = false.
Proof. by intros [-> _]%lookup_replicate. Qed.

End Facts.

(** * Scenarios *)

Section ScenarioFacts.
#[local] Existing Instance pa2_vm_h.

Lemma pa2_vm_h_ok : vm_h_ok pa2_vm_h.
Proof. split; vm_compute; intuition discriminate. Qed.

(** The scenarios are runs of the driver. *)
Lemma scenario_runs :
  run boot [Alloc 0 1] = Ok s_read_only ∧
  run boot [Alloc 0 3] = Ok s_read_write ∧
  run boot [Alloc 0 3; Alloc 1 3; Free 1] = Ok s_freed ∧
  run boot [Alloc 0 3; Alloc 1 3; Free 0] = Ok s_freed0 ∧
  run boot [Switch 1; Alloc 0 3; Switch 2; Switch 1; Fault 0 2]
    = Ok s_forked_a ∧
  run s_forked_a [Switch 2] = Ok s_forked_b ∧
  run s_forked_b [Fault 0 2] = Ok s_forked_ab.
Proof. do 6 (split; [vm_compute; reflexivity|]). vm_compute; reflexivity. Qed.

(** They are well formed, as every state a run reaches. *)
Lemma scenarios_wf : wf_state s_forked ∧ wf_state s_freed.
Proof.
  split.
  - apply (run_wf [Switch 1; Alloc 0 3; Switch 2; Switch 1] boot);
      [exact pa2_vm_h_ok | apply boot_wf | vm_compute; reflexivity].
  - apply (run_wf [Alloc 0 3; Alloc 1 3; Free 1] boot);
      [exact pa2_vm_h_ok | apply boot_wf | vm_compute; reflexivity].
Qed.

(** C1. Reference-count consistency does not hold in every reachable
    state.  It holds after the first process allocated page 0 read-write and
    forked process 1; the write fault of process 1 on page 0 then gives it
    frame 1 and leaves the count of frame 0 at 2, while a single valid entry
    (that of the first process) still maps frame 0. *)
Theorem refcount_consistency_broken_by_cow :
  run boot [Alloc 0 3; Switch 1] = Ok s_child ∧
  refcount_consistent s_child ∧
  ∃ s, run boot [Alloc 0 3; Switch 1; Fault 0 2] = Ok s ∧
    handle_page_fault s_child 0 2 = Ok (s, true) ∧
    mapcounts s !! 0%nat = Some 2 ∧ refs s 0 = 1%nat ∧
    ¬ refcount_consistent s.
Proof.
  split; [by vm_compute|].
  split; [apply refcount_consistentb_true; by vm_compute|].
  destruct (handle_page_fault s_child 0 2) as [[s r]|] eqn:Hs;
    [|by vm_compute in Hs].
  exists s. vm_compute in Hs. injection Hs as <- <-.
  split; [by vm_compute|]. split; [done|].
  split; [by vm_compute|]. split; [by vm_compute|].
  intros Hc. specialize (Hc 0 ltac:(by vm_compute)).
  vm_compute in Hc. discriminate.
Qed.

(** C2. Copy-on-write after a fork, as the code runs it.  Process 1
    allocates page 0 read-write and forks process 2: both entries map frame
    0, not writable, and its count is 2.  The write fault of process 1 gives
    it frame 1, with count 1, and leaves the entry of process 2 untouched,
    but the count of frame 0 stays 2.  The write fault of process 2 that
    follows therefore finds a count of 2 again and takes frame 2, instead of
    only setting the writable bit. *)
Theorem cow_fork_then_write_counts :
  run boot [Switch 1; Alloc 0 3; Switch 2; Switch 1] = Ok s_forked ∧
  current s_forked = 1%nat ∧
  pte_of s_forked 1 0
    = Ok {| valid := true; writable := false; pfn := 0; private := 3 |} ∧
  pte_of s_forked 2 0
    = Ok {| valid := true; writable := false; pfn := 0; private := 3 |} ∧
  mapcounts s_forked !! 0%nat = Some 2 ∧
  ∃ s4 s5 s6,
    handle_page_fault s_forked 0 RW_WRITE = Ok (s4, true) ∧
    pte_of s4 1 0
      = Ok {| valid := true; writable := true; pfn := 1; private := 3 |} ∧
    pte_of s4 2 0 = pte_of s_forked 2 0 ∧
    mapcounts s4 !! 0%nat = Some 2 ∧ mapcounts s4 !! 1%nat = Some 1 ∧
    run_call s4 (Switch 2) = Ok s5 ∧ current s5 = 2%nat ∧
    mapcounts s5 = mapcounts s4 ∧
    handle_page_fault s5 0 RW_WRITE = Ok (s6, true) ∧
    pte_of s6 2 0
      = Ok {| valid := true; writable := true; pfn := 2; private := 3 |} ∧
    mapcounts s6 !! 0%nat = Some 2 ∧ mapcounts s6 !! 2%nat = Some 1.
Proof.
  do 5 (split; [vm_compute; reflexivity|]).
  exists s_forked_a, s_forked_b, s_forked_ab.
  do 11 (split; [vm_compute; reflexivity|]). vm_compute; reflexivity.
Qed.

(** C5. The population of the entry fails for the write-only permission.
    From the start state, [alloc_page(0, RW_WRITE)] succeeds with frame 0,
    counts it and stores the tag [RW_WRITE], but leaves the entry not
    writable although the permission includes write: line 86 tests
    [rw == (RW_READ|RW_WRITE)] where the write bit of [rw] is meant.  The
    rest of the code takes the tag as a write permission: the write fault on
    the page that follows is handled by [handle_page_fault] (line 194 only
    refuses the tag [RW_READ]), which sets the writable bit that
    [alloc_page] left clear. *)
Theorem alloc_page_write_only_not_writable :
  Z.land RW_WRITE RW_WRITE ≠ 0 ∧
  ∃ s' s'', alloc_page zero_pd boot 0 RW_WRITE = Ok (s', 0) ∧
    mapcounts s' !! 0%nat = Some 1 ∧
    pte_of s' 0 0
      = Ok {| valid := true; writable := false; pfn := 0;
              private := RW_WRITE |} ∧
    handle_page_fault s' 0 RW_WRITE = Ok (s'', true) ∧
    pte_of s'' 0 0
      = Ok {| valid := true; writable := true; pfn := 0;
              private := RW_WRITE |}.
Proof.
  split; [vm_compute; discriminate|].
  exists s_write_only, s_write_only_faulted.
  split_and!; vm_compute; reflexivity.
Qed.

(** C4. The new process is not appended to the ready queue once the found
    branch has run.  Processes 1 and 2 are forked from the start state: the
    queue is 1, 2, its links consistent.  A switch to a process found on
    the queue overwrites the links of the head with those of the process
    (lines 260-261) and unlinks nothing.
    After the switch back to process 1 the traversal from the head passes
    process 2 only; the fork of process 3 makes it [current] and links it
    between the head and the head, so that the traversal passes process 3
    only: process 2 is no longer found, the queue was replaced, not
    appended to.
    After the switch to process 2 instead, the head's [next] is the head;
    the fork of process 3 makes it [current] and [processes.prev], its
    [next] the head, but the traversal from the head passes no process:
    the search for pid 3 that follows finds nothing. *)
Theorem fork_after_switch_not_on_the_way :
  run boot [Switch 1; Switch 2] = Ok s_two_procs ∧
  is_queue s_two_procs Head [1%nat; 2%nat] ∧
  (run s_two_procs [Switch 1] = Ok s_back ∧
   find_process (length (heap s_back)) s_back (next (processes s_back)) 2
     = Ok (Some 2%nat) ∧
   find_process (length (heap s_back)) s_back (next (processes s_back)) 3
     = Ok None ∧
   run s_back [Switch 3] = Ok s_replaced ∧
   current s_replaced = 3%nat ∧ pid <$> heap s_replaced !! 3%nat = Some 3 ∧
   processes s_replaced = {| next := Node 3; prev := Node 3 |} ∧
   find_process (length (heap s_replaced)) s_replaced
     (next (processes s_replaced)) 3 = Ok (Some 3%nat) ∧
   find_process (length (heap s_replaced)) s_replaced
     (next (processes s_replaced)) 2 = Ok None) ∧
  (run s_two_procs [Switch 2] = Ok s_switched ∧
   processes s_switched = {| next := Head; prev := Node 1 |} ∧
   find_process (length (heap s_switched)) s_switched
     (next (processes s_switched)) 3 = Ok None ∧
   run s_switched [Switch 3] = Ok s_rewired ∧
   current s_rewired = 3%nat ∧ pid <$> heap s_rewired !! 3%nat = Some 3 ∧
   processes s_rewired = {| next := Head; prev := Node 3 |} ∧
   get_list s_rewired (Node 3) = Ok {| next := Head; prev := Node 1 |} ∧
   find_process (length (heap s_rewired)) s_rewired
     (next (processes s_rewired)) 3 = Ok None).
Proof.
  split; [vm_compute; reflexivity|].
  split; [vm_compute; split_and!; reflexivity|].
  split; split_and!; vm_compute; reflexivity.
Qed.

(** *** The theorems at concrete inputs *)

Lemma handle_page_fault_protection_violation_witness :
  ptbr s_read_only = Some 0%nat ∧
  pte_of s_read_only 0 0
    = Ok {| valid := true; writable := false; pfn := 0; private := RW_READ |} ∧
  handle_page_fault s_read_only 0 RW_WRITE = Ok (s_read_only, false).
Proof.
  split; [reflexivity|]. split; [vm_compute; reflexivity|].
  eapply (handle_page_fault_protection_violation s_read_only 0 _ 0 RW_WRITE).
  - exact pa2_vm_h_ok.
  - vm_compute. intuition discriminate.
  - reflexivity.
  - reflexivity.
  - vm_compute. reflexivity.
  - reflexivity.
  - reflexivity.
Defined.

Lemma free_page_zero_count_noop_witness :
  pte_of s_freed0 0 0 = Ok zero_pte ∧
  mapcounts s_freed0 !! 0%nat = Some 0 ∧
  free_page s_freed0 0 = Ok s_freed0.
Proof.
  split; [vm_compute; reflexivity|]. split; [reflexivity|].
  eapply (free_page_zero_count_noop s_freed0 _ 0).
  - reflexivity.
  - vm_compute. reflexivity.
  - vm_compute. reflexivity.
Defined.

Lemma free_page_absent_slot_witness :
  outer_ptes zero_pt !! 0%nat = Some None ∧
  free_page boot 0 = Stuck NullDeref ∧ free_page boot 0 ≠ Ok boot.
Proof.
  split; [reflexivity|].
  eapply (free_page_absent_slot boot _ 0).
  - reflexivity.
  - vm_compute. reflexivity.
Defined.

Lemma free_page_invalid_entry_witness :
  pte_of s_freed 0 1 = Ok zero_pte ∧
  pte_of s_freed 0 0
    = Ok {| valid := true; writable := true; pfn := 0; private := 3 |} ∧
  mapcounts s_freed !! 0%nat = Some 1 ∧
  ∃ s', free_page s_freed 1 = Ok s' ∧
    mapcounts s' !! 0%nat = Some 0 ∧
    pte_of s' 0 0
      = Ok {| valid := true; writable := true; pfn := 0; private := 3 |}.
Proof.
  split; [vm_compute; reflexivity|]. split; [vm_compute; reflexivity|].
  split; [reflexivity|].
  eexists. split.
  - eapply (free_page_invalid_entry s_freed _ 1 _ zero_pte 1).
    + exact pa2_vm_h_ok.
    + reflexivity.
    + vm_compute. reflexivity.
    + reflexivity.
    + vm_compute. reflexivity.
    + reflexivity.
    + vm_compute. reflexivity.
    + vm_compute. intuition discriminate.
  - split; vm_compute; reflexivity.
Defined.

Lemma alloc_page_populates_pte_witness :
  alloc_page zero_pd boot 0 3 = Ok (s_read_write, 0) ∧
  arr_get (mapcounts boot) 0 = Ok 0 ∧
  mapcounts s_read_write = <[0%nat := 1]> (mapcounts boot) ∧
  pte_of s_read_write 0 0
    = Ok {| valid := true; writable := true; pfn := 0; private := 3 |}.
Proof.
  split; [vm_compute; reflexivity|].
  destruct (alloc_page_populates_pte zero_pd boot s_read_write 0 3 0)
    as (H0 & Hmc & Hpte).
  - exact pa2_vm_h_ok.
  - vm_compute. reflexivity.
  - vm_compute. discriminate.
  - split; [exact H0|]. split; [exact Hmc|]. exact Hpte.
Defined.

Lemma alloc_page_smallest_frame_witness :
  (∃ s' r, alloc_page zero_pd s_read_write 1 3 = Ok (s', r) ∧
     ((0 <= r < NR_PAGEFRAMES ∧
       mapcounts s_read_write !! Z.to_nat r = Some 0 ∧
       (∀ j, 0 <= j < r → mapcounts s_read_write !! Z.to_nat j ≠ Some 0) ∧
       mapcounts s' = <[Z.to_nat r := 1]> (mapcounts s_read_write))
      ∨ (r = to_uint (-1) ∧
         (∀ j, 0 <= j < NR_PAGEFRAMES →
            mapcounts s_read_write !! Z.to_nat j ≠ Some 0) ∧
         mapcounts s' = mapcounts s_read_write))) ∧
  ∃ s', alloc_pages boot (replicate 128 (zero_pd, 0, 3) ++ [(zero_pd, 0, 3)])
    = Ok (s', (Z.of_nat <$> seq 0 128) ++ [4294967295]).
Proof.
  destruct (alloc_page_smallest_frame pa2_vm_h_ok) as [Hsel Hseq]. split.
  - eapply (Hsel zero_pd s_read_write _ 1 3).
    + reflexivity.
    + apply wf_pagetableb_true. vm_compute. reflexivity.
    + reflexivity.
    + vm_compute. intuition discriminate.
    + reflexivity.
  - eapply (Hseq boot _ (replicate 128 (zero_pd, 0, 3)) (zero_pd, 0, 3)).
    + reflexivity.
    + apply wf_pagetableb_true. vm_compute. reflexivity.
    + reflexivity.
    + reflexivity.
    + apply Forall_app. split; [apply Forall_replicate | apply Forall_singleton];
        (split; [reflexivity | vm_compute; intuition discriminate]).
Defined.

Lemma handle_page_fault_cow_witness :
  (pte_of s_sole 1 0
     = Ok {| valid := true; writable := false; pfn := 0; private := 3 |} ∧
   mapcounts s_sole !! 0%nat = Some 1 ∧
   ∃ s', handle_page_fault s_sole 0 RW_WRITE = Ok (s', true) ∧
     pte_of s' 1 0
       = Ok {| valid := true; writable := true; pfn := 0; private := 3 |} ∧
     mapcounts s' = mapcounts s_sole) ∧
  (∃ s', handle_page_fault s_forked 0 RW_WRITE = Ok (s', true) ∧
     pte_of s' 1 0
       = Ok {| valid := true; writable := true; pfn := 1; private := 3 |} ∧
     mapcounts s' = <[1%nat := 1]> (mapcounts s_forked) ∧
     mapcounts s' !! 0%nat = Some 2) ∧
  handle_page_fault s_full 0 RW_WRITE = Ok (s_full, false).
Proof.
  split; [|split].
  - split; [vm_compute; reflexivity|]. split; [reflexivity|].
    destruct (handle_page_fault_cow s_sole 1
                (default zero_process (heap s_sole !! 1%nat)) 0 RW_WRITE
                {| valid := true; writable := false; pfn := 0; private := 3 |} 1)
      as (H1 & _ & _).
    + exact pa2_vm_h_ok.
    + vm_compute. intuition discriminate.
    + reflexivity.
    + reflexivity.
    + reflexivity.
    + vm_compute. reflexivity.
    + reflexivity.
    + vm_compute. discriminate.
    + vm_compute. reflexivity.
    + vm_compute. discriminate.
    + destruct (H1 eq_refl) as (pt' & Hst & Hrun & Hread).
      eexists. split; [exact Hrun|]. split; [exact Hread | reflexivity].
  - destruct (handle_page_fault_cow s_forked 1
                (default zero_process (heap s_forked !! 1%nat)) 0 RW_WRITE
                {| valid := true; writable := false; pfn := 0; private := 3 |} 2)
      as (_ & H2 & _).
    + exact pa2_vm_h_ok.
    + vm_compute. intuition discriminate.
    + reflexivity.
    + reflexivity.
    + reflexivity.
    + vm_compute. reflexivity.
    + reflexivity.
    + vm_compute. discriminate.
    + vm_compute. reflexivity.
    + vm_compute. discriminate.
    + destruct (H2 ltac:(lia) 1) as (pt' & Hst & Hrun & Hread & Hold).
      * vm_compute. intuition discriminate.
      * reflexivity.
      * intros j Hj. assert (j = 0) as -> by lia. vm_compute. discriminate.
      * eexists. split; [exact Hrun|]. split; [exact Hread|].
        split; [reflexivity | exact Hold].
  - destruct (handle_page_fault_cow s_full 1
                (default zero_process (heap s_full !! 1%nat)) 0 RW_WRITE
                {| valid := true; writable := false; pfn := 0; private := 3 |} 2)
      as (_ & _ & H3).
    + exact pa2_vm_h_ok.
    + vm_compute. intuition discriminate.
    + reflexivity.
    + reflexivity.
    + reflexivity.
    + vm_compute. reflexivity.
    + reflexivity.
    + vm_compute. discriminate.
    + vm_compute. reflexivity.
    + vm_compute. discriminate.
    + apply H3; [lia|]. intros j Hj Hz.
      assert (Forall (λ c, c ≠ 0) (mapcounts s_full)) as Hall.
      { apply Forall_forall. intros c Hc%list_elem_of_In.
        vm_compute in Hc. intros ->.
        repeat (destruct Hc as [Hc|Hc]; [discriminate|]). done. }
      by apply (Forall_lookup_1 _ _ _ _ Hall Hz).
Defined.

Lemma switch_process_fork_witness :
  find_process (length (heap s_read_write)) s_read_write
    (next (processes s_read_write)) 1 = Ok None ∧
  pte_of s_read_write 0 0
    = Ok {| valid := true; writable := true; pfn := 0; private := 3 |} ∧
  ∃ s', switch_process zero_process (λ _, zero_pd) s_read_write 1 = Ok s' ∧
    pte_of s' 1 0
      = Ok {| valid := true; writable := false; pfn := 0; private := 3 |} ∧
    pte_of s' 0 0
      = Ok {| valid := true; writable := false; pfn := 0; private := 3 |} ∧
    mapcounts s' !! 0%nat = Some 2 ∧ mapcounts s' !! 1%nat = Some 0 ∧
    current s' = 1%nat ∧ ptbr s' = Some 1%nat ∧
    is_queue s' Head [1%nat].
Proof.
  split; [reflexivity|]. split; [vm_compute; reflexivity|].
  destruct (switch_process_fork zero_process (λ _, zero_pd) s_read_write 1
              (default zero_process (heap s_read_write !! 0%nat))
              {| next := Head; prev := Head |})
    as (s' & child_pt & parent_pt & Hrun & _ & _ & Hchild & Hparent & Hvalid
        & _ & _ & Hmc & _ & Hcur & Hptbr & _ & _ & _ & Hq).
  - reflexivity.
  - reflexivity.
  - apply wf_pagetableb_true. vm_compute. reflexivity.
  - apply pfns_okb_true. vm_compute. reflexivity.
  - reflexivity.
  - intros i. reflexivity.
  - reflexivity.
  - exists s'. split; [exact Hrun|].
    destruct (Hvalid 0 0
      {| valid := true; writable := true; pfn := 0; private := 3 |})
      as [Hc Hp]; [vm_compute; reflexivity | reflexivity |].
    change (length (heap s_read_write)) with 1%nat in *.
    change (current s_read_write) with 0%nat in *.
    split_and!.
    + unfold pte_of. rewrite Hchild. exact Hc.
    + unfold pte_of. rewrite Hparent. exact Hp.
    + rewrite Hmc. vm_compute. reflexivity.
    + rewrite Hmc. vm_compute. reflexivity.
    + exact Hcur.
    + exact Hptbr.
    + apply (Hq []). split; reflexivity.
Defined.

(** *** The further properties at concrete inputs *)

Lemma vpn_ok_0 : vpn_ok 0.
Proof. vm_compute. intuition discriminate. Qed.

Lemma vpn_ok_1 : vpn_ok 1.
Proof. vm_compute. intuition discriminate. Qed.

Lemma s_forked_runs :
  run boot [Switch 1; Alloc 0 3; Switch 2; Switch 1] = Ok s_forked.
Proof. vm_compute. reflexivity. Qed.

Lemma s_forked_inv :
  wf_state s_forked ∧ queue_ranked s_forked ∧
  ptbr s_forked = Some (current s_forked).
Proof.
  apply (run_inv [Switch 1; Alloc 0 3; Switch 2; Switch 1] boot);
    [exact pa2_vm_h_ok | apply boot_inv | exact s_forked_runs].
Qed.

Lemma s_two_procs_inv :
  wf_state s_two_procs ∧ queue_ranked s_two_procs ∧
  ptbr s_two_procs = Some (current s_two_procs).
Proof.
  apply (run_inv [Switch 1; Switch 2] boot);
    [exact pa2_vm_h_ok | apply boot_inv | vm_compute; reflexivity].
Qed.

Lemma handle_page_fault_failure_changes_nothing_witness :
  ∃ s', handle_page_fault s_read_only 0 RW_WRITE = Ok (s', false) ∧
    s' = s_read_only.
Proof.
  destruct (handle_page_fault s_read_only 0 RW_WRITE) as [[s' r]|] eqn:Hrun;
    [|vm_compute in Hrun; discriminate].
  assert (r = false) as -> by (vm_compute in Hrun; congruence).
  exists s'. split; [reflexivity|].
  exact (handle_page_fault_failure_changes_nothing s_read_only s' 0 RW_WRITE
           Hrun).
Defined.

Lemma handle_page_fault_success_writable_witness :
  handle_page_fault s_forked 0 RW_WRITE = Ok (s_forked_a, true) ∧
  ∃ e e', pte_of s_forked 1 0 = Ok e ∧ pte_of s_forked_a 1 0 = Ok e' ∧
    valid e = true ∧ private e ≠ RW_READ ∧
    valid e' = true ∧ writable e' = true ∧ private e' = private e.
Proof.
  split; [vm_compute; reflexivity|].
  apply (handle_page_fault_success_writable s_forked s_forked_a 1 0 RW_WRITE).
  - exact pa2_vm_h_ok.
  - exact vpn_ok_0.
  - reflexivity.
  - vm_compute. reflexivity.
Defined.


Lemma handle_page_fault_invalid_mapping_witness :
  handle_page_fault boot 0 RW_READ = Ok (boot, false).
Proof.
  apply (handle_page_fault_invalid_mapping boot 0 RW_READ).
  - exact pa2_vm_h_ok.
  - exact vpn_ok_0.
  - right. exists 0%nat, (default zero_process (heap boot !! 0%nat)).
    split; [reflexivity|]. split; [reflexivity|].
    left. vm_compute. reflexivity.
Defined.

Lemma free_page_unmaps_witness :
  ∃ s', free_page s_two_pages 1 = Ok s' ∧
    mapcounts s' = <[1%nat := 0]> (mapcounts s_two_pages) ∧
    pte_of s' 0 1 = Ok zero_pte ∧
    (∀ vpn', vpn_ok vpn' → vpn' ≠ 1 →
       pte_of s' 0 vpn' = pte_of s_two_pages 0 vpn') ∧
    (∀ b, b ≠ 0%nat → heap s' !! b = heap s_two_pages !! b).
Proof.
  eapply (free_page_unmaps s_two_pages _ 1 _
            {| valid := true; writable := true; pfn := 1; private := 3 |} 1
            0%nat
            {| valid := true; writable := true; pfn := 0; private := 3 |}).
  - exact pa2_vm_h_ok.
  - exact vpn_ok_1.
  - reflexivity.
  - vm_compute. reflexivity.
  - reflexivity.
  - vm_compute. reflexivity.
  - vm_compute. reflexivity.
  - vm_compute. intuition discriminate.
  - vm_compute. discriminate.
  - reflexivity.
  - reflexivity.
Defined.

Lemma free_page_reclaims_table_witness :
  ∃ s' p', free_page s_read_write 0 = Ok s' ∧
    mapcounts s' = <[0%nat := 0]> (mapcounts s_read_write) ∧
    heap s' !! 0%nat = Some p' ∧
    outer_ptes (p_pagetable p') = outer_ptes zero_pt ∧
    arr_get (outer_ptes (p_pagetable p')) 0 = Ok None.
Proof.
  set (p := default zero_process (heap s_read_write !! 0%nat)).
  set (pd := default zero_pd
               (default None (outer_ptes (p_pagetable p) !! 0%nat))).
  destruct (free_page_reclaims_table s_read_write p 0 pd
              {| valid := true; writable := true; pfn := 0; private := 3 |} 1)
    as (s' & p' & Hrun & Hmc & Hp' & Houter & Hslot).
  - exact pa2_vm_h_ok.
  - reflexivity.
  - vm_compute. reflexivity.
  - reflexivity.
  - vm_compute. reflexivity.
  - vm_compute. reflexivity.
  - vm_compute. intuition discriminate.
  - refine (proj1 (forallb_cleared _ _ _) _).
    + vm_compute. lia.
    + vm_compute. reflexivity.
  - exists s', p'. split; [exact Hrun|]. split; [exact Hmc|].
    split; [exact Hp'|]. split; [|exact Hslot].
    rewrite Houter. vm_compute. reflexivity.
Defined.

Lemma alloc_free_round_trip_witness :
  alloc_page zero_pd boot 0 3 = Ok (s_read_write, 0) ∧
  free_page s_read_write 0 = Ok boot.
Proof.
  assert (alloc_page zero_pd boot 0 3 = Ok (s_read_write, 0)) as Halloc
    by (vm_compute; reflexivity).
  split; [exact Halloc|].
  eapply (alloc_free_round_trip zero_pd boot s_read_write _ 0 3 0).
  - exact pa2_vm_h_ok.
  - exact vpn_ok_0.
  - reflexivity.
  - apply wf_pagetableb_true. vm_compute. reflexivity.
  - reflexivity.
  - left. split; [vm_compute; reflexivity | exact zero_pd_no_valid].
  - exact Halloc.
  - vm_compute. discriminate.
Defined.

Lemma alloc_page_exhausted_witness :
  ∃ s', alloc_page zero_pd s_full 0 3 = Ok (s', to_uint (-1)) ∧
    mapcounts s' = mapcounts s_full ∧ s' = s_full.
Proof.
  edestruct (alloc_page_exhausted zero_pd s_full
               (default zero_process (heap s_full !! 1%nat)) 0 3
               (default None (outer_ptes
                  (p_pagetable (default zero_process (heap s_full !! 1%nat)))
                  !! 0%nat)))
    as (s' & Hrun & Hmc & Hsame & _).
  - reflexivity.
  - reflexivity.
  - vm_compute. reflexivity.
  - apply (forall_frames (λ j, mapcounts s_full !! Z.to_nat j ≠ Some 0) 128).
    vm_compute. reflexivity.
  - exists s'. split; [exact Hrun|]. split; [exact Hmc|].
    apply Hsame. vm_compute. by eexists.
Defined.

Lemma alloc_page_on_mapped_page_witness :
  alloc_page zero_pd s_read_write 0 3 = Ok (s_remapped, 1) ∧
  1 ≠ 0 ∧
  pfn <$> pte_of s_remapped 0 0 = Ok 1 ∧
  arr_get (mapcounts s_remapped) 0 = Ok 1 ∧
  arr_get (mapcounts s_remapped) 1 = Ok 1.
Proof.
  assert (alloc_page zero_pd s_read_write 0 3 = Ok (s_remapped, 1)) as Halloc
    by (vm_compute; reflexivity).
  split; [exact Halloc|].
  eapply (alloc_page_on_mapped_page zero_pd s_read_write s_remapped _ 0 3 1
            {| valid := true; writable := true; pfn := 0; private := 3 |} 1).
  - exact pa2_vm_h_ok.
  - reflexivity.
  - vm_compute. reflexivity.
  - reflexivity.
  - vm_compute. reflexivity.
  - discriminate.
  - exact Halloc.
  - vm_compute. discriminate.
Defined.



Lemma switch_process_returns_witness :
  ∃ s', switch_process zero_process (λ _, zero_pd) s_forked 7 = Ok s' ∧
    pid <$> heap s' !! current s' = Some 7 ∧
    ptbr s' = Some (current s') ∧
    wf_state s' ∧ queue_ranked s'.
Proof.
  apply (switch_process_returns zero_process (λ _, zero_pd) s_forked 7).
  - exact (proj1 s_forked_inv).
  - exact (proj1 (proj2 s_forked_inv)).
  - apply zero_pt_ok.
  - intros i. apply zero_pd_ok.
Defined.

Lemma switch_process_found_leaves_queue_witness :
  find_process (length (heap s_two_procs)) s_two_procs
    (next (processes s_two_procs)) 2 = Ok (Some 2%nat) ∧
  switch_process zero_process (λ _, zero_pd) s_two_procs 2 = Ok s_switched ∧
  heap s_switched = heap s_two_procs ∧
  mapcounts s_switched = mapcounts s_two_procs ∧
  current s_switched = 2%nat ∧ ptbr s_switched = Some 2%nat ∧
  p_list <$> heap s_two_procs !! 2%nat = Some (processes s_switched) ∧
  ∀ os s'' id', Forall blocks_ok os → execs s_switched os = Ok s'' →
    ∃ o, find_process (length (heap s'')) s'' (next (processes s'')) id'
           = Ok o ∧
      o ≠ Some 2%nat.
Proof.
  assert (find_process (length (heap s_two_procs)) s_two_procs
            (next (processes s_two_procs)) 2 = Ok (Some 2%nat)) as Hfind
    by (vm_compute; reflexivity).
  assert (switch_process zero_process (λ _, zero_pd) s_two_procs 2
          = Ok s_switched) as Hrun by (vm_compute; reflexivity).
  split; [exact Hfind|]. split; [exact Hrun|].
  apply (switch_process_found_leaves_queue zero_process (λ _, zero_pd)
           s_two_procs s_switched 2 2).
  - exact pa2_vm_h_ok.
  - exact (proj1 s_two_procs_inv).
  - exact (proj1 (proj2 s_two_procs_inv)).
  - exact Hfind.
  - exact Hrun.
Defined.

Lemma handle_page_fault_returns_witness :
  ∃ s' r, handle_page_fault s_forked 0 RW_WRITE = Ok (s', r).
Proof.
  apply (handle_page_fault_returns s_forked 0 RW_WRITE).
  - exact pa2_vm_h_ok.
  - exact (proj1 s_forked_inv).
  - exact vpn_ok_0.
Defined.

Lemma alloc_page_keeps_refcounts_witness :
  refcount_consistent boot ∧
  alloc_page zero_pd boot 0 3 = Ok (s_read_write, 0) ∧
  refcount_consistent s_read_write.
Proof.
  assert (refcount_consistent boot) as Hcons
    by (apply refcount_consistentb_true; vm_compute; reflexivity).
  assert (alloc_page zero_pd boot 0 3 = Ok (s_read_write, 0)) as Halloc
    by (vm_compute; reflexivity).
  split; [exact Hcons|]. split; [exact Halloc|].
  eapply (alloc_page_keeps_refcounts zero_pd boot s_read_write _ 0 3 0).
  - exact pa2_vm_h_ok.
  - exact vpn_ok_0.
  - reflexivity.
  - apply wf_pagetableb_true. vm_compute. reflexivity.
  - reflexivity.
  - exact zero_pd_no_valid.
  - intros e He. vm_compute in He. discriminate.
  - exact Hcons.
  - exact Halloc.
Defined.

Lemma free_page_keeps_refcounts_witness :
  refcount_consistent s_two_pages ∧
  free_page s_two_pages 1 = Ok s_freed ∧
  refcount_consistent s_freed.
Proof.
  assert (refcount_consistent s_two_pages) as Hcons
    by (apply refcount_consistentb_true; vm_compute; reflexivity).
  assert (free_page s_two_pages 1 = Ok s_freed) as Hfree
    by (vm_compute; reflexivity).
  split; [exact Hcons|]. split; [exact Hfree|].
  eapply (free_page_keeps_refcounts s_two_pages s_freed _ 1 _
            {| valid := true; writable := true; pfn := 1; private := 3 |}).
  - exact pa2_vm_h_ok.
  - reflexivity.
  - vm_compute. reflexivity.
  - reflexivity.
  - vm_compute. reflexivity.
  - reflexivity.
  - vm_compute. intuition discriminate.
  - exact Hcons.
  - vm_compute. reflexivity.
  - exact Hfree.
Defined.


Lemma handle_page_fault_refcounts_witness :
  refcount_consistent s_forked ∧
  handle_page_fault s_forked 0 RW_WRITE = Ok (s_forked_a, true) ∧
  (refcount_consistent s_forked_a ↔ mapcounts s_forked_a = mapcounts s_forked).
Proof.
  assert (refcount_consistent s_forked) as Hcons
    by (apply refcount_consistentb_true; vm_compute; reflexivity).
  assert (handle_page_fault s_forked 0 RW_WRITE = Ok (s_forked_a, true))
    as Hrun by (vm_compute; reflexivity).
  split; [exact Hcons|]. split; [exact Hrun|].
  apply (handle_page_fault_refcounts s_forked s_forked_a 0 RW_WRITE true).
  - exact pa2_vm_h_ok.
  - exact vpn_ok_0.
  - exact (proj1 s_forked_inv).
  - exact Hcons.
  - exact Hrun.
Defined.

End ScenarioFacts.
